(** * EzPaypal: the request pipeline of [src/index.js], embedded and verified

    The development follows the class [EasyPayPal] of [src/index.js]:
    the constructor, [getAccessToken], [checkRateLimit], [parseError],
    [makeRequest], [verifyWebhook], [formatCurrency] and [validateAmount],
    and, built on [makeRequest], [getReturnUrls], [createOrder],
    [createSimplePayment], [authorizePayment], [createProduct],
    [sendInvoice], [cancelInvoice] and [getApiStatus].

    Conventions of the embedding.
    - Mutable fields of [this] are a record threaded through a state and
      exception monad; [throw] is an exceptional outcome.
    - The network (axios) and the clock ([Date.now], [setTimeout]) are a
      [World]: scripted replies consumed in order, a clock advanced by the
      latency of every reply and by every sleep, and a trace of the
      effects performed.
    - Console output ([console.log] under [this.debug], [console.error])
      changes neither state nor results and is left out.
    - Error objects are modelled by the fields the code sets on them; the
      rendering of their [message] text is left out.
    - Objects are lists of own properties in insertion order; a spread
      copies own properties one by one, later values replacing earlier
      ones.
    - Numbers: request counters are natural numbers; clock readings are
      natural numbers of milliseconds; HTTP statuses, durations and
      [expires_in] are integers; the per-minute ceiling and the amounts
      of [formatCurrency] and [validateAmount] are doubles, kept as the
      exact rationals they denote, with binary64 rounding written out
      where the code divides.
    - Arguments that the code reads properties of ([headers],
      [orderData], overrides) are arbitrary values, [null] and
      [undefined] included; a lookup by a caller-chosen name in an object
      literal ([minimums[currency]]) also finds the members that every
      object inherits from [Object.prototype]. *)

From Stdlib Require Import Ascii QArith Qround Qabs.
From stdpp Require Import base strings gmap pretty list.

#[local] Set Warnings "-register-all".
Local Open Scope Z_scope.

(** ** JavaScript values *)

Module JS.

(** A JS number: a finite double (kept as the exact rational it denotes),
    [NaN] or an infinity. *)
Inductive number :=
  | NaN
  | Finite (q : Q)
  | Infinity (negative : bool).

Inductive val :=
  | VUndefined
  | VNull
  | VBool (b : bool)
  | VNum (n : number)
  | VStr (s : string)
  | VArr (items : list val)
  | VObj (props : list (string * val)).

Definition is_number (v : val) : bool :=
  match v with VNum _ => true | _ => false end.

(** [a <= b] on numbers: false as soon as one side is [NaN]. *)
Definition num_le (a b : number) : bool :=
  match a, b with
  | NaN, _ | _, NaN => false
  | Finite x, Finite y => Qle_bool x y
  | Infinity true, _ => true
  | _, Infinity false => true
  | Infinity false, _ => false
  | _, Infinity true => false
  end.

Definition of_Z (z : Z) : number := Finite (inject_Z z).

Definition of_nat (n : nat) : number := of_Z (Z.of_nat n).

(** [a >= b] on numbers *)
Definition num_ge (a b : number) : bool := num_le b a.

(** ToBoolean. *)
Definition truthy (v : val) : bool :=
  match v with
  | VUndefined | VNull => false
  | VBool b => b
  | VNum NaN => false
  | VNum (Finite q) => negb (Qeq_bool q 0)
  | VNum (Infinity _) => true
  | VStr s => negb (String.eqb s "")
  | VArr _ | VObj _ => true
  end.

Fixpoint assoc (k : string) (props : list (string * val)) : val :=
  match props with
  | [] => VUndefined
  | (k', v) :: rest => if String.eqb k k' then v else assoc k rest
  end.

(** [v.k] for the property names this program reads by a fixed name
    ([message], [verification_status], [error_description], the
    [paypal-...] headers, [returnUrl], [return_url], [cancelUrl],
    [cancel_url]): [None] is the TypeError of a property access on [null]
    or [undefined]; primitives and arrays have no such property, and
    [Object.prototype] has none of these names. *)
Definition get_prop (v : val) (k : string) : option val :=
  match v with
  | VUndefined | VNull => None
  | VObj props => Some (assoc k props)
  | _ => Some VUndefined
  end.

(** [v?.k] *)
Definition opt_prop (v : val) (k : string) : val :=
  match get_prop v k with Some x => x | None => VUndefined end.

(** [a || b] *)
Definition or_else (a b : val) : val := if truthy a then a else b.

(** [v === 'lit'] *)
Definition strict_eq_str (v : val) (lit : string) : bool :=
  match v with VStr s => String.eqb s lit | _ => false end.

End JS.
Export JS.

(** ** binary64 arithmetic on exact rationals

    A finite double is the rational it denotes.  [round64] is rounding to
    the nearest double, ties to even, with 53 bits of precision; the
    exponent range is taken unbounded (no overflow, no subnormals), which
    is exact for every magnitude between 2^-1022 and 2^1024. *)

Module Binary64.

(** nearest integer to [n / d] ([0 < d]), ties to even *)
Definition rne (n d : Z) : Z :=
  let q := n / d in
  let r := n mod d in
  if 2 * r <? d then q
  else if d <? 2 * r then q + 1
  else if Z.even q then q else q + 1.

(** [floor (log2 (p / q))] *)
Definition ilog2 (p q : positive) : Z :=
  let e0 := Z.log2 (Zpos p) - Z.log2 (Zpos q) in
  if Zpos q * 2 ^ Z.max 0 e0 <=? Zpos p * 2 ^ Z.max 0 (- e0)
  then e0 else e0 - 1.

(** the double nearest to [p / q]: the mantissa [p / q * 2^s] lies in
    [2^52, 2^53) and is rounded to an integer *)
Definition round_pos (p q : positive) : Q :=
  let s := 52 - ilog2 p q in
  let n := rne (Zpos p * 2 ^ Z.max 0 s) (Zpos q * 2 ^ Z.max 0 (- s)) in
  if 0 <=? s then n # Z.to_pos (2 ^ s) else inject_Z (n * 2 ^ (- s)).

Definition round64 (x : Q) : Q :=
  match Qnum x with
  | Z0 => 0%Q
  | Zpos p => round_pos p (Qden x)
  | Zneg p => Qopp (round_pos p (Qden x))
  end.

(** [x / y] on doubles, for a nonzero [y] *)
Definition fdiv (x y : Q) : Q := round64 (x / y).

Definition of_int (z : Z) : Q := round64 (inject_Z z).

End Binary64.

(** ** Number.prototype.toString and toFixed (ECMA-262, 6.1.6.1.20 and
    21.1.3.3), on finite doubles *)

Module NumberFormat.

Definition Qlt_bool (x y : Q) : bool := negb (Qle_bool y x).

Definition pow10 (n : nat) : Z := 10 ^ Z.of_nat n.

Fixpoint zeros (n : nat) : string :=
  match n with O => "" | S n => String "0"%char (zeros n) end.

(** Shortest digits [s] (with [k] digits) such that [s * 10^(n-k)] rounds
    to the double [x]; [n] is the number of digits of the integer part of
    [x >= 10^21].  Candidates for a given [k] are the two integers around
    [x / 10^(n-k)]; the closer one that round-trips is taken. *)
Definition shortest_try (x : Q) (n k : nat) : option Z :=
  let scale := inject_Z (pow10 (n - k)) in
  let lo := Qfloor (x / scale) in
  let ok (s : Z) := Qeq_bool (Binary64.round64 (inject_Z s * scale)) x
                    && (pow10 (k - 1) <=? s) && (s <? pow10 k) in
  let dist (s : Z) := Qabs (inject_Z s * scale - x) in
  match ok lo, ok (lo + 1) with
  | true, true => Some (if Qle_bool (dist lo) (dist (lo + 1)) then lo else lo + 1)
  | true, false => Some lo
  | false, true => Some (lo + 1)
  | false, false => None
  end.

Fixpoint shortest_from (x : Q) (n k fuel : nat) : Z * nat :=
  match fuel with
  | O => (Qfloor x, n)
  | S fuel =>
      match shortest_try x n k with
      | Some s => (s, k)
      | None => shortest_from x n (S k) fuel
      end
  end.

(** Number::toString for a double [x >= 10^21]: exponent notation *)
Definition toString_large (x : Q) : string :=
  let n := String.length (pretty (Qfloor x)) in
  let '(s, k) := shortest_from x n 1 17 in
  let digits := pretty s in
  let e := pretty (Z.of_nat (n - 1)) in
  match digits with
  | String d EmptyString => String d ("e+" +:+ e)
  | String d rest => String d ("." +:+ rest +:+ "e+" +:+ e)
  | EmptyString => ""
  end.

Definition toFixed (x : Q) (f : nat) : string :=
  let s := if Qlt_bool x 0 then "-" else "" in
  let x := Qabs x in
  if Qle_bool (inject_Z (pow10 21)) x then s +:+ toString_large x
  else
    let n := Qfloor (x * inject_Z (pow10 f) + (1 # 2)) in
    let m := pretty n in
    let m :=
      if (f =? 0)%nat then m
      else
        let k := String.length m in
        let m' := if (k <=? f)%nat then zeros (f + 1 - k) +:+ m else m in
        let k' := if (k <=? f)%nat then (f + 1)%nat else k in
        String.substring 0 (k' - f) m' +:+ "." +:+ String.substring (k' - f) f m'
    in s +:+ m.

End NumberFormat.

(** ** The pure helpers of [EasyPayPal] *)

Record Amount := { currency_code : string; value : string }.

(** [formatCurrency(amount, currency = 'USD')], for an integer [amount] *)
Definition formatCurrency (amount : Z) (currency : option string) : Amount :=
  let currency := default "USD" currency in
  {| currency_code := currency;
     value := NumberFormat.toFixed
                (Binary64.fdiv (Binary64.of_int amount) (inject_Z 100)) 2 |}.

(** The own properties of the [minimums] literal. *)
Definition minimums : gmap string Z :=
  {[ "USD" := 100; "EUR" := 100; "GBP" := 100; "JPY" := 100 ]}.

(** The property names of [Object.prototype] (ECMA-262, 20.1.3 and
    B.2.2): every object literal inherits them.  Each of them is a
    function, except [__proto__], which reads as [Object.prototype]
    itself. *)
Definition Object_prototype_names : list string :=
  [ "constructor"; "hasOwnProperty"; "isPrototypeOf"; "propertyIsEnumerable";
    "toLocaleString"; "toString"; "valueOf"; "__proto__";
    "__defineGetter__"; "__defineSetter__"; "__lookupGetter__";
    "__lookupSetter__" ].

(** What [minimums[currency] || 100] evaluates to: a number, or a member
    inherited from [Object.prototype] (a function or an object, truthy,
    so the default is not taken). *)
Inductive Minimum :=
  | Amount_at_least (m : Z)
  | Inherited_member.

(** [minimums[currency] || 100] *)
Definition minimum_for (currency : string) : Minimum :=
  match minimums !! currency with
  | Some m => Amount_at_least (if m =? 0 then 100 else m)
  | None =>
      if bool_decide (currency ∈ Object_prototype_names)
      then Inherited_member
      else Amount_at_least 100
  end.

(** [validateAmount(amount, currency = 'USD')].  In [amount >= m] an
    inherited member [m] converts to [NaN] (its string form is not a
    numeral), and the comparison is false. *)
Definition validateAmount (amount : val) (currency : option string) : bool :=
  let currency := default "USD" currency in
  match amount with
  | VNum n =>
      if num_le n (of_Z 0) then false
      else match minimum_for currency with
           | Amount_at_least m => num_ge n (of_Z m)
           | Inherited_member => num_ge n NaN
           end
  | _ => false
  end.


(** ** Base64 of a byte string ([Buffer.from(s).toString('base64')]) *)

Module Base64.

Definition alphabet : list ascii :=
  String.list_ascii_of_string
    "ABCDEFGHIJKLMNOPQRSTUVWXYZabcdefghijklmnopqrstuvwxyz0123456789+/".

Definition sextet (n : N) : ascii := nth (N.to_nat (n mod 64)%N) alphabet "="%char.

Fixpoint encode_bytes (bytes : list N) : string :=
  match bytes with
  | [] => ""
  | [a] =>
      let n := (a * 16)%N in
      String (sextet (n / 64)) (String (sextet n) "==")
  | [a; b] =>
      let n := ((a * 256 + b) * 4)%N in
      String (sextet (n / 4096)) (String (sextet (n / 64)) (String (sextet n) "="))
  | a :: b :: c :: rest =>
      let n := (a * 65536 + b * 256 + c)%N in
      String (sextet (n / 262144)) (String (sextet (n / 4096))
        (String (sextet (n / 64)) (String (sextet n) (encode_bytes rest))))
  end.

Definition encode (s : string) : string :=
  encode_bytes (map N_of_ascii (String.list_ascii_of_string s)).

End Base64.

(** ** The client object *)

(** The [options] argument of the constructor and the variables it reads
    from [process.env]; a numeric variable is given as [parseInt] returns
    it ([None] when unset or not a number).  [maxRequestsPerMinute] is
    any number ([None] when absent): the constructor does not check that
    it is whole or positive.  The branding, URL, address and template
    entries of [this.config] are not read by the request pipeline and are
    left out. *)
Record Options := {
  opt_clientId : option string;
  opt_clientSecret : option string;
  opt_mode : option string;
  opt_debug : option bool;
  opt_timeout : option Z;
  opt_retryAttempts : option Z;
  opt_webhookId : option string;
  opt_maxRequestsPerMinute : option number
}.

Record Env := {
  PAYPAL_CLIENT_ID : option string;
  PAYPAL_CLIENT_SECRET : option string;
  PAYPAL_MODE : option string;
  PAYPAL_DEBUG : option string;
  PAYPAL_TIMEOUT : option Z;
  PAYPAL_RETRY_ATTEMPTS : option Z;
  PAYPAL_WEBHOOK_ID : option string
}.

Module Cfg.
Record Config := {
  timeout : Z;
  retryAttempts : Z;
  webhookId : option string
}.
End Cfg.
Export Cfg (Config).

(** The fields of [this].  [accessToken] and [tokenExpiry] are [None] for
    [null]; the counters count requests and are natural numbers; the
    ceiling they are compared with is the number the constructor
    stored. *)
Record EasyPayPal := {
  clientId : string;
  clientSecret : string;
  mode : string;
  debug : bool;
  baseURL : string;
  config : Config;
  accessToken : option string;
  tokenExpiry : option Z;
  requestCounter : nat;
  rateLimitCount : nat;
  rateLimitWindow : Z;
  maxRequestsPerMinute : number
}.

Definition set_accessToken (v : option string) (c : EasyPayPal) : EasyPayPal :=
  {| clientId := clientId c; clientSecret := clientSecret c; mode := mode c;
     debug := debug c; baseURL := baseURL c; config := config c;
     accessToken := v; tokenExpiry := tokenExpiry c;
     requestCounter := requestCounter c; rateLimitCount := rateLimitCount c;
     rateLimitWindow := rateLimitWindow c;
     maxRequestsPerMinute := maxRequestsPerMinute c |}.

Definition set_tokenExpiry (v : option Z) (c : EasyPayPal) : EasyPayPal :=
  {| clientId := clientId c; clientSecret := clientSecret c; mode := mode c;
     debug := debug c; baseURL := baseURL c; config := config c;
     accessToken := accessToken c; tokenExpiry := v;
     requestCounter := requestCounter c; rateLimitCount := rateLimitCount c;
     rateLimitWindow := rateLimitWindow c;
     maxRequestsPerMinute := maxRequestsPerMinute c |}.

Definition set_requestCounter (v : nat) (c : EasyPayPal) : EasyPayPal :=
  {| clientId := clientId c; clientSecret := clientSecret c; mode := mode c;
     debug := debug c; baseURL := baseURL c; config := config c;
     accessToken := accessToken c; tokenExpiry := tokenExpiry c;
     requestCounter := v; rateLimitCount := rateLimitCount c;
     rateLimitWindow := rateLimitWindow c;
     maxRequestsPerMinute := maxRequestsPerMinute c |}.

Definition set_rateLimitCount (v : nat) (c : EasyPayPal) : EasyPayPal :=
  {| clientId := clientId c; clientSecret := clientSecret c; mode := mode c;
     debug := debug c; baseURL := baseURL c; config := config c;
     accessToken := accessToken c; tokenExpiry := tokenExpiry c;
     requestCounter := requestCounter c; rateLimitCount := v;
     rateLimitWindow := rateLimitWindow c;
     maxRequestsPerMinute := maxRequestsPerMinute c |}.

Definition set_rateLimitWindow (v : Z) (c : EasyPayPal) : EasyPayPal :=
  {| clientId := clientId c; clientSecret := clientSecret c; mode := mode c;
     debug := debug c; baseURL := baseURL c; config := config c;
     accessToken := accessToken c; tokenExpiry := tokenExpiry c;
     requestCounter := requestCounter c; rateLimitCount := rateLimitCount c;
     rateLimitWindow := v;
     maxRequestsPerMinute := maxRequestsPerMinute c |}.

(** ** The world: network and clock *)

Module Axios.

Record Response := { status : Z; data : val }.

(** What axios rejects with, as the program reads it: [error.message] and
    [error.response]. *)
Record AxiosError := { err_message : string; err_response : option Response }.

Inductive Reply (A : Type) :=
  | Resolve (r : A)
  | Reject (e : AxiosError).
Arguments Resolve {A} r.
Arguments Reject {A} e.

Record RequestConfig := {
  method : string;
  url : string;
  headers : gmap string string;
  timeout : Z;
  data_of : option val
}.

End Axios.
Export Axios (Response, AxiosError, Reply, Resolve, Reject, RequestConfig,
              err_message, err_response).

(** The body of a successful token exchange ([response.data]), as the
    token endpoint documents it. *)
Record TokenData := { access_token : string; expires_in : Z }.

Inductive Event :=
  | TokenExchange (url body : string) (headers : gmap string string)
  | Dispatch (cfg : RequestConfig)
  | Sleep (ms : Z).

(** Replies are consumed in order, each with the time it takes (ms); an
    exhausted script answers as an unreachable network does.  [clock] is
    what [Date.now()] returns.  [snapshots] is ghost state: the client
    after every assignment to one of its fields, so that every
    intermediate point of a run can be spoken of. *)
Record World := {
  clock : N;
  token_replies : list (N * Reply TokenData);
  api_replies : list (N * Reply Response);
  trace : list Event;
  snapshots : list EasyPayPal
}.

Inductive ErrorType :=
  | NETWORK_ERROR
  | BAD_REQUEST
  | AUTHENTICATION_FAILURE
  | AUTHORIZATION_FAILURE
  | NOT_FOUND
  | VALIDATION_ERROR
  | RATE_LIMIT_EXCEEDED
  | INTERNAL_SERVER_ERROR
  | UNKNOWN_ERROR.

Global Instance ErrorType_eq_dec : EqDecision ErrorType.
Proof. solve_decision. Defined.

(** The object [parseError] returns; [pe_status] is [None] where the
    source leaves [status] out. *)
Record ParsedError := {
  pe_type : ErrorType;
  pe_message : val;
  pe_details : val;
  pe_status : option Z
}.

(** Thrown values.
    - [Error msg]: [new Error(msg)] with a literal message;
    - [TokenError d]: the error of [getAccessToken], whose message ends
      with [d];
    - [ApiError ..]: the [enhancedError] of [makeRequest] with its [type],
      [status], [details] and [requestId] fields, and the parsed message;
    - [TypeError]: a property read on [null] or [undefined]. *)
Inductive exn :=
  | Error (message : string)
  | TokenError (detail : val)
  | ApiError (type : ErrorType) (message : val) (status : option Z)
             (details : val) (requestId : string)
  | TypeError.

Inductive outcome (A : Type) :=
  | Return (a : A)
  | Throw (e : exn).
Arguments Return {A} a.
Arguments Throw {A} e.

Definition M (A : Type) : Type :=
  EasyPayPal -> World -> outcome A * EasyPayPal * World.

Global Instance M_ret : MRet M := fun A a c w => (Return a, c, w).
Global Instance M_bind : MBind M := fun A B f m c w =>
  match m c w with
  | (Return a, c', w') => f a c' w'
  | (Throw e, c', w') => (Throw e, c', w')
  end.

Definition throw {A} (e : exn) : M A := fun c w => (Throw e, c, w).

(** [try { body } catch (error) { handler }] *)
Definition try_catch {A} (body : M A) (handler : exn -> M A) : M A :=
  fun c w =>
    match body c w with
    | (Throw e, c', w') => handler e c' w'
    | r => r
    end.

Definition this : M EasyPayPal := fun c w => (Return c, c, w).

Definition with_trace (ev : Event) (dt : N) (w : World) : World :=
  {| clock := clock w + dt; token_replies := token_replies w;
     api_replies := api_replies w; trace := trace w ++ [ev];
     snapshots := snapshots w |}.

Definition with_snapshot (c : EasyPayPal) (w : World) : World :=
  {| clock := clock w; token_replies := token_replies w;
     api_replies := api_replies w; trace := trace w;
     snapshots := snapshots w ++ [c] |}.

Definition pop_token_reply (w : World) : World :=
  {| clock := clock w; token_replies := tail (token_replies w);
     api_replies := api_replies w; trace := trace w;
     snapshots := snapshots w |}.

Definition pop_api_reply (w : World) : World :=
  {| clock := clock w; token_replies := token_replies w;
     api_replies := tail (api_replies w); trace := trace w;
     snapshots := snapshots w |}.

(** [this.field = v] *)
Definition assign (f : EasyPayPal -> EasyPayPal) : M unit :=
  fun c w => (Return tt, f c, with_snapshot (f c) w).

Definition Date_now : M Z := fun c w => (Return (Z.of_N (clock w)), c, w).

Definition network_down : AxiosError :=
  {| err_message := "Network Error"; err_response := None |}.

(** A call of axios settles to a reply.  In both places where the source
    awaits axios, the call sits directly in a [try] block in which nothing
    else can throw, so [try { await axios(..) .. } catch (error) { .. }]
    is the case analysis on the settled reply. *)

(** [axios.post(url, body, { headers })] against the token endpoint *)
Definition axios_post (url body : string) (hs : gmap string string)
  : M (Reply TokenData) :=
  fun c w =>
    let '(latency, r) := default (0%N, Reject network_down)
                           (head (token_replies w)) in
    (Return r, c, with_trace (TokenExchange url body hs) latency (pop_token_reply w)).

(** [axios(config)] *)
Definition axios (cfg : RequestConfig) : M (Reply Response) :=
  fun c w =>
    let '(latency, r) := default (0%N, Reject network_down)
                           (head (api_replies w)) in
    (Return r, c, with_trace (Dispatch cfg) latency (pop_api_reply w)).

(** [await new Promise(resolve => setTimeout(resolve, ms))] *)
Definition sleep (ms : Z) : M unit :=
  fun c w => (Return tt, c, with_trace (Sleep ms) (Z.to_N ms) w).
(** ** The methods of [EasyPayPal] *)

(** [a || b] on optional strings and numbers: [null], [undefined], the
    empty string, [0] and [NaN] are falsy. *)
Definition truthy_str (a : option string) : bool :=
  match a with Some s => negb (String.eqb s "") | None => false end.

Definition truthy_num (a : option Z) : bool :=
  match a with Some n => negb (n =? 0) | None => false end.

Definition str_or (a b : option string) : option string :=
  if truthy_str a then a else b.

Definition num_or (a b : option Z) : option Z :=
  if truthy_num a then a else b.

(** [a || b] for an optional number [a]: [0] and [NaN] are falsy, every
    other number (negative, fractional, infinite) is kept. *)
Definition number_or (a : option number) (b : number) : number :=
  match a with
  | Some n => if truthy (VNum n) then n else b
  | None => b
  end.

(** [count >= ceiling], for a counter and the ceiling stored *)
Definition reached (count : nat) (ceiling : number) : bool :=
  num_ge (of_nat count) ceiling.

(** [new EasyPayPal(options)], at clock reading [now] *)
Definition constructor (options : Options) (env : Env) (now : N)
  : exn + EasyPayPal :=
  let clientId := str_or (opt_clientId options) (PAYPAL_CLIENT_ID env) in
  let clientSecret := str_or (opt_clientSecret options) (PAYPAL_CLIENT_SECRET env) in
  let mode :=
    default "" (str_or (str_or (opt_mode options) (PAYPAL_MODE env))
                  (Some "sandbox")) in
  let debug :=
    default false (opt_debug options)
    || bool_decide (PAYPAL_DEBUG env = Some "true") || false in
  if negb (truthy_str clientId) || negb (truthy_str clientSecret)
  then inl (Error "PayPal Client ID and Client Secret are required")
  else
    inr {| clientId := default "" clientId;
           clientSecret := default "" clientSecret;
           mode := mode;
           debug := debug;
           baseURL := if String.eqb mode "live"
                      then "https://api-m.paypal.com"
                      else "https://api-m.sandbox.paypal.com";
           config :=
             {| Cfg.timeout :=
                  default 0 (num_or (num_or (opt_timeout options)
                                       (PAYPAL_TIMEOUT env)) (Some 30000));
                Cfg.retryAttempts :=
                  default 0 (num_or (num_or (opt_retryAttempts options)
                                       (PAYPAL_RETRY_ATTEMPTS env)) (Some 3));
                Cfg.webhookId :=
                  str_or (opt_webhookId options) (PAYPAL_WEBHOOK_ID env) |};
           accessToken := None;
           tokenExpiry := None;
           requestCounter := 0;
           rateLimitCount := 0;
           rateLimitWindow := Z.of_N now;
           maxRequestsPerMinute :=
             number_or (opt_maxRequestsPerMinute options) (of_Z 1000) |}.

(** [this.accessToken && this.tokenExpiry && Date.now() < this.tokenExpiry],
    with the token it lets through *)
Definition fresh_token (c : EasyPayPal) (now : Z) : option string :=
  match accessToken c, tokenExpiry c with
  | Some token, Some expiry =>
      if negb (String.eqb token "") && negb (expiry =? 0) && (now <? expiry)
      then Some token else None
  | _, _ => None
  end.

(** [error.response?.data?.error_description || error.message] *)
Definition token_error_detail (error : AxiosError) : val :=
  or_else
    (match err_response error with
     | Some response => opt_prop (Axios.data response) "error_description"
     | None => VUndefined
     end)
    (VStr (err_message error)).

Definition getAccessToken : M string :=
  c ← this;
  now ← Date_now;
  match fresh_token c now with
  | Some token => mret token
  | None =>
    let auth := Base64.encode (clientId c +:+ ":" +:+ clientSecret c) in
    settled ← axios_post (baseURL c +:+ "/v1/oauth2/token")
                 "grant_type=client_credentials"
                 {[ "Authorization" := "Basic " +:+ auth;
                    "Content-Type" := "application/x-www-form-urlencoded" ]};
    match settled with
    | Resolve response =>
        assign (set_accessToken (Some (access_token response)));;
        now ← Date_now;
        assign (set_tokenExpiry (Some (now + expires_in response * 1000 - 60000)));;
        mret (access_token response)
    | Reject error => throw (TokenError (token_error_detail error))
    end
  end.

Definition checkRateLimit : M unit :=
  now ← Date_now;
  let windowDuration := 60 * 1000 in
  c ← this;
  (if windowDuration <? now - rateLimitWindow c
   then assign (set_rateLimitWindow now);; assign (set_rateLimitCount 0)
   else mret tt);;
  c ← this;
  if reached (rateLimitCount c) (maxRequestsPerMinute c)
  then throw (Error "Rate limit exceeded. Please wait before making more requests.")
  else assign (set_rateLimitCount (S (rateLimitCount c))).

(** [parseError(error)]; [error] is read through its [message] and
    [response] only. *)
Definition parseError (error : AxiosError) : M ParsedError :=
  match err_response error with
  | None =>
      mret {| pe_type := NETWORK_ERROR; pe_message := VStr (err_message error);
              pe_details := VNull; pe_status := None |}
  | Some response =>
      let status := Axios.status response in
      let data := Axios.data response in
      let finish (errorType : ErrorType) (message : val) : M ParsedError :=
        mret {| pe_type := errorType; pe_message := message;
                pe_details := data; pe_status := Some status |} in
      if status =? 400 then
        finish BAD_REQUEST
          (or_else (opt_prop data "message") (VStr "Invalid request parameters"))
      else if status =? 401 then
        assign (set_accessToken None);;
        finish AUTHENTICATION_FAILURE
          (VStr "Authentication failed. Check your credentials.")
      else if status =? 403 then
        finish AUTHORIZATION_FAILURE
          (VStr "Access forbidden. Check your permissions.")
      else if status =? 404 then
        finish NOT_FOUND (VStr "Resource not found")
      else if status =? 422 then
        finish VALIDATION_ERROR
          (or_else (opt_prop data "message") (VStr "Validation error"))
      else if status =? 429 then
        finish RATE_LIMIT_EXCEEDED
          (VStr "Rate limit exceeded. Please retry after some time.")
      else if status =? 500 then
        finish INTERNAL_SERVER_ERROR
          (VStr "PayPal server error. Please try again later.")
      else
        finish UNKNOWN_ERROR
          (or_else (opt_prop data "message")
             (VStr ("HTTP " +:+ pretty status +:+ " error")))
  end.

(** The body of [makeRequest(method, endpoint, data = null, retryCount = 0)],
    with the recursive call as [self]. *)
Definition makeRequest_body (self : string -> string -> val -> nat -> M val)
    (method endpoint : string) (data : val) (retryCount : nat) : M val :=
  checkRateLimit;;
  token ← getAccessToken;
  c ← this;
  assign (set_requestCounter (S (requestCounter c)));;
  c ← this;
  now ← Date_now;
  let requestId := pretty (requestCounter c) +:+ "-" +:+ pretty now in
  let config :=
    {| Axios.method := method;
       Axios.url := baseURL c +:+ endpoint;
       Axios.headers :=
         {[ "Authorization" := "Bearer " +:+ token;
            "Content-Type" := "application/json";
            "PayPal-Request-Id" := requestId;
            "Prefer" := "return=representation" ]};
       Axios.timeout := 30000;
       Axios.data_of := if truthy data then Some data else None |} in
  settled ← axios config;
  match settled with
  | Resolve response => mret (Axios.data response)
  | Reject error =>
      parsedError ← parseError error;
      if (retryCount <? 3)%nat
         && (bool_decide (pe_type parsedError = AUTHENTICATION_FAILURE)
             || bool_decide (pe_status parsedError = Some 500))
      then
        sleep (2 ^ Z.of_nat retryCount * 1000);;
        self method endpoint data (retryCount + 1)%nat
      else
        throw (ApiError (pe_type parsedError) (pe_message parsedError)
                 (pe_status parsedError) (pe_details parsedError) requestId)
  end.

(** The recursion of [makeRequest] is on [3 - retryCount]: a recursive
    call is made only under [retryCount < 3], with [retryCount + 1]. *)
Fixpoint makeRequest_rec (budget : nat) : string -> string -> val -> nat -> M val :=
  makeRequest_body
    match budget with
    | S budget => makeRequest_rec budget
    | O => fun _ _ _ _ => throw (Error "unreachable")
    end.

Definition makeRequest (method endpoint : string) (data : val) (retryCount : nat)
  : M val :=
  makeRequest_rec (3 - retryCount) method endpoint data retryCount.

(** The [verificationData] object that [verifyWebhook] builds from
    headers that are neither [null] nor [undefined]; a header that is
    absent reads as [undefined]. *)
Definition verificationData (headers body webhookId : val) : val :=
  let header (name : string) : val := opt_prop headers name in
  VObj [ ("auth_algo", header "paypal-auth-algo");
         ("cert_id", header "paypal-cert-id");
         ("transmission_id", header "paypal-transmission-id");
         ("transmission_sig", header "paypal-transmission-sig");
         ("transmission_time", header "paypal-transmission-time");
         ("webhook_id", webhookId);
         ("webhook_event", body) ].

Definition verify_path : string := "/v1/notifications/verify-webhook-signature".

(** [headers[name]], a TypeError when [headers] is [null] or [undefined] *)
Definition read_header (headers : val) (name : string) : M val :=
  match get_prop headers name with
  | Some v => mret v
  | None => throw TypeError
  end.

(** [verifyWebhook(headers, body, webhookId)]: the five headers are read
    before the [try] block. *)
Definition verifyWebhook (headers body webhookId : val) : M bool :=
  auth_algo ← read_header headers "paypal-auth-algo";
  cert_id ← read_header headers "paypal-cert-id";
  transmission_id ← read_header headers "paypal-transmission-id";
  transmission_sig ← read_header headers "paypal-transmission-sig";
  transmission_time ← read_header headers "paypal-transmission-time";
  let verificationData :=
    VObj [ ("auth_algo", auth_algo);
           ("cert_id", cert_id);
           ("transmission_id", transmission_id);
           ("transmission_sig", transmission_sig);
           ("transmission_time", transmission_time);
           ("webhook_id", webhookId);
           ("webhook_event", body) ] in
  try_catch
    (result ← makeRequest "POST" verify_path verificationData 0;
     match get_prop result "verification_status" with
     | Some status => mret (strict_eq_str status "SUCCESS")
     | None => throw TypeError
     end)
    (fun error => mret false).

(** ** Runs of a client: the calls a program can make on one instance,
    interleaved with the passing of time *)

Inductive Call :=
  | CallGetAccessToken
  | CallCheckRateLimit
  | CallParseError (error : AxiosError)
  | CallMakeRequest (method endpoint : string) (data : val) (retryCount : nat)
  | CallVerifyWebhook (headers body webhookId : val)
  | Wait (ms : N).

Definition state_of {A} (r : outcome A * EasyPayPal * World) : EasyPayPal * World :=
  (snd (fst r), snd r).

Definition wait (ms : N) (w : World) : World :=
  {| clock := clock w + ms; token_replies := token_replies w;
     api_replies := api_replies w; trace := trace w;
     snapshots := snapshots w |}.

Definition call (k : Call) (c : EasyPayPal) (w : World) : EasyPayPal * World :=
  match k with
  | CallGetAccessToken => state_of (getAccessToken c w)
  | CallCheckRateLimit => state_of (checkRateLimit c w)
  | CallParseError error => state_of (parseError error c w)
  | CallMakeRequest method endpoint data retryCount =>
      state_of (makeRequest method endpoint data retryCount c w)
  | CallVerifyWebhook headers body webhookId =>
      state_of (verifyWebhook headers body webhookId c w)
  | Wait ms => (c, wait ms w)
  end.

Fixpoint run (calls : list Call) (c : EasyPayPal) (w : World) : EasyPayPal * World :=
  match calls with
  | [] => (c, w)
  | k :: calls => let '(c', w') := call k c w in run calls c' w'
  end.

(** The straight-line part of [makeRequest], up to the settled reply of
    axios: the request id it computed and the reply.  It is what one
    attempt does before the outcome is looked at, and is used to state
    the retry law. *)
Definition attempt (method endpoint : string) (data : val)
  : M (string * Reply Response) :=
  checkRateLimit;;
  token ← getAccessToken;
  c ← this;
  assign (set_requestCounter (S (requestCounter c)));;
  c ← this;
  now ← Date_now;
  let requestId := pretty (requestCounter c) +:+ "-" +:+ pretty now in
  let config :=
    {| Axios.method := method;
       Axios.url := baseURL c +:+ endpoint;
       Axios.headers :=
         {[ "Authorization" := "Bearer " +:+ token;
            "Content-Type" := "application/json";
            "PayPal-Request-Id" := requestId;
            "Prefer" := "return=representation" ]};
       Axios.timeout := 30000;
       Axios.data_of := if truthy data then Some data else None |} in
  settled ← axios config;
  mret (requestId, settled).

(** ** The words of the specification, for comparison with the code *)

Module Spec.

(** "the currency-specific minimum, which is 100 minor units for any
    currency without an explicitly configured minimum" *)
Definition currency_minimum (currency : string) : Z :=
  default 100 (minimums !! currency).

(** The classification table of the specification. *)
Definition classify (response : option Response) : ErrorType :=
  match response with
  | None => NETWORK_ERROR
  | Some r =>
      match Axios.status r with
      | 400 => BAD_REQUEST
      | 401 => AUTHENTICATION_FAILURE
      | 403 => AUTHORIZATION_FAILURE
      | 404 => NOT_FOUND
      | 422 => VALIDATION_ERROR
      | 429 => RATE_LIMIT_EXCEEDED
      | 500 => INTERNAL_SERVER_ERROR
      | _ => UNKNOWN_ERROR
      end
  end.

(** "an authentication failure or a server-side (5xx) failure and the
    retry counter is below the fixed ceiling of 3" *)
Definition retries (retryCount : nat) (response : option Response) : bool :=
  (retryCount <? 3)%nat
  && match response with
     | Some r => (Axios.status r =? 401)
                 || ((500 <=? Axios.status r) && (Axios.status r <? 600))
     | None => false
     end.

(** "the decimal string for amount/100 with exactly two digits after the
    decimal point" *)
Definition decimal2 (amount : Z) : string :=
  (if amount <? 0 then "-" else "")
  +:+ pretty (Z.abs amount / 100)
  +:+ "."
  +:+ String (pretty_N_char (Z.to_N (Z.abs amount / 10 mod 10)))
        (String (pretty_N_char (Z.to_N (Z.abs amount mod 10))) "").

End Spec.

(** What the code retries on: status 401 or status 500, below 3. *)
Definition retriable (retryCount : nat) (response : option Response) : bool :=
  (retryCount <? 3)%nat
  && match response with
     | Some r => (Axios.status r =? 401) || (Axios.status r =? 500)
     | None => false
     end.


(** The rate-limit invariant of the code, for any ceiling: the counter is
    0, or its last increment was let through, [rateLimitCount - 1 <
    maxRequestsPerMinute]. *)
Definition allowed (c : EasyPayPal) : Prop :=
  rateLimitCount c = O \/
  reached (pred (rateLimitCount c)) (maxRequestsPerMinute c) = false.

(** The same, for a client whose ceiling is still [ceiling]. *)
Definition allowed_at (ceiling : number) (c : EasyPayPal) : Prop :=
  maxRequestsPerMinute c = ceiling /\ allowed c.

(** The ceiling is the whole number [n]. *)
Definition whole (ceiling : number) (n : nat) : Prop :=
  exists q, ceiling = Finite q /\ (q == inject_Z (Z.of_nat n))%Q.

(** An operation left the network and the clock alone. *)
Definition quiet (w w' : World) : Prop :=
  clock w' = clock w /\ token_replies w' = token_replies w /\
  api_replies w' = api_replies w /\ trace w' = trace w.

Definition is_exchange (ev : Event) : bool :=
  match ev with TokenExchange _ _ _ => true | _ => false end.

Definition rate_limit_error : exn :=
  Error "Rate limit exceeded. Please wait before making more requests.".



(** ** Auxiliary definitions used in the statements *)

Definition token_url (c : EasyPayPal) : string := baseURL c +:+ "/v1/oauth2/token".

Definition token_headers (c : EasyPayPal) : gmap string string :=
  {[ "Authorization" :=
       "Basic " +:+ Base64.encode (clientId c +:+ ":" +:+ clientSecret c);
     "Content-Type" := "application/x-www-form-urlencoded" ]}.

Definition next_token_reply (w : World) : N * Reply TokenData :=
  default (0%N, Reject network_down) (head (token_replies w)).

Definition after_exchange (c : EasyPayPal) (w : World) : World :=
  with_trace (TokenExchange (token_url c) "grant_type=client_credentials"
                (token_headers c))
    (next_token_reply w).1 (pop_token_reply w).

Definition next_api_reply (w : World) : N * Reply Response :=
  default (0%N, Reject network_down) (head (api_replies w)).

(** What one attempt leaves alone in the client. *)
Definition carries (c c' : EasyPayPal) : Prop :=
  accessToken c' = accessToken c /\ tokenExpiry c' = tokenExpiry c /\
  maxRequestsPerMinute c' = maxRequestsPerMinute c /\
  baseURL c' = baseURL c /\
  (rateLimitCount c' <= S (rateLimitCount c))%nat.

Definition request_for (method url token : string) (cfg : RequestConfig) : Prop :=
  Axios.method cfg = method /\ Axios.url cfg = url /\
  Axios.headers cfg !! "Authorization" = Some ("Bearer " +:+ token) /\
  Axios.timeout cfg = 30000.

(** The wait before retry number [retryCount + 1]. *)
Definition backoff (retryCount : nat) : Z := 2 ^ Z.of_nat retryCount * 1000.

Definition after_backoff (retryCount : nat) (w : World) : World :=
  with_trace (Sleep (backoff retryCount)) (Z.to_N (backoff retryCount)) w.

Definition failure (st : Z) (message : string) (payload : val) : Reply Response :=
  Reject {| err_message := message;
            err_response := Some {| Axios.status := st; Axios.data := payload |} |}.

Definition dispatches (tr : list Event) : list RequestConfig :=
  omap (fun ev => match ev with Dispatch cfg => Some cfg | _ => None end) tr.

Definition sleeps (tr : list Event) : list Z :=
  omap (fun ev => match ev with Sleep ms => Some ms | _ => None end) tr.

Definition exchanges (tr : list Event) : nat := length (filter is_exchange tr).



(** An operation only ever appends to the trace. *)
Definition grows {A} (m : M A) : Prop :=
  forall c w, exists rest, trace (m c w).2 = trace w ++ rest.

(** The digits of toFixed(2): pad to three digits, put the point before
    the last two. *)
Definition point2 (m : string) : string :=
  let k := String.length m in
  let m' := if (k <=? 2)%nat then NumberFormat.zeros (2 + 1 - k) +:+ m else m in
  let k' := if (k <=? 2)%nat then (2 + 1)%nat else k in
  String.substring 0 (k' - 2) m' +:+ "." +:+ String.substring (k' - 2) 2 m'.

(** ** Sample clients and worlds *)

Definition sample_options : Options :=
  {| opt_clientId := Some "test_client_id";
     opt_clientSecret := Some "test_client_secret";
     opt_mode := Some "sandbox"; opt_debug := Some false;
     opt_timeout := None; opt_retryAttempts := None; opt_webhookId := None;
     opt_maxRequestsPerMinute := None |}.

Definition custom_options : Options :=
  {| opt_clientId := Some "test_client_id";
     opt_clientSecret := Some "test_client_secret";
     opt_mode := Some "sandbox"; opt_debug := Some false;
     opt_timeout := Some 45000; opt_retryAttempts := Some 5;
     opt_webhookId := None; opt_maxRequestsPerMinute := Some (of_Z 800) |}.

Definition tiny_options : Options :=
  {| opt_clientId := Some "test_client_id";
     opt_clientSecret := Some "test_client_secret";
     opt_mode := None; opt_debug := None;
     opt_timeout := None; opt_retryAttempts := None; opt_webhookId := None;
     opt_maxRequestsPerMinute := Some (of_Z 2) |}.



Definition no_env : Env :=
  {| PAYPAL_CLIENT_ID := None; PAYPAL_CLIENT_SECRET := None; PAYPAL_MODE := None;
     PAYPAL_DEBUG := None; PAYPAL_TIMEOUT := None; PAYPAL_RETRY_ATTEMPTS := None;
     PAYPAL_WEBHOOK_ID := None |}.

Definition client_of (options : Options) : EasyPayPal :=
  match constructor options no_env 1000000 with
  | inr c => c
  | inl _ =>
      {| clientId := ""; clientSecret := ""; mode := ""; debug := false;
         baseURL := "";
         config := {| Cfg.timeout := 0; Cfg.retryAttempts := 0;
                      Cfg.webhookId := None |};
         accessToken := None; tokenExpiry := None; requestCounter := 0;
         rateLimitCount := 0; rateLimitWindow := 0;
         maxRequestsPerMinute := of_Z 0 |}
  end.

(** A client that holds a token valid until clock reading 4540000. *)
Definition warm_client : EasyPayPal :=
  set_tokenExpiry (Some 4540000)
    (set_accessToken (Some "A21AAFs9") (client_of sample_options)).

Definition world_of (tokens : list (N * Reply TokenData))
    (replies : list (N * Reply Response)) : World :=
  {| clock := 1000000; token_replies := tokens; api_replies := replies;
     trace := []; snapshots := [] |}.

Definition order_created : Response :=
  {| Axios.status := 201; Axios.data := VObj [("id", VStr "5O190127TN364715T")] |}.

Definition quiet_world : World := world_of [] [].

Definition token_world : World :=
  world_of [(30%N, Resolve {| access_token := "A21BBx07"; expires_in := 32400 |})] [].

Definition flaky_world : World :=
  world_of []
    [(120%N, failure 500 "Request failed with status code 500" VNull);
     (80%N, failure 500 "Request failed with status code 500" VNull);
     (95%N, failure 500 "Request failed with status code 500" VNull);
     (140%N, Resolve order_created)].

Definition missing_world : World :=
  world_of [] [(60%N, failure 404 "Request failed with status code 404" VNull)].

Definition unauthorized_world : World :=
  world_of [(30%N, Resolve {| access_token := "A21BBx07"; expires_in := 32400 |})]
    [(60%N, failure 401 "Request failed with status code 401" VNull);
     (60%N, Resolve order_created)].

Definition overloaded_world : World :=
  world_of [(30%N, Resolve {| access_token := "A21BBx07"; expires_in := 32400 |})]
    [(60%N, failure 500 "Request failed with status code 500" VNull);
     (60%N, Resolve order_created)].

Definition failing_world : World :=
  world_of [(30%N, Resolve {| access_token := "A21BBx07"; expires_in := 32400 |})]
    (replicate 6 (60%N, failure 500 "Request failed with status code 500" VNull)).

Definition verified_world : World :=
  world_of []
    [(75%N, Resolve {| Axios.status := 200;
                       Axios.data := VObj [("verification_status", VStr "SUCCESS")] |})].


(** ** Orders: return URLs, default merging and the order helpers *)

(** The entries of [this.config] that the order helpers read.
    [returnUrl] and [cancelUrl] are [None] when not configured. *)
Record Display := {
  brandName : string;
  baseUrl : string;
  returnUrl : option string;
  cancelUrl : option string;
  defaultCurrency : string;
  defaultLocale : string;
  landingPage : string;
  userAction : string;
  shippingPreference : string
}.

(** [a || 'lit'] for an optional string [a] *)
Definition str_or_lit (a : option string) (lit : string) : string :=
  match a with
  | Some s => if String.eqb s EmptyString then lit else s
  | None => lit
  end.

(** [getReturnUrls(type = 'payment', overrides = {})]; the TypeError is
    that of reading a property of [null]. *)
Definition getReturnUrls (d : Display) (type : option string) (overrides : val)
  : exn + val :=
  let type := default "payment" type in
  let overrides := match overrides with VUndefined => VObj [] | v => v end in
  let baseReturnUrl :=
    str_or_lit (returnUrl d) (baseUrl d +:+ "/" +:+ type +:+ "/success") in
  let baseCancelUrl :=
    str_or_lit (cancelUrl d) (baseUrl d +:+ "/" +:+ type +:+ "/cancel") in
  match get_prop overrides "returnUrl", get_prop overrides "return_url",
        get_prop overrides "cancelUrl", get_prop overrides "cancel_url" with
  | Some returnUrl, Some return_url, Some cancelUrl, Some cancel_url =>
      inr (VObj [ ("return_url",
                   or_else returnUrl (or_else return_url (VStr baseReturnUrl)));
                  ("cancel_url",
                   or_else cancelUrl (or_else cancel_url (VStr baseCancelUrl))) ])
  | _, _, _, _ => inl TypeError
  end.

(** [target[k] = v] on the own properties of an object: an existing key
    keeps its place, a new key goes last.  (JS enumerates integer-like
    keys first; where such keys can occur, the statements read objects
    through [assoc] only, which does not depend on the order.) *)
Fixpoint set_prop (k : string) (v : val) (props : list (string * val))
  : list (string * val) :=
  match props with
  | [] => [(k, v)]
  | (k', v') :: rest =>
      if String.eqb k k' then (k, v) :: rest else (k', v') :: set_prop k v rest
  end.

(** The own enumerable properties that a spread copies: those of an
    object; the indices of an array; nothing for [null], [undefined],
    numbers and booleans.  A string is spread by code units, here by
    bytes, which is the same for ASCII strings. *)
Definition own_props (source : val) : list (string * val) :=
  match source with
  | VObj props => props
  | VArr items => imap (fun i x => (pretty i, x)) items
  | VStr s =>
      imap (fun i ch => (pretty i, VStr (String ch EmptyString)))
        (String.list_ascii_of_string s)
  | _ => []
  end.

(** [{ ...target, ...source }], given the properties copied so far *)
Definition spread (target : list (string * val)) (source : val)
  : list (string * val) :=
  foldl (fun acc kv => set_prop kv.1 kv.2 acc) target (own_props source).

Definition lift {A} (r : exn + A) : M A :=
  match r with
  | inl e => throw e
  | inr a => mret a
  end.

(** The [defaultOrder] literal of [createOrder]. *)
Definition defaultOrder (d : Display) (urls : val) : list (string * val) :=
  [ ("intent", VStr "CAPTURE");
    ("purchase_units",
     VArr [ VObj [ ("amount",
                    VObj [ ("currency_code", VStr (defaultCurrency d));
                           ("value", VStr "100.00") ]) ] ]);
    ("payment_source",
     VObj [ ("paypal",
             VObj [ ("experience_context",
                     VObj [ ("payment_method_preference",
                             VStr "IMMEDIATE_PAYMENT_REQUIRED");
                            ("brand_name", VStr (brandName d));
                            ("locale", VStr (defaultLocale d));
                            ("landing_page", VStr (landingPage d));
                            ("shipping_preference", VStr (shippingPreference d));
                            ("user_action", VStr (userAction d));
                            ("return_url", opt_prop urls "return_url");
                            ("cancel_url", opt_prop urls "cancel_url") ]) ]) ]) ].

(** [createOrder(orderData)] *)
Definition createOrder (d : Display) (orderData : val) : M val :=
  urls ← lift (getReturnUrls d (Some "payment") orderData);
  let order := VObj (spread (spread [] (VObj (defaultOrder d urls))) orderData) in
  makeRequest "POST" "/v2/checkout/orders" order 0.

(** The object [formatCurrency] returns, as a value. *)
Definition amount_val (a : Amount) : val :=
  VObj [ ("currency_code", VStr (currency_code a)); ("value", VStr (value a)) ].

(** The [orderData] literal of [createSimplePayment]. *)
Definition simple_order (amount : Z) (currency description : string)
    (returnUrl cancelUrl : val) : val :=
  VObj
    [ ("intent", VStr "CAPTURE");
      ("purchase_units",
       VArr [ VObj [ ("amount", amount_val (formatCurrency amount (Some currency)));
                     ("description", VStr description) ] ]);
      ("payment_source",
       VObj [ ("paypal",
               VObj [ ("experience_context",
                       VObj [ ("payment_method_preference",
                               VStr "IMMEDIATE_PAYMENT_REQUIRED");
                              ("brand_name", VStr "Your Store");
                              ("locale", VStr "en-US");
                              ("landing_page", VStr "LOGIN");
                              ("shipping_preference", VStr "NO_SHIPPING");
                              ("user_action", VStr "PAY_NOW");
                              ("return_url",
                               or_else returnUrl (VStr "https://example.com/return"));
                              ("cancel_url",
                               or_else cancelUrl (VStr "https://example.com/cancel")) ]) ]) ]) ].

(** [createSimplePayment(amount, currency = 'USD', description = 'Payment',
    returnUrl, cancelUrl)], for an integer [amount] *)
Definition createSimplePayment (d : Display) (amount : Z)
    (currency description : option string) (returnUrl cancelUrl : val) : M val :=
  let currency := default "USD" currency in
  let description := default "Payment" description in
  createOrder d (simple_order amount currency description returnUrl cancelUrl).

(** [authorizePayment(orderData)] *)
Definition authorizePayment (d : Display) (orderData : val) : M val :=
  let authOrderData :=
    VObj (set_prop "intent" (VStr "AUTHORIZE") (spread [] orderData)) in
  createOrder d authOrderData.

(** ** Products and invoices: helpers that merge defaults *)

(** The [defaultProduct] literal of [createProduct]. *)
Definition defaultProduct : list (string * val) :=
  [ ("name", VStr "Basic Product");
    ("description", VStr "Basic product for subscription");
    ("type", VStr "SERVICE");
    ("category", VStr "SOFTWARE") ].

(** [createProduct(productData)] *)
Definition createProduct (productData : val) : M val :=
  let product := VObj (spread (spread [] (VObj defaultProduct)) productData) in
  makeRequest "POST" "/v1/catalogs/products" product 0.

(** The [defaultSendData] literal of [sendInvoice]. *)
Definition defaultSendData : list (string * val) :=
  [ ("send_to_recipient", VBool true); ("send_to_invoicer", VBool false) ].

(** [sendInvoice(invoiceId, sendData = {})], for a string [invoiceId] *)
Definition sendInvoice (invoiceId : string) (sendData : val) : M val :=
  let sendData := match sendData with VUndefined => VObj [] | v => v end in
  let finalSendData :=
    VObj (spread (spread [] (VObj defaultSendData)) sendData) in
  makeRequest "POST" ("/v2/invoicing/invoices/" +:+ invoiceId +:+ "/send")
    finalSendData 0.

(** The [defaultCancelData] literal of [cancelInvoice]. *)
Definition defaultCancelData : list (string * val) :=
  [ ("subject", VStr "Invoice Cancelled");
    ("note", VStr "The invoice has been cancelled.");
    ("send_to_recipient", VBool true);
    ("send_to_invoicer", VBool false) ].

(** [cancelInvoice(invoiceId, cancelData = {})], for a string [invoiceId] *)
Definition cancelInvoice (invoiceId : string) (cancelData : val) : M val :=
  let cancelData := match cancelData with VUndefined => VObj [] | v => v end in
  let finalCancelData :=
    VObj (spread (spread [] (VObj defaultCancelData)) cancelData) in
  makeRequest "POST" ("/v2/invoicing/invoices/" +:+ invoiceId +:+ "/cancel")
    finalCancelData 0.

(** ** Health check *)

(** The object [getApiStatus] returns.  [api_error] is the caught error
    whose message is reported; [api_timestamp] is the clock reading that
    [new Date().toISOString()] renders. *)
Record ApiStatus := {
  api_status : string;
  api_error : option exn;
  api_mode : string;
  api_baseUrl : string;
  api_timestamp : Z
}.

Definition getApiStatus : M ApiStatus :=
  try_catch
    (getAccessToken;;
     c ← this;
     now ← Date_now;
     mret {| api_status := "healthy"; api_error := None; api_mode := mode c;
             api_baseUrl := baseURL c; api_timestamp := now |})
    (fun error =>
       c ← this;
       now ← Date_now;
       mret {| api_status := "unhealthy"; api_error := Some error;
               api_mode := mode c; api_baseUrl := baseURL c;
               api_timestamp := now |}).

(** ** Auxiliary definitions for the further properties *)

(** The fields of the client that no method assigns. *)
Definition same_settings (c c' : EasyPayPal) : Prop :=
  clientId c' = clientId c /\ clientSecret c' = clientSecret c /\
  mode c' = mode c /\ debug c' = debug c /\ baseURL c' = baseURL c /\
  config c' = config c /\ maxRequestsPerMinute c' = maxRequestsPerMinute c.

(** The request id of [makeRequest]: counter, dash, clock reading. *)
Definition request_id (counter : nat) (now : Z) : string :=
  pretty counter +:+ "-" +:+ pretty now.

(** The [config] object that [makeRequest] hands to axios. *)
Definition request_config (method url token requestId : string) (data : val)
  : RequestConfig :=
  {| Axios.method := method;
     Axios.url := url;
     Axios.headers :=
       {[ "Authorization" := "Bearer " +:+ token;
          "Content-Type" := "application/json";
          "PayPal-Request-Id" := requestId;
          "Prefer" := "return=representation" ]};
     Axios.timeout := 30000;
     Axios.data_of := if truthy data then Some data else None |}.

Definition exchange_event (c : EasyPayPal) : Event :=
  TokenExchange (token_url c) "grant_type=client_credentials" (token_headers c).

(** The request ids carried by the dispatches of a trace. *)
Definition request_ids (tr : list Event) : list string :=
  omap (fun cfg => Axios.headers cfg !! "PayPal-Request-Id") (dispatches tr).

(** [cfg] is the config of a dispatch of [makeRequest(method, .., data)]
    to [url]: only the bearer token and the request id vary. *)
Definition call_config (method url : string) (data : val) (cfg : RequestConfig)
  : Prop :=
  exists token requestId, cfg = request_config method url token requestId data.

(** The configs of consecutive dispatches of [makeRequest(method, .., data)]
    by a client whose request counter was [base]: the dispatch of index
    [i] carries the counter [base + i + 1] in its request id; [stamps]
    gives the bearer token and the clock reading of each. *)
Definition stamped (method url : string) (data : val) (base : nat)
    (stamps : list (string * Z)) : list RequestConfig :=
  imap (fun i p => request_config method url p.1 (request_id (S (base + i)) p.2) data)
    stamps.

(** The only token exchange a client makes. *)
Definition exchange_of (c : EasyPayPal) (ev : Event) : Prop :=
  is_exchange ev = true -> ev = exchange_event c.

(** What a call of [makeRequest] with [n] retries left adds to the trace
    and to the request counter. *)
Definition call_trace (method url : string) (data : val) (n retryCount : nat)
    (c c' : EasyPayPal) (w w' : World) : Prop :=
  exists rest stamps,
    trace w' = trace w ++ rest /\
    dispatches rest = stamped method url data (requestCounter c) stamps /\
    requestCounter c' = (requestCounter c + length stamps)%nat /\
    (length stamps <= S n)%nat /\
    (length stamps <= S (length (sleeps rest)))%nat /\
    sleeps rest `prefix_of` (backoff <$> seq retryCount n) /\
    Forall (exchange_of c) rest.

(** The dispatches and the waits of a trace, in the order they happened:
    [None] for a dispatch, [Some ms] for a wait of [ms]; token exchanges
    are left out. *)
Definition paces (tr : list Event) : list (option Z) :=
  omap (fun ev => match ev with
                  | Dispatch _ => Some None
                  | Sleep ms => Some (Some ms)
                  | _ => None
                  end) tr.

(** The longest course of a call that starts at [retryCount] with [n]
    retries left: a dispatch, then for each retry its backoff wait
    followed by a dispatch. *)
Definition schedule (retryCount n : nat) : list (option Z) :=
  None :: flat_map (fun k => [Some (backoff k); None]) (seq retryCount n).

(** The request ids of consecutive dispatches of a client whose request
    counter was [base]. *)
Definition numbered (base : nat) (stamps : list (string * Z)) : list string :=
  imap (fun i p => request_id (S (base + i)) p.2) stamps.

(** What a run adds to the trace and to the request counter. *)
Definition run_trace (c c' : EasyPayPal) (w w' : World) : Prop :=
  exists rest stamps,
    trace w' = trace w ++ rest /\
    request_ids rest = numbered (requestCounter c) stamps /\
    length (dispatches rest) = length stamps /\
    requestCounter c' = (requestCounter c + length stamps)%nat /\
    Forall (exchange_of c) rest.

(** No character of [s] is a dash. *)
Fixpoint no_dash (s : string) : bool :=
  match s with
  | EmptyString => true
  | String ch s => negb (Ascii.eqb ch "-") && no_dash s
  end.

(** [url] is [camel || snake || configured || fallback]. *)
Definition picked (camel snake : val) (configured : option string)
    (fallback : string) (url : val) : Prop :=
  truthy url = true /\
  (truthy camel = true -> url = camel) /\
  (truthy camel = false -> truthy snake = true -> url = snake) /\
  (truthy camel = false -> truthy snake = false ->
   (forall s, configured = Some s -> s <> "" -> url = VStr s) /\
   (configured = None \/ configured = Some "" -> url = VStr fallback)).

(** An order that overrides the purchase units and the return URL. *)
Definition sample_order : val :=
  VObj [ ("purchase_units",
          VArr [ VObj [ ("amount",
                         VObj [ ("currency_code", VStr "EUR");
                                ("value", VStr "12.50") ]) ] ]);
         ("returnUrl", VStr "https://acme.example/thanks") ].

(** The config of the last event of a trace, when that is a dispatch. *)
Definition last_dispatch (tr : list Event) : option RequestConfig :=
  match last tr with
  | Some (Dispatch cfg) => Some cfg
  | _ => None
  end.

(** How the outcome of [makeRequest(.., retryCount)] relates to the events
    [rest] that the call added to the trace. *)
Definition settled_by (retryCount : nat) (o : outcome val) (rest : list Event)
  : Prop :=
  match o with
  | Return _ => is_Some (last_dispatch rest)
  | Throw (ApiError type _ status _ requestId) =>
      exists cfg,
        last_dispatch rest = Some cfg /\
        Axios.headers cfg !! "PayPal-Request-Id" = Some requestId /\
        (length (dispatches rest) = S (3 - retryCount) \/
         (type <> AUTHENTICATION_FAILURE /\ status <> Some 500))
  | Throw _ => last_dispatch rest = None
  end.

(** [body] is [{ ...defaults, ...data }], read property by property. *)
Definition merges (defaults : list (string * val)) (data : val)
    (body : list (string * val)) : Prop :=
  NoDup body.*1 /\
  forall k, assoc k body =
            if decide (k ∈ (own_props data).*1)
            then assoc k (own_props data)
            else assoc k defaults.

(** Send data that keeps the recipient flag and adds a subject. *)
Definition sample_send_data : val :=
  VObj [ ("send_to_invoicer", VBool true); ("subject", VStr "Invoice 7") ].

(** From [(c, w)] to [(c', w')] the clock did not go back, the ceiling
    and the rate-limit invariant were kept, and, if the window of [c]
    has not elapsed at [w'], the window is still that of [c] and every
    request dispatched in between was counted. *)
Definition paced (c c' : EasyPayPal) (w w' : World) : Prop :=
  (clock w <= clock w')%N /\
  (forall ceiling, allowed_at ceiling c -> allowed_at ceiling c') /\
  (Z.of_N (clock w') - rateLimitWindow c <= 60 * 1000 ->
   rateLimitWindow c' = rateLimitWindow c /\
   exists rest,
     trace w' = trace w ++ rest /\
     (rateLimitCount c + length (dispatches rest) <= rateLimitCount c')%nat).

(** Two requests and a throttle check in quick succession. *)
Definition burst_calls : list Call :=
  [ CallMakeRequest "GET" "/v2/checkout/orders/0" VNull 0;
    CallCheckRateLimit;
    CallMakeRequest "GET" "/v2/checkout/orders/1" VNull 0 ].

(** A token endpoint that rejects the credentials. *)
Definition denied_world : World :=
  world_of
    [(45%N, Reject (A := TokenData) {| err_message := "Request failed with status code 401";
              err_response :=
                Some {| Axios.status := 401;
                        Axios.data :=
                          VObj [ ("error", VStr "invalid_client");
                                 ("error_description",
                                  VStr "Client Authentication failed") ] |} |})]
    [].


Definition sample_display : Display :=
  {| brandName := "Acme Books"; baseUrl := "https://acme.example";
     returnUrl := None; cancelUrl := None; defaultCurrency := "EUR";
     defaultLocale := "de-DE"; landingPage := "LOGIN"; userAction := "PAY_NOW";
     shippingPreference := "NO_SHIPPING" |}.

(** ** Validation of amounts *)

Lemma minimum_for_own (currency : string) :
  currency ∉ Object_prototype_names ->
  minimum_for currency = Amount_at_least (Spec.currency_minimum currency).
Proof.
  intros Hown. unfold minimum_for, Spec.currency_minimum, minimums.
  destruct (decide (currency = "USD")) as [->|]; [done|].
  destruct (decide (currency = "EUR")) as [->|]; [done|].
  destruct (decide (currency = "GBP")) as [->|]; [done|].
  destruct (decide (currency = "JPY")) as [->|]; [done|].
  rewrite !lookup_insert_ne by done. rewrite lookup_singleton_ne by done.
  by rewrite bool_decide_eq_false_2.
Qed.

Lemma minimum_for_inherited (currency : string) :
  currency ∈ Object_prototype_names ->
  minimums !! currency = None /\ minimum_for currency = Inherited_member.
Proof.
  intros Hin. unfold Object_prototype_names in Hin.
  repeat (apply elem_of_cons in Hin as [->|Hin]; [by vm_compute|]).
  by apply elem_of_nil in Hin.
Qed.

(** C8. [validateAmount] rejects every amount that is not a number and
    every number that is at most zero.  For a currency whose name is not
    a member of [Object.prototype], a positive number is accepted exactly
    when it is at least the minimum of the currency, which is 100 for a
    currency that has no configured minimum.  For a currency named like a
    member of [Object.prototype] (constructor, toString, ...), which has
    no configured minimum either, every amount is rejected: the lookup
    [minimums[currency]] finds the inherited member, the default of 100
    is not taken, and no number is at least a function. *)
Theorem validateAmount_spec (currency : option string) :
  let code := default "USD" currency in
  (forall amount, is_number amount = false ->
     validateAmount amount currency = false) /\
  (forall q, (q <= 0)%Q ->
     validateAmount (VNum (Finite q)) currency = false) /\
  validateAmount (VNum (Infinity true)) currency = false /\
  validateAmount (VNum NaN) currency = false /\
  (code ∉ Object_prototype_names ->
   (forall q, (0 < q)%Q ->
      validateAmount (VNum (Finite q)) currency = true <->
      (inject_Z (Spec.currency_minimum code) <= q)%Q) /\
   validateAmount (VNum (Infinity false)) currency = true) /\
  (code ∈ Object_prototype_names ->
   minimums !! code = None /\ Spec.currency_minimum code = 100 /\
   forall amount, validateAmount amount currency = false) /\
  (forall code', minimums !! code' = None -> Spec.currency_minimum code' = 100).
Proof.
  cbn zeta. split; [by intros []|].
  split.
  { intros q Hq. unfold validateAmount, of_Z, num_le.
    change (inject_Z 0) with 0%Q. apply Qle_bool_iff in Hq. by rewrite Hq. }
  split; [done|].
  split; [unfold validateAmount; cbn; by destruct (minimum_for _)|].
  split; [|split].
  - intros Hown.
    assert (Hfin : forall q, validateAmount (VNum (Finite q)) currency =
              negb (Qle_bool q 0)
              && Qle_bool (inject_Z (Spec.currency_minimum (default "USD" currency))) q).
    { intros q. unfold validateAmount, of_Z, num_ge, num_le.
      rewrite minimum_for_own by done.
      change (inject_Z 0) with 0%Q. by destruct (Qle_bool q 0). }
    split.
    + intros q Hq. rewrite Hfin. split.
      * intros [_ Hv]%andb_prop. by apply Qle_bool_iff.
      * intros Hm. apply andb_true_intro. split.
        -- apply negb_true_iff, not_true_is_false. intros Hle%Qle_bool_iff.
           exact (Qlt_not_le _ _ Hq Hle).
        -- by apply Qle_bool_iff.
    + unfold validateAmount. by rewrite minimum_for_own.
  - intros Hin. destruct (minimum_for_inherited _ Hin) as [Hnone Hmin].
    split; [done|]. split; [unfold Spec.currency_minimum; by rewrite Hnone|].
    intros amount. unfold validateAmount. rewrite Hmin.
    destruct amount as [| | |n| | |]; try done. by destruct (num_le n (of_Z 0)), n.
  - intros code' Hc. unfold Spec.currency_minimum. by rewrite Hc.
Qed.

Lemma validateAmount_spec_witness :
  validateAmount (VStr "invalid") (Some "USD") = false /\
  validateAmount (VNum (of_Z (-100))) (Some "USD") = false /\
  validateAmount (VNum (of_Z 50)) (Some "USD") = false /\
  validateAmount (VNum (of_Z 100)) (Some "USD") = true /\
  Spec.currency_minimum "CAD" = 100 /\
  Spec.currency_minimum "constructor" = 100 /\
  validateAmount (VNum (of_Z 100)) (Some "constructor") = false.
Proof.
  destruct (validateAmount_spec (Some "USD"))
    as (Hnan & Hneg & _ & _ & Hown & _ & Hmin).
  destruct Hown as [Hpos _]; [apply (bool_decide_unpack _); by vm_compute|].
  destruct (validateAmount_spec (Some "constructor")) as (_ & _ & _ & _ & _ & Hin & _).
  destruct Hin as (_ & Hdefault & Hnever);
    [apply (bool_decide_unpack _); by vm_compute|].
  split; [apply Hnan; reflexivity|].
  split; [apply Hneg; vm_compute; discriminate|].
  split.
  { destruct (validateAmount (VNum (of_Z 50)) (Some "USD")) eqn:Hv; [|reflexivity].
    apply (Hpos (inject_Z 50)) in Hv; [|reflexivity].
    exfalso. vm_compute in Hv. apply Hv. reflexivity. }
  split; [apply (Hpos (inject_Z 100)); [reflexivity | vm_compute; discriminate]|].
  split; [apply Hmin; reflexivity|].
  split; [exact Hdefault | apply Hnever].
Defined.

(** ** Error classification *)

(** What [parseError] returns and changes. *)
Lemma parseError_run (error : AxiosError) (c : EasyPayPal) (w : World) :
  exists pe c' w',
    parseError error c w = (Return pe, c', w') /\
    pe_type pe = Spec.classify (err_response error) /\
    pe_status pe = Axios.status <$> err_response error /\
    pe_details pe = from_option Axios.data VNull (err_response error) /\
    c' = (if bool_decide (Axios.status <$> err_response error = Some 401)
          then set_accessToken None c else c) /\
    quiet w w'.
Proof.
  unfold parseError.
  destruct (err_response error) as [[st dt]|]; simpl.
  2: { eexists _, _, _. repeat split; reflexivity. }
  destruct (st =? 400) eqn:E400; [apply Z.eqb_eq in E400 as ->;
    eexists _, _, _; repeat split; reflexivity|].
  destruct (st =? 401) eqn:E401; [apply Z.eqb_eq in E401 as ->;
    eexists _, _, _; repeat split; reflexivity|].
  destruct (st =? 403) eqn:E403; [apply Z.eqb_eq in E403 as ->;
    eexists _, _, _; repeat split; reflexivity|].
  destruct (st =? 404) eqn:E404; [apply Z.eqb_eq in E404 as ->;
    eexists _, _, _; repeat split; reflexivity|].
  destruct (st =? 422) eqn:E422; [apply Z.eqb_eq in E422 as ->;
    eexists _, _, _; repeat split; reflexivity|].
  destruct (st =? 429) eqn:E429; [apply Z.eqb_eq in E429 as ->;
    eexists _, _, _; repeat split; reflexivity|].
  destruct (st =? 500) eqn:E500; [apply Z.eqb_eq in E500 as ->;
    eexists _, _, _; repeat split; reflexivity|].
  apply Z.eqb_neq in E400, E401, E403, E404, E422, E429, E500.
  eexists _, _, _. split; [reflexivity|]. simpl.
  split.
  { destruct st as [|p|p]; try reflexivity.
    do 9 (destruct p as [p|p|]; try reflexivity); try lia. }
  repeat split; try reflexivity.
  rewrite bool_decide_eq_false_2; [reflexivity|]. intros [= ->]. contradiction.
Qed.

(** C4. [parseError] classifies by the response alone, following the
    table of the specification; the result carries the raw status and
    payload of the response (no status and a null payload when there is
    no response); status 401 clears the cached token, every other case
    leaves the client as it was; the network is not touched. *)
Theorem parseError_spec (error : AxiosError) (c : EasyPayPal) (w : World) :
  exists pe c' w',
    parseError error c w = (Return pe, c', w') /\ quiet w w' /\
    pe_type pe = Spec.classify (err_response error) /\
    match err_response error with
    | None =>
        pe_type pe = NETWORK_ERROR /\ pe_status pe = None /\
        pe_details pe = VNull /\ c' = c
    | Some r =>
        let st := Axios.status r in
        pe_status pe = Some st /\ pe_details pe = Axios.data r /\
        (st = 400 -> pe_type pe = BAD_REQUEST) /\
        (st = 401 -> pe_type pe = AUTHENTICATION_FAILURE /\ accessToken c' = None) /\
        (st = 403 -> pe_type pe = AUTHORIZATION_FAILURE) /\
        (st = 404 -> pe_type pe = NOT_FOUND) /\
        (st = 422 -> pe_type pe = VALIDATION_ERROR) /\
        (st = 429 -> pe_type pe = RATE_LIMIT_EXCEEDED) /\
        (st = 500 -> pe_type pe = INTERNAL_SERVER_ERROR) /\
        (st <> 400 /\ st <> 401 /\ st <> 403 /\ st <> 404 /\ st <> 422 /\
         st <> 429 /\ st <> 500 -> pe_type pe = UNKNOWN_ERROR) /\
        (st <> 401 -> c' = c)
    end.
Proof.
  destruct (parseError_run error c w)
    as (pe & c' & w' & Hrun & Hty & Hst & Hdt & Hc & Hq).
  exists pe, c', w'. do 3 (split; [done|]).
  destruct (err_response error) as [[st dt]|]; cbn in *; [|done].
  rewrite Hty. do 2 (split; [done|]).
  split; [by intros ->|].
  split.
  { intros ->. split; [done|]. by rewrite Hc, bool_decide_eq_true_2. }
  do 5 (split; [by intros ->|]).
  split.
  - intros (H400 & H401 & H403 & H404 & H422 & H429 & H500).
    destruct st as [|p|p]; try done.
    do 9 (destruct p as [p|p|]; try done).
  - intros H401. rewrite Hc, bool_decide_eq_false_2; [done|]. by intros [= ->].
Qed.

(** ** The throttle *)

Lemma bind_run {A B} (m : M A) (f : A -> M B) c w :
  (m ≫= f) c w =
  match m c w with
  | (Return a, c', w') => f a c' w'
  | (Throw e, c', w') => (Throw e, c', w')
  end.
Proof. reflexivity. Qed.

Ltac unfold_monad :=
  unfold mbind, M_bind, mret, M_ret, throw, this, assign, Date_now.

(** [reached] for a whole ceiling, and its monotonicity in the count. *)
Lemma reached_whole (ceiling : number) (n count : nat) :
  whole ceiling n -> reached count ceiling = (n <=? count)%nat.
Proof.
  intros (q & -> & Hq). unfold reached, num_ge, num_le, of_nat, of_Z.
  destruct (n <=? count)%nat eqn:Hle.
  - apply Nat.leb_le in Hle. apply Qle_bool_iff. rewrite Hq, <- Zle_Qle. lia.
  - apply Nat.leb_gt in Hle. apply not_true_is_false.
    intros Hb%Qle_bool_iff. rewrite Hq, <- Zle_Qle in Hb. lia.
Qed.


Lemma reached_mono (ceiling : number) (a b : nat) :
  (a <= b)%nat -> reached a ceiling = true -> reached b ceiling = true.
Proof.
  intros Hab. unfold reached, num_ge, num_le, of_nat, of_Z.
  destruct ceiling as [|q|[]]; try done.
  intros Ha%Qle_bool_iff. apply Qle_bool_iff.
  eapply Qle_trans; [exact Ha|]. rewrite <- Zle_Qle. lia.
Qed.

Lemma reached_below (ceiling : number) (a b : nat) :
  (a <= b)%nat -> reached b ceiling = false -> reached a ceiling = false.
Proof.
  intros Hab Hb. destruct (reached a ceiling) eqn:Ha; [|done].
  by rewrite (reached_mono ceiling a b Hab Ha) in Hb.
Qed.

(** What [checkRateLimit] computes, in closed form. *)
Lemma checkRateLimit_run (c : EasyPayPal) (w : World) :
  let now := Z.of_N (clock w) in
  let elapsed := 60 * 1000 <? now - rateLimitWindow c in
  let c0 := if elapsed then set_rateLimitCount 0 (set_rateLimitWindow now c) else c in
  let w0 := if elapsed
            then with_snapshot c0 (with_snapshot (set_rateLimitWindow now c) w)
            else w in
  checkRateLimit c w =
  if reached (rateLimitCount c0) (maxRequestsPerMinute c0)
  then (Throw rate_limit_error, c0, w0)
  else (Return tt, set_rateLimitCount (S (rateLimitCount c0)) c0,
        with_snapshot (set_rateLimitCount (S (rateLimitCount c0)) c0) w0).
Proof.
  unfold checkRateLimit. unfold_monad.
  destruct (60 * 1000 <? Z.of_N (clock w) - rateLimitWindow c); cbn;
    by destruct (reached _ _).
Qed.


Lemma makeRequest_rec_throttled budget method endpoint data retryCount c w e c' w' :
  checkRateLimit c w = (Throw e, c', w') ->
  makeRequest_rec budget method endpoint data retryCount c w = (Throw e, c', w').
Proof.
  intros Hc. destruct budget; cbn [makeRequest_rec]; unfold makeRequest_body;
    by rewrite bind_run, Hc.
Qed.


(** ** The rate counter never exceeds the ceiling *)

Section Invariant.




















End Invariant.





(** ** Token caching *)

(** What [getAccessToken] computes, in closed form. *)
Lemma getAccessToken_run (c : EasyPayPal) (w : World) :
  getAccessToken c w =
  match fresh_token c (Z.of_N (clock w)) with
  | Some token => (Return token, c, w)
  | None =>
      let w1 := after_exchange c w in
      match (next_token_reply w).2 with
      | Resolve response =>
          let c1 := set_accessToken (Some (access_token response)) c in
          let c2 := set_tokenExpiry
                      (Some (Z.of_N (clock w1) + expires_in response * 1000 - 60000))
                      c1 in
          (Return (access_token response), c2,
           with_snapshot c2 (with_snapshot c1 w1))
      | Reject error => (Throw (TokenError (token_error_detail error)), c, w1)
      end
  end.
Proof.
  unfold getAccessToken. unfold_monad.
  destruct (fresh_token c _); [done|].
  unfold axios_post, after_exchange, next_token_reply.
  destruct (default _ _) as [latency [response|error]]; reflexivity.
Qed.

Lemma fresh_token_Some c now token expiry :
  accessToken c = Some token -> token <> "" ->
  tokenExpiry c = Some expiry -> 0 <= now < expiry ->
  fresh_token c now = Some token.
Proof.
  intros Ht Hne He Hnow. unfold fresh_token. rewrite Ht, He.
  apply String.eqb_neq in Hne. rewrite Hne.
  replace (expiry =? 0) with false by (symmetry; apply Z.eqb_neq; lia).
  replace (now <? expiry) with true by (symmetry; apply Z.ltb_lt; lia).
  done.
Qed.

Lemma fresh_token_None c now :
  accessToken c = None \/ tokenExpiry c = None \/
  (exists expiry, tokenExpiry c = Some expiry /\ expiry <= now) ->
  fresh_token c now = None.
Proof.
  unfold fresh_token. intros [->|[->|(expiry & -> & Hle)]];
    [done | by destruct (accessToken c) |].
  destruct (accessToken c); [|done].
  replace (now <? expiry) with false by (symmetry; apply Z.ltb_ge; lia).
  by rewrite andb_false_r.
Qed.

(** C2. With a (non-empty) token cached and the clock strictly before the
    stored expiry, [getAccessToken] returns the cached token and leaves
    client and world as they were: no exchange.  With no token cached, or
    at or after the expiry, it performs exactly one client-credentials
    exchange, with Basic authentication built from the credential pair;
    when the exchange succeeds it stores the returned token and the
    expiry (arrival time + expires_in seconds - one minute) and returns
    the token.  A later call before that expiry returns the stored token
    without a second exchange. *)
Theorem getAccessToken_spec :
  (forall c w token expiry,
     accessToken c = Some token -> token <> "" ->
     tokenExpiry c = Some expiry -> Z.of_N (clock w) < expiry ->
     getAccessToken c w = (Return token, c, w)) /\
  (forall c w,
     accessToken c = None \/ tokenExpiry c = None \/
     (exists expiry, tokenExpiry c = Some expiry /\ expiry <= Z.of_N (clock w)) ->
     exists r c' w',
       getAccessToken c w = (r, c', w') /\
       trace w' = trace w ++
         [TokenExchange (token_url c) "grant_type=client_credentials"
            (token_headers c)] /\
       token_headers c !! "Authorization" =
         Some ("Basic " +:+ Base64.encode (clientId c +:+ ":" +:+ clientSecret c)) /\
       forall latency response rest,
         token_replies w = (latency, Resolve response) :: rest ->
         r = Return (access_token response) /\
         accessToken c' = Some (access_token response) /\
         tokenExpiry c' =
           Some (Z.of_N (clock w + latency) + expires_in response * 1000 - 60000) /\
         clock w' = (clock w + latency)%N /\
         forall gap,
           access_token response <> "" ->
           Z.of_N (clock w' + gap) <
             Z.of_N (clock w + latency) + expires_in response * 1000 - 60000 ->
           getAccessToken c' (wait gap w') =
             (Return (access_token response), c', wait gap w')).
Proof.
  split.
  - intros c w token expiry Ht Hne He Hnow. rewrite getAccessToken_run.
    rewrite (fresh_token_Some c _ token expiry); try done. lia.
  - intros c w Hstale. rewrite getAccessToken_run, fresh_token_None by done.
    cbn zeta. destruct (next_token_reply w) as [lat reply] eqn:Hnext.
    destruct reply as [response|error]; cbn [snd].
    + eexists _, _, _. split; [reflexivity|]. split; [reflexivity|].
      split; [reflexivity|].
      intros latency response' rest Hreplies.
      unfold next_token_reply in Hnext. rewrite Hreplies in Hnext.
      injection Hnext as <- <-.
      unfold after_exchange, next_token_reply. rewrite Hreplies.
      cbn. repeat split; try done.
      intros gap Hne Hgap. rewrite getAccessToken_run.
      erewrite fresh_token_Some; [done | reflexivity | done | reflexivity |].
      cbn. lia.
    + eexists _, _, _. split; [reflexivity|]. split; [reflexivity|].
      split; [reflexivity|].
      intros latency response' rest Hreplies.
      unfold next_token_reply in Hnext. by rewrite Hreplies in Hnext.
Qed.

(** ** Webhook verification *)

Lemma strict_eq_str_true v lit : strict_eq_str v lit = true <-> v = VStr lit.
Proof.
  destruct v; cbn; try (split; [discriminate | by intros [=]]).
  rewrite String.eqb_eq. split; [by intros -> | by intros [= ->]].
Qed.

(** [verifyWebhook] once the headers are read: the TypeError of reading
    a header of [null] or [undefined], and otherwise the [try] block
    around the verification request. *)
Lemma verifyWebhook_run (headers body webhookId : val) (c : EasyPayPal) (w : World) :
  verifyWebhook headers body webhookId c w =
  match headers with
  | VUndefined | VNull => (Throw TypeError, c, w)
  | _ =>
      try_catch
        (result ← makeRequest "POST" verify_path
                     (verificationData headers body webhookId) 0;
         match get_prop result "verification_status" with
         | Some status => mret (strict_eq_str status "SUCCESS")
         | None => throw TypeError
         end)
        (fun error => mret false) c w
  end.
Proof. by destruct headers. Qed.

(** C6 (amended). [verifyWebhook] throws a TypeError, before the throttle
    is consulted and before any network call, when [headers] is [null] or
    [undefined]: the headers are read outside the [try] block.  For every
    other [headers] it never throws.  It then returns [true] exactly
    when the verification request made through [makeRequest] returns a
    payload whose [verification_status] is the string SUCCESS; whatever
    that request throws (throttle, token, network or HTTP error) and
    every other payload give [false].  Client and world are left as the
    request left them. *)
Theorem verifyWebhook_spec (headers body webhookId : val)
    (c : EasyPayPal) (w : World) :
  match headers with
  | VUndefined | VNull =>
      verifyWebhook headers body webhookId c w = (Throw TypeError, c, w)
  | _ =>
      let request :=
        makeRequest "POST" verify_path
          (verificationData headers body webhookId) 0 c w in
      exists b : bool,
        verifyWebhook headers body webhookId c w =
          (Return b, request.1.2, request.2) /\
        (b = true <->
         exists result, request.1.1 = Return result /\
           get_prop result "verification_status" = Some (VStr "SUCCESS")) /\
        (forall e, request.1.1 = Throw e -> b = false)
  end.
Proof.
  assert (forall data,
    let request := makeRequest "POST" verify_path data 0 c w in
    exists b : bool,
      try_catch
        (result ← makeRequest "POST" verify_path data 0;
         match get_prop result "verification_status" with
         | Some status => mret (strict_eq_str status "SUCCESS")
         | None => throw TypeError
         end)
        (fun error => mret false) c w = (Return b, request.1.2, request.2) /\
      (b = true <->
       exists result, request.1.1 = Return result /\
         get_prop result "verification_status" = Some (VStr "SUCCESS")) /\
      (forall e, request.1.1 = Throw e -> b = false)) as Htry.
  { intros data. cbn zeta. unfold try_catch. rewrite bind_run.
    destruct (makeRequest _ _ _ _ c w) as [[[result|e] c'] w']; cbn [fst snd].
    - destruct (get_prop result "verification_status") as [status|] eqn:Hp.
      + exists (strict_eq_str status "SUCCESS"). split; [done|]. split; [|done].
        rewrite strict_eq_str_true. split.
        * intros ->. by exists result.
        * intros (result' & [= <-] & Hs). congruence.
      + exists false. split; [done|]. split; [|done]. split; [done|].
        intros (result' & [= <-] & Hs). congruence.
    - exists false. split; [done|]. split; [|done]. split; [done|].
      by intros (result' & [=] & _). }
  rewrite verifyWebhook_run. destruct headers; try done; apply Htry.
Qed.

(** C6 as stated fails: with [null] headers [verifyWebhook] raises, and
    makes no verification call at all. *)
Lemma verifyWebhook_null_headers_counterexample :
  verifyWebhook VNull (VObj [("event_type", VStr "PAYMENT.CAPTURE.COMPLETED")])
    (VStr "WH-1") warm_client verified_world =
  (Throw TypeError, warm_client, verified_world).
Proof. reflexivity. Qed.

(** ** Dispatch and retry *)

(** [makeRequest_body] in terms of one [attempt]. *)
Lemma makeRequest_body_run self method endpoint data retryCount c w :
  makeRequest_body self method endpoint data retryCount c w =
  match attempt method endpoint data c w with
  | (Return (requestId, Resolve response), c1, w1) =>
      (Return (Axios.data response), c1, w1)
  | (Return (requestId, Reject error), c1, w1) =>
      match parseError error c1 w1 with
      | (Return pe, c2, w2) =>
          if (retryCount <? 3)%nat
             && (bool_decide (pe_type pe = AUTHENTICATION_FAILURE)
                 || bool_decide (pe_status pe = Some 500))
          then self method endpoint data (retryCount + 1)%nat c2
                 (with_trace (Sleep (2 ^ Z.of_nat retryCount * 1000))
                    (Z.to_N (2 ^ Z.of_nat retryCount * 1000)) w2)
          else (Throw (ApiError (pe_type pe) (pe_message pe) (pe_status pe)
                         (pe_details pe) requestId), c2, w2)
      | (Throw e, c2, w2) => (Throw e, c2, w2)
      end
  | (Throw e, c1, w1) => (Throw e, c1, w1)
  end.
Proof.
  unfold makeRequest_body, attempt. rewrite !bind_run.
  destruct (checkRateLimit c w) as [[[[]|e0] c0] w0]; [|done].
  rewrite !bind_run.
  destruct (getAccessToken c0 w0) as [[[token|e1] c1] w1]; [|done].
  unfold_monad. unfold axios. cbn.
  destruct (default _ _) as [latency [response|error]]; [done|].
  destruct (parseError error _ _) as [[[pe|e2] c2] w2]; [|done].
  by destruct (_ && _).
Qed.

Lemma makeRequest_unfold method endpoint data retryCount c w :
  makeRequest method endpoint data retryCount c w =
  makeRequest_body makeRequest method endpoint data retryCount c w.
Proof.
  unfold makeRequest at 1.
  destruct (3 - retryCount)%nat as [|budget] eqn:Hb; cbn [makeRequest_rec];
    rewrite !makeRequest_body_run;
    destruct (attempt _ _ _ c w) as [[[[rid [resp|err]]|e] c1] w1]; try done;
    destruct (parseError err c1 w1) as [[[pe|e] c2] w2]; try done.
  - replace (retryCount <? 3)%nat with false; [done|].
    symmetry. apply Nat.ltb_ge. lia.
  - destruct (_ && _); [|done]. unfold makeRequest.
    by replace (3 - (retryCount + 1))%nat with budget by lia.
Qed.

Lemma classify_auth response :
  bool_decide (Spec.classify response = AUTHENTICATION_FAILURE) =
  match response with Some r => Axios.status r =? 401 | None => false end.
Proof.
  destruct response as [[st dt]|]; [|done]. cbn.
  destruct (st =? 401) eqn:E; [by apply Z.eqb_eq in E as ->|].
  apply Z.eqb_neq in E. apply bool_decide_eq_false. intros H.
  destruct st as [|p|p]; try done.
  do 9 (destruct p as [p|p|]; try done).
Qed.

Lemma status_500 (response : option Response) :
  bool_decide (Axios.status <$> response = Some 500) =
  match response with Some r => Axios.status r =? 500 | None => false end.
Proof.
  destruct response as [[st dt]|]; [|done]. cbn.
  destruct (st =? 500) eqn:E; [by apply Z.eqb_eq in E as ->|].
  apply Z.eqb_neq in E. apply bool_decide_eq_false. by intros [= ->].
Qed.

(** The retry law: what [makeRequest] does once an attempt was rejected. *)
Lemma makeRequest_rejected method endpoint data retryCount c w requestId error c1 w1 :
  attempt method endpoint data c w = (Return (requestId, Reject error), c1, w1) ->
  exists pe c2 w2,
    parseError error c1 w1 = (Return pe, c2, w2) /\
    pe_type pe = Spec.classify (err_response error) /\
    pe_status pe = Axios.status <$> err_response error /\
    pe_details pe = from_option Axios.data VNull (err_response error) /\
    c2 = (if bool_decide (Axios.status <$> err_response error = Some 401)
          then set_accessToken None c1 else c1) /\
    quiet w1 w2 /\
    makeRequest method endpoint data retryCount c w =
    if retriable retryCount (err_response error)
    then makeRequest method endpoint data (S retryCount) c2
           (after_backoff retryCount w2)
    else (Throw (ApiError (pe_type pe) (pe_message pe) (pe_status pe)
                   (pe_details pe) requestId), c2, w2).
Proof.
  intros Ha.
  destruct (parseError_run error c1 w1) as (pe & c2 & w2 & Hpe & Hty & Hst & Hdt & Hc & Hq).
  exists pe, c2, w2. repeat (split; [done|]).
  rewrite makeRequest_unfold, makeRequest_body_run, Ha, Hpe.
  unfold retriable. rewrite Hty, Hst, classify_auth, status_500.
  replace (retryCount + 1)%nat with (S retryCount) by lia.
  by destruct (err_response error).
Qed.

Lemma makeRequest_resolved method endpoint data retryCount c w requestId response c1 w1 :
  attempt method endpoint data c w = (Return (requestId, Resolve response), c1, w1) ->
  makeRequest method endpoint data retryCount c w =
  (Return (Axios.data response), c1, w1).
Proof. intros Ha. by rewrite makeRequest_unfold, makeRequest_body_run, Ha. Qed.

(** One attempt by a client whose rate budget is not used up and whose
    cached token is fresh: no exchange, one dispatch. *)
Lemma attempt_fresh method endpoint data c w token expiry :
  accessToken c = Some token -> token <> "" ->
  tokenExpiry c = Some expiry -> Z.of_N (clock w) < expiry ->
  reached (rateLimitCount c) (maxRequestsPerMinute c) = false ->
  exists requestId cfg c1 w1,
    attempt method endpoint data c w =
      (Return (requestId, (next_api_reply w).2), c1, w1) /\
    carries c c1 /\
    request_for method (baseURL c +:+ endpoint) token cfg /\
    clock w1 = (clock w + (next_api_reply w).1)%N /\
    api_replies w1 = tail (api_replies w) /\
    token_replies w1 = token_replies w /\
    trace w1 = trace w ++ [Dispatch cfg].
Proof.
  intros Ht Hne He Hnow Hroom.
  unfold attempt. rewrite bind_run, checkRateLimit_run. cbn zeta.
  set (c0 := if 60 * 1000 <? _ then _ else c).
  set (w0 := if 60 * 1000 <? _ then _ else w).
  assert (Hc0 : accessToken c0 = Some token /\ tokenExpiry c0 = Some expiry /\
                maxRequestsPerMinute c0 = maxRequestsPerMinute c /\
                baseURL c0 = baseURL c /\
                (rateLimitCount c0 <= rateLimitCount c)%nat).
  { subst c0. destruct (60 * 1000 <? _); cbn; repeat split; try done; lia. }
  assert (Hw0 : clock w0 = clock w /\ api_replies w0 = api_replies w /\
                token_replies w0 = token_replies w /\ trace w0 = trace w).
  { subst w0. by destruct (60 * 1000 <? _). }
  clearbody c0 w0. destruct Hc0 as (Ht0 & He0 & Hm0 & Hb0 & Hr0).
  destruct Hw0 as (Hk0 & Ha0 & Htk0 & Htr0).
  replace (reached (rateLimitCount c0) (maxRequestsPerMinute c0)) with false
    by (symmetry; rewrite Hm0; eapply reached_below; [exact Hr0 | exact Hroom]).
  rewrite bind_run, getAccessToken_run.
  erewrite fresh_token_Some; [| by cbn | done | by cbn | cbn; lia].
  unfold_monad. unfold axios, next_api_reply. cbn. rewrite Ha0.
  destruct (default _ _) as [latency reply]. cbn.
  eexists _, _, _, _. split; [reflexivity|].
  unfold carries, request_for. cbn.
  rewrite Ht0, He0, Hm0, Hb0, Hk0, Ha0, Htk0, Htr0, Ht, He.
  repeat split; try done. lia.
Qed.

Lemma retry_after_500 method endpoint data retryCount c w token expiry
    latency error r rest :
  accessToken c = Some token -> token <> "" ->
  tokenExpiry c = Some expiry -> Z.of_N (clock w) < expiry ->
  reached (rateLimitCount c) (maxRequestsPerMinute c) = false ->
  api_replies w = (latency, Reject error) :: rest ->
  err_response error = Some r -> Axios.status r = 500 ->
  (retryCount < 3)%nat ->
  exists cfg c2 w2,
    makeRequest method endpoint data retryCount c w =
      makeRequest method endpoint data (S retryCount) c2 w2 /\
    carries c c2 /\
    request_for method (baseURL c +:+ endpoint) token cfg /\
    clock w2 = (clock w + latency + Z.to_N (backoff retryCount))%N /\
    api_replies w2 = rest /\
    token_replies w2 = token_replies w /\
    trace w2 = trace w ++ [Dispatch cfg; Sleep (backoff retryCount)].
Proof.
  intros Ht Hne He Hnow Hroom Hreplies Hresp Hst Hrc.
  destruct (attempt_fresh method endpoint data c w token expiry)
    as (rid & cfg & c1 & w1 & Ha & Hcar & Hcfg & Hk & Hapi & Htok & Htr); try done.
  unfold next_api_reply in Ha, Hk. rewrite Hreplies in Ha, Hk, Hapi. cbn in Ha, Hk, Hapi.
  destruct (makeRequest_rejected method endpoint data retryCount c w rid error c1 w1 Ha)
    as (pe & c2 & w2 & _ & _ & _ & _ & Hc2 & (Hqk & Hqt & Hqa & Hqtr) & Hmk).
  unfold retriable in Hmk. rewrite Hresp in Hc2, Hmk.
  cbn [fmap option_fmap option_map] in Hc2. rewrite Hst in Hc2, Hmk.
  rewrite bool_decide_eq_false_2 in Hc2 by done. subst c2.
  replace (retryCount <? 3)%nat with true in Hmk
    by (symmetry; by apply Nat.ltb_lt).
  cbn [andb orb Z.eqb Pos.eqb] in Hmk. exists cfg, c1, (after_backoff retryCount w2).
  split; [done|]. split; [done|]. split; [done|].
  cbn. rewrite Hqk, Hqt, Hqa, Hqtr, Hk, Hapi, Htok, Htr.
  repeat split; try done. by rewrite <- app_assoc.
Qed.

Lemma dispatch_resolves method endpoint data retryCount c w token expiry
    latency response rest :
  accessToken c = Some token -> token <> "" ->
  tokenExpiry c = Some expiry -> Z.of_N (clock w) < expiry ->
  reached (rateLimitCount c) (maxRequestsPerMinute c) = false ->
  api_replies w = (latency, Resolve response) :: rest ->
  exists cfg c1 w1,
    makeRequest method endpoint data retryCount c w =
      (Return (Axios.data response), c1, w1) /\
    carries c c1 /\
    request_for method (baseURL c +:+ endpoint) token cfg /\
    trace w1 = trace w ++ [Dispatch cfg].
Proof.
  intros Ht Hne He Hnow Hroom Hreplies.
  destruct (attempt_fresh method endpoint data c w token expiry)
    as (rid & cfg & c1 & w1 & Ha & Hcar & Hcfg & Hk & Hapi & Htok & Htr); try done.
  unfold next_api_reply in Ha. rewrite Hreplies in Ha. cbn in Ha.
  exists cfg, c1, w1. split; [|done].
  by apply (makeRequest_resolved _ _ _ _ _ _ rid).
Qed.

(** Three 500s, then a success: four dispatches, waits of 1s, 2s and 4s. *)
Lemma three_retries method endpoint data c w token expiry
    l1 l2 l3 l4 m1 m2 m3 d1 d2 d3 response rest :
  accessToken c = Some token -> token <> "" ->
  tokenExpiry c = Some expiry ->
  Z.of_N (clock w + l1 + l2 + l3) + 7000 < expiry ->
  reached (rateLimitCount c + 3) (maxRequestsPerMinute c) = false ->
  api_replies w =
    (l1, failure 500 m1 d1) :: (l2, failure 500 m2 d2) ::
    (l3, failure 500 m3 d3) :: (l4, Resolve response) :: rest ->
  exists cfg1 cfg2 cfg3 cfg4 c' w',
    makeRequest method endpoint data 0 c w =
      (Return (Axios.data response), c', w') /\
    trace w' = trace w ++
      [Dispatch cfg1; Sleep 1000; Dispatch cfg2; Sleep 2000;
       Dispatch cfg3; Sleep 4000; Dispatch cfg4] /\
    Forall (request_for method (baseURL c +:+ endpoint) token)
      [cfg1; cfg2; cfg3; cfg4].
Proof.
  intros Ht Hne He Hnow Hroom Hreplies.
  assert (reached (rateLimitCount c) (maxRequestsPerMinute c) = false) as Hroom0
    by (eapply reached_below; [|exact Hroom]; lia).
  destruct (retry_after_500 method endpoint data 0 c w token expiry
              l1 _ _ _ Ht Hne He ltac:(lia) Hroom0 Hreplies eq_refl eq_refl
              ltac:(lia))
    as (cfg1 & c1 & w1 & -> & (Ht1 & He1 & Hm1 & Hb1 & Hr1) & Hcfg1
        & Hk1 & Ha1 & _ & Htr1).
  rewrite Ht in Ht1. rewrite He in He1. change (Z.to_N (backoff 0)) with 1000%N in Hk1.
  assert (reached (rateLimitCount c1) (maxRequestsPerMinute c1) = false) as Hroom1
    by (rewrite Hm1; eapply reached_below; [|exact Hroom]; lia).
  destruct (retry_after_500 method endpoint data 1 c1 w1 token expiry
              l2 _ _ _ Ht1 Hne He1 ltac:(lia) Hroom1 Ha1 eq_refl eq_refl
              ltac:(lia))
    as (cfg2 & c2 & w2 & -> & (Ht2 & He2 & Hm2 & Hb2 & Hr2) & Hcfg2
        & Hk2 & Ha2 & _ & Htr2).
  rewrite Ht1 in Ht2. rewrite He1 in He2. change (Z.to_N (backoff 1)) with 2000%N in Hk2.
  assert (reached (rateLimitCount c2) (maxRequestsPerMinute c2) = false) as Hroom2
    by (rewrite Hm2, Hm1; eapply reached_below; [|exact Hroom]; lia).
  destruct (retry_after_500 method endpoint data 2 c2 w2 token expiry
              l3 _ _ _ Ht2 Hne He2 ltac:(lia) Hroom2 Ha2 eq_refl eq_refl
              ltac:(lia))
    as (cfg3 & c3 & w3 & -> & (Ht3 & He3 & Hm3 & Hb3 & Hr3) & Hcfg3
        & Hk3 & Ha3 & _ & Htr3).
  rewrite Ht2 in Ht3. rewrite He2 in He3. change (Z.to_N (backoff 2)) with 4000%N in Hk3.
  assert (reached (rateLimitCount c3) (maxRequestsPerMinute c3) = false) as Hroom3
    by (rewrite Hm3, Hm2, Hm1; eapply reached_below; [|exact Hroom]; lia).
  destruct (dispatch_resolves method endpoint data 3 c3 w3 token expiry
              l4 response rest Ht3 Hne He3 ltac:(lia) Hroom3 Ha3)
    as (cfg4 & c4 & w4 & -> & _ & Hcfg4 & Htr4).
  exists cfg1, cfg2, cfg3, cfg4, c4, w4. split; [done|].
  rewrite Hb1 in Hcfg2. rewrite Hb2, Hb1 in Hcfg3. rewrite Hb3, Hb2, Hb1 in Hcfg4.
  split; [|by repeat (apply Forall_cons; split); try apply Forall_nil].
  rewrite Htr4, Htr3, Htr2, Htr1. by rewrite <- !app_assoc.
Qed.

(** C1 (amended). Once an attempt has settled: a resolved reply is
    returned; a rejected one is retried (after the backoff wait, with the
    counter incremented) exactly when its status is 401 or 500 and the
    retry counter is below 3, and otherwise raises at once the typed
    error carrying the classified kind, the status, the payload and the
    request id.  Three 500s followed by a success make four dispatches
    with waits of 1s, 2s and 4s and return the success payload; a 404 is
    raised at once. *)
Theorem makeRequest_retry_spec :
  (forall method endpoint data retryCount c w requestId reply c1 w1,
     attempt method endpoint data c w = (Return (requestId, reply), c1, w1) ->
     match reply with
     | Resolve response =>
         makeRequest method endpoint data retryCount c w =
         (Return (Axios.data response), c1, w1)
     | Reject error =>
         exists message c2 w2,
           quiet w1 w2 /\
           makeRequest method endpoint data retryCount c w =
           if retriable retryCount (err_response error)
           then makeRequest method endpoint data (S retryCount) c2
                  (after_backoff retryCount w2)
           else (Throw (ApiError (Spec.classify (err_response error)) message
                          (Axios.status <$> err_response error)
                          (from_option Axios.data VNull (err_response error))
                          requestId), c2, w2)
     end) /\
  (forall method endpoint data c w token expiry
          l1 l2 l3 l4 m1 m2 m3 d1 d2 d3 response rest,
     accessToken c = Some token -> token <> "" ->
     tokenExpiry c = Some expiry ->
     Z.of_N (clock w + l1 + l2 + l3) + 7000 < expiry ->
     reached (rateLimitCount c + 3) (maxRequestsPerMinute c) = false ->
     api_replies w =
       (l1, failure 500 m1 d1) :: (l2, failure 500 m2 d2) ::
       (l3, failure 500 m3 d3) :: (l4, Resolve response) :: rest ->
     exists cfg1 cfg2 cfg3 cfg4 c' w',
       makeRequest method endpoint data 0 c w =
         (Return (Axios.data response), c', w') /\
       trace w' = trace w ++
         [Dispatch cfg1; Sleep 1000; Dispatch cfg2; Sleep 2000;
          Dispatch cfg3; Sleep 4000; Dispatch cfg4] /\
       Forall (request_for method (baseURL c +:+ endpoint) token)
         [cfg1; cfg2; cfg3; cfg4]) /\
  (forall method endpoint data retryCount c w requestId message payload c1 w1,
     attempt method endpoint data c w =
       (Return (requestId, failure 404 message payload), c1, w1) ->
     exists message' c2 w2,
       makeRequest method endpoint data retryCount c w =
         (Throw (ApiError NOT_FOUND message' (Some 404) payload requestId), c2, w2) /\
       quiet w1 w2).
Proof.
  split; [|split].
  - intros method endpoint data retryCount c w requestId [response|error] c1 w1 Ha.
    + by apply (makeRequest_resolved _ _ _ _ _ _ requestId).
    + destruct (makeRequest_rejected method endpoint data retryCount c w
                  requestId error c1 w1 Ha)
        as (pe & c2 & w2 & _ & Hty & Hst & Hdt & _ & Hq & Hmk).
      exists (pe_message pe), c2, w2. split; [done|].
      by rewrite Hmk, Hty, Hst, Hdt.
  - apply three_retries.
  - intros method endpoint data retryCount c w requestId message payload c1 w1 Ha.
    destruct (makeRequest_rejected method endpoint data retryCount c w
                requestId _ c1 w1 Ha)
      as (pe & c2 & w2 & _ & Hty & Hst & Hdt & _ & Hq & Hmk).
    exists (pe_message pe), c2, w2. split; [|done].
    rewrite Hmk, Hty, Hst, Hdt. unfold retriable, failure. cbn.
    by rewrite andb_false_r.
Qed.

Lemma makeRequest_retry_spec_witness :
  (exists cfg1 cfg2 cfg3 cfg4 c' w',
     makeRequest "POST" "/v2/checkout/orders" VNull 0 warm_client flaky_world =
       (Return (Axios.data order_created), c', w') /\
     trace w' = trace flaky_world ++
       [Dispatch cfg1; Sleep 1000; Dispatch cfg2; Sleep 2000;
        Dispatch cfg3; Sleep 4000; Dispatch cfg4] /\
     Forall (request_for "POST"
               (baseURL warm_client +:+ "/v2/checkout/orders") "A21AAFs9")
       [cfg1; cfg2; cfg3; cfg4]) /\
  (exists message' c2 w2,
     makeRequest "GET" "/v2/checkout/orders/0" VNull 0 warm_client missing_world =
       (Throw (ApiError NOT_FOUND message' (Some 404) VNull "1-1000000"), c2, w2) /\
     quiet
       (attempt "GET" "/v2/checkout/orders/0" VNull warm_client missing_world).2
       w2).
Proof.
  destruct makeRequest_retry_spec as (_ & Hthree & Hnotfound).
  split.
  - apply (Hthree "POST" "/v2/checkout/orders" VNull warm_client flaky_world
             "A21AAFs9" 4540000
             120%N 80%N 95%N 140%N
             "Request failed with status code 500"
             "Request failed with status code 500"
             "Request failed with status code 500"
             VNull VNull VNull order_created []).
    + reflexivity.
    + discriminate.
    + reflexivity.
    + vm_compute. reflexivity.
    + vm_compute. lia.
    + reflexivity.
  - apply (Hnotfound "GET" "/v2/checkout/orders/0" VNull 0%nat warm_client
             missing_world "1-1000000" "Request failed with status code 404" VNull
             (attempt "GET" "/v2/checkout/orders/0" VNull warm_client missing_world).1.2
             (attempt "GET" "/v2/checkout/orders/0" VNull warm_client missing_world).2).
    vm_compute. reflexivity.
Defined.

(** C1 as stated fails: a 503 is a server-side (5xx) failure and the retry
    counter is 0, yet the call is not retried: one dispatch, no wait, the
    next scripted reply left unconsumed, and UNKNOWN_ERROR raised. *)
Lemma makeRequest_5xx_counterexample :
  let w := world_of []
             [(60%N, failure 503 "Request failed with status code 503" VNull);
              (60%N, Resolve order_created)] in
  let r := makeRequest "GET" "/v2/checkout/orders/0" VNull 0 warm_client w in
  Spec.retries 0 (Some {| Axios.status := 503; Axios.data := VNull |}) = true /\
  r.1.1 = Throw (ApiError UNKNOWN_ERROR (VStr "HTTP 503 error") (Some 503) VNull
                   "1-1000000") /\
  length (dispatches (trace r.2)) = 1%nat /\
  sleeps (trace r.2) = [] /\
  api_replies r.2 = [(60%N, Resolve order_created)].
Proof. vm_compute. repeat split. Qed.

(** ** Token invalidation before a retry *)

Lemma grows_same {A} (m : M A) :
  (forall c w, trace (m c w).2 = trace w) -> grows m.
Proof. intros H c w. exists []. by rewrite app_nil_r. Qed.

Lemma grows_bind {A B} (m : M A) (f : A -> M B) :
  grows m -> (forall a, grows (f a)) -> grows (m ≫= f).
Proof.
  intros Hm Hf c w. rewrite bind_run. destruct (Hm c w) as [r1 H1].
  destruct (m c w) as [[[a|e] c'] w']; cbn [snd] in *.
  - destruct (Hf a c' w') as [r2 H2]. exists (r1 ++ r2).
    by rewrite H2, H1, app_assoc.
  - by exists r1.
Qed.

Lemma grows_axios cfg : grows (axios cfg).
Proof.
  intros c w. unfold axios. destruct (default _ _). by eexists.
Qed.

Lemma grows_axios_post u b h : grows (axios_post u b h).
Proof.
  intros c w. unfold axios_post. destruct (default _ _). by eexists.
Qed.

Lemma grows_sleep ms : grows (sleep ms).
Proof. intros c w. by eexists. Qed.

Lemma grows_checkRateLimit : grows checkRateLimit.
Proof.
  apply grows_same. intros c w. rewrite checkRateLimit_run. cbn zeta.
  by destruct (60 * 1000 <? _), (reached _ _).
Qed.

Lemma grows_getAccessToken : grows getAccessToken.
Proof.
  intros c w. rewrite getAccessToken_run.
  destruct (fresh_token _ _); [exists []; by rewrite app_nil_r|].
  cbn zeta. destruct (next_token_reply w).2; by eexists.
Qed.

Lemma grows_parseError error : grows (parseError error).
Proof.
  apply grows_same. intros c w.
  destruct (parseError_run error c w) as (pe & c' & w' & -> & _ & _ & _ & _ & Hq).
  apply Hq.
Qed.

Lemma grows_makeRequest_body self method endpoint data retryCount :
  (forall m e d r, grows (self m e d r)) ->
  grows (makeRequest_body self method endpoint data retryCount).
Proof.
  intros Hself. unfold makeRequest_body.
  apply grows_bind; [apply grows_checkRateLimit|]. intros _.
  apply grows_bind; [apply grows_getAccessToken|]. intros token.
  apply grows_bind; [by apply grows_same|]. intros c.
  apply grows_bind; [by apply grows_same|]. intros _.
  apply grows_bind; [by apply grows_same|]. intros c'.
  apply grows_bind; [by apply grows_same|]. intros now.
  apply grows_bind; [apply grows_axios|]. intros [response|error];
    [by apply grows_same|].
  apply grows_bind; [apply grows_parseError|]. intros pe.
  case_match; [|by apply grows_same].
  apply grows_bind; [apply grows_sleep | intros; apply Hself].
Qed.

Lemma grows_makeRequest_rec budget method endpoint data retryCount :
  grows (makeRequest_rec budget method endpoint data retryCount).
Proof.
  revert method endpoint data retryCount.
  induction budget as [|budget IH]; intros; cbn [makeRequest_rec];
    apply grows_makeRequest_body; [intros; by apply grows_same | done].
Qed.

(** A call of [makeRequest] by a client without a cached token is either
    stopped by the throttle or starts its network traffic with a token
    exchange. *)
Lemma makeRequest_exchanges_first method endpoint data retryCount c w :
  accessToken c = None ->
  let r := makeRequest method endpoint data retryCount c w in
  (r.1.1 = Throw rate_limit_error /\ trace r.2 = trace w) \/
  (exists rest,
     trace r.2 = trace w ++
       TokenExchange (token_url c) "grant_type=client_credentials" (token_headers c)
       :: rest).
Proof.
  intros Hnone. cbn zeta. unfold makeRequest.
  assert (forall self, (forall m e d r, grows (self m e d r)) ->
    let r := makeRequest_body self method endpoint data retryCount c w in
    (r.1.1 = Throw rate_limit_error /\ trace r.2 = trace w) \/
    (exists rest,
       trace r.2 = trace w ++
         TokenExchange (token_url c) "grant_type=client_credentials"
           (token_headers c) :: rest)) as Hbody.
  { intros self Hself. cbn zeta.
    unfold makeRequest_body. rewrite bind_run, checkRateLimit_run. cbn zeta.
    set (c0 := if 60 * 1000 <? _ then _ else c).
    set (w0 := if 60 * 1000 <? _ then _ else w).
    assert (accessToken c0 = None /\ token_url c0 = token_url c /\
            token_headers c0 = token_headers c /\ trace w0 = trace w)
      as (Hn0 & Hu0 & Hh0 & Ht0).
    { subst c0 w0. by destruct (60 * 1000 <? _). }
    clearbody c0 w0.
    destruct (reached _ _); [by left|]. right.
    rewrite bind_run, getAccessToken_run.
    rewrite fresh_token_None by (by left). cbn zeta.
    assert (trace (after_exchange (set_rateLimitCount (S (rateLimitCount c0)) c0)
                     (with_snapshot (set_rateLimitCount (S (rateLimitCount c0)) c0) w0))
            = trace w ++
              [TokenExchange (token_url c) "grant_type=client_credentials"
                 (token_headers c)]) as Hex.
    { cbn. by rewrite Ht0, <- Hu0, <- Hh0. }
    destruct (next_token_reply _).2 as [response|error]; cbn [fst snd].
    2: { exists []. by rewrite Hex. }
    match goal with
    | |- exists rest, trace (?m ?c2 ?w2).2 = _ =>
        assert (grows m) as HK; [|destruct (HK c2 w2) as [rest Hrest]]
    end.
    { apply grows_bind; [by apply grows_same|]. intros c1.
      apply grows_bind; [by apply grows_same|]. intros _.
      apply grows_bind; [by apply grows_same|]. intros c1'.
      apply grows_bind; [by apply grows_same|]. intros now.
      apply grows_bind; [apply grows_axios|]. intros [resp|error];
        [by apply grows_same|].
      apply grows_bind; [apply grows_parseError|]. intros pe.
      case_match; [|by apply grows_same].
      apply grows_bind; [apply grows_sleep | intros; apply Hself]. }
    exists rest. rewrite Hrest. cbn [trace with_snapshot].
    rewrite Hex. by rewrite <- app_assoc. }
  destruct (3 - retryCount)%nat as [|budget]; cbn [makeRequest_rec];
    apply Hbody; intros.
  - by apply grows_same.
  - apply grows_makeRequest_rec.
Qed.

(** C5 (amended). Before a retry caused by an authentication failure
    (status 401) the cached token is cleared, so the retried call cannot
    reuse it: unless the throttle stops it, its network traffic starts
    with a token exchange.  Before a retry caused by a status 500 the
    cached token and its expiry are left as they were. *)
Theorem retry_token_invalidation method endpoint data retryCount c w
    requestId error r c1 w1 :
  attempt method endpoint data c w = (Return (requestId, Reject error), c1, w1) ->
  err_response error = Some r ->
  (retryCount < 3)%nat ->
  (Axios.status r = 401 ->
   exists c2 w2,
     makeRequest method endpoint data retryCount c w =
       makeRequest method endpoint data (S retryCount) c2 w2 /\
     accessToken c2 = None /\
     let retried := makeRequest method endpoint data (S retryCount) c2 w2 in
     (retried.1.1 = Throw rate_limit_error /\ trace retried.2 = trace w2) \/
     (exists rest,
        trace retried.2 = trace w2 ++
          TokenExchange (token_url c2) "grant_type=client_credentials"
            (token_headers c2) :: rest)) /\
  (Axios.status r = 500 ->
   exists c2 w2,
     makeRequest method endpoint data retryCount c w =
       makeRequest method endpoint data (S retryCount) c2 w2 /\
     accessToken c2 = accessToken c1 /\ tokenExpiry c2 = tokenExpiry c1).
Proof.
  intros Ha Hresp Hrc.
  destruct (makeRequest_rejected method endpoint data retryCount c w
              requestId error c1 w1 Ha)
    as (pe & c2 & w2 & _ & _ & _ & _ & Hc2 & _ & Hmk).
  unfold retriable in Hmk. rewrite Hresp in Hc2, Hmk.
  cbn [fmap option_fmap option_map] in Hc2.
  replace (retryCount <? 3)%nat with true in Hmk
    by (symmetry; by apply Nat.ltb_lt).
  split; intros Hst; rewrite Hst in Hc2, Hmk; cbn in Hc2, Hmk;
    exists c2, (after_backoff retryCount w2); (split; [done|]).
  - rewrite bool_decide_eq_true_2 in Hc2 by done. subst c2.
    split; [done|]. by apply makeRequest_exchanges_first.
  - rewrite bool_decide_eq_false_2 in Hc2 by done. by subst c2.
Qed.

Lemma retry_token_invalidation_witness :
  exists c2 w2,
    makeRequest "GET" "/v2/checkout/orders/0" VNull 0 warm_client unauthorized_world =
      makeRequest "GET" "/v2/checkout/orders/0" VNull 1 c2 w2 /\
    accessToken c2 = None /\
    let retried := makeRequest "GET" "/v2/checkout/orders/0" VNull 1 c2 w2 in
    (retried.1.1 = Throw rate_limit_error /\ trace retried.2 = trace w2) \/
    (exists rest,
       trace retried.2 = trace w2 ++
         TokenExchange (token_url c2) "grant_type=client_credentials"
           (token_headers c2) :: rest).
Proof.
  apply (retry_token_invalidation "GET" "/v2/checkout/orders/0" VNull 0%nat
           warm_client unauthorized_world "1-1000000"
           {| err_message := "Request failed with status code 401";
              err_response := Some {| Axios.status := 401; Axios.data := VNull |} |}
           {| Axios.status := 401; Axios.data := VNull |}
           (attempt "GET" "/v2/checkout/orders/0" VNull warm_client
              unauthorized_world).1.2
           (attempt "GET" "/v2/checkout/orders/0" VNull warm_client
              unauthorized_world).2).
  - vm_compute. reflexivity.
  - reflexivity.
  - lia.
  - reflexivity.
Defined.

(** C5 as stated fails: after a 500 the call is retried with the cached
    token still in place; no exchange takes place (the scripted exchange
    reply is never consumed) and both dispatches carry the same bearer
    token. *)
Lemma retry_after_500_reuses_token_counterexample :
  let r := makeRequest "GET" "/v2/checkout/orders/0" VNull 0 warm_client
             overloaded_world in
  Spec.retries 0 (Some {| Axios.status := 500; Axios.data := VNull |}) = true /\
  r.1.1 = Return (Axios.data order_created) /\
  sleeps (trace r.2) = [1000] /\
  exchanges (trace r.2) = 0%nat /\
  map (fun cfg => Axios.headers cfg !! "Authorization") (dispatches (trace r.2)) =
    [Some "Bearer A21AAFs9"; Some "Bearer A21AAFs9"] /\
  accessToken r.1.2 = accessToken warm_client /\
  token_replies r.2 = token_replies overloaded_world.
Proof. vm_compute. repeat split. Qed.

(** ** Configured timeout and retry ceiling *)

(** C9. A client constructed with [timeout: 45000] and [retryAttempts: 5]
    stores both in [this.config], yet [makeRequest] sends every request
    with a timeout of 30000 and stops retrying after 3 retries: against a
    server that always answers 500 it makes 4 dispatches, not 6. *)
Theorem configured_timeout_and_retries_ignored :
  let c := client_of custom_options in
  let r := makeRequest "GET" "/v2/checkout/orders/0" VNull 0 c failing_world in
  constructor custom_options no_env 1000000 = inr c /\
  Cfg.timeout (config c) = 45000 /\
  Cfg.retryAttempts (config c) = 5 /\
  map Axios.timeout (dispatches (trace r.2)) = [30000; 30000; 30000; 30000] /\
  sleeps (trace r.2) = [1000; 2000; 4000] /\
  r.1.1 = Throw (ApiError INTERNAL_SERVER_ERROR
                   (VStr "PayPal server error. Please try again later.")
                   (Some 500) VNull "4-1007210") /\
  length (api_replies r.2) = 2%nat /\
  config r.1.2 = config c.
Proof. vm_compute. repeat split. Qed.

(** ** Instances *)

Lemma getAccessToken_spec_witness :
  getAccessToken warm_client quiet_world =
    (Return "A21AAFs9", warm_client, quiet_world) /\
  exists r c' w',
    getAccessToken (client_of sample_options) token_world = (r, c', w') /\
    r = Return "A21BBx07" /\
    accessToken c' = Some "A21BBx07" /\
    tokenExpiry c' = Some (1000030 + 32400 * 1000 - 60000) /\
    getAccessToken c' (wait 5000 w') = (Return "A21BBx07", c', wait 5000 w').
Proof.
  destruct getAccessToken_spec as [Hcached Hstale]. split.
  - apply (Hcached warm_client quiet_world "A21AAFs9" 4540000);
      [reflexivity | discriminate | reflexivity | vm_compute; reflexivity].
  - destruct (Hstale (client_of sample_options) token_world (or_introl eq_refl))
      as (r & c' & w' & Hrun & _ & _ & Hok).
    destruct (Hok 30%N {| access_token := "A21BBx07"; expires_in := 32400 |} []
                eq_refl) as (Hr & Hat & Hexp & Hclock & Hnext).
    exists r, c', w'. repeat split; try assumption.
    apply Hnext; [discriminate|]. rewrite Hclock. vm_compute. reflexivity.
Defined.




(** ** Currency formatting *)

Section Rounding.

Import Binary64.

(** [rne n d] is within half a unit of [n / d]. *)
Lemma rne_error (n d : Z) :
  0 < d -> - d <= 2 * (d * rne n d - n) <= d.
Proof.
  intros Hd. unfold rne.
  pose proof (Z.div_mod n d ltac:(lia)) as Hn.
  pose proof (Z.mod_pos_bound n d Hd) as Hr.
  set (q := n / d) in *. set (r := n mod d) in *.
  destruct (2 * r <? d) eqn:H1; [apply Z.ltb_lt in H1; lia|].
  apply Z.ltb_ge in H1.
  destruct (d <? 2 * r) eqn:H2; [apply Z.ltb_lt in H2; lia|].
  apply Z.ltb_ge in H2. destruct (Z.even q); lia.
Qed.

(** [2 ^ ilog2 p q <= p / q], with the power moved to the side where its
    exponent is not negative. *)
Lemma ilog2_lower (p q : positive) :
  Zpos q * 2 ^ Z.max 0 (ilog2 p q) <= Zpos p * 2 ^ Z.max 0 (- ilog2 p q).
Proof.
  unfold ilog2. set (e0 := Z.log2 (Zpos p) - Z.log2 (Zpos q)).
  destruct (_ <=? _) eqn:Ht; [by apply Z.leb_le in Ht|]. clear Ht.
  pose proof (Z.log2_spec (Zpos p) ltac:(lia)) as [Hp1 Hp2].
  pose proof (Z.log2_spec (Zpos q) ltac:(lia)) as [Hq1 Hq2].
  pose proof (Z.log2_nonneg (Zpos p)) as Hlp.
  pose proof (Z.log2_nonneg (Zpos q)) as Hlq.
  set (lp := Z.log2 (Zpos p)) in *. set (lq := Z.log2 (Zpos q)) in *.
  destruct (Z.le_gt_cases 1 e0) as [He|He].
  - rewrite (Z.max_r 0 (e0 - 1)), (Z.max_l 0 (- (e0 - 1))) by lia.
    rewrite Z.pow_0_r, Z.mul_1_r.
    assert (2 ^ lp = 2 ^ Z.succ lq * 2 ^ (e0 - 1)) as Hpow.
    { rewrite <- Z.pow_add_r by lia. f_equal. lia. }
    assert (0 < 2 ^ (e0 - 1)) by (apply Z.pow_pos_nonneg; lia).
    nia.
  - rewrite (Z.max_l 0 (e0 - 1)), (Z.max_r 0 (- (e0 - 1))) by lia.
    rewrite Z.pow_0_r, Z.mul_1_r.
    assert (2 ^ Z.succ lq = 2 ^ lp * 2 ^ (- (e0 - 1))) as Hpow.
    { rewrite <- Z.pow_add_r by lia. f_equal. lia. }
    assert (0 < 2 ^ (- (e0 - 1))) by (apply Z.pow_pos_nonneg; lia).
    nia.
Qed.

(** Rounding a positive rational [p / q = a / 100] below [2^46]: the
    result [n / d] has [d >= 128] a power of two and [100 * n] within 50
    of [a * d]. *)
Lemma round_pos_small (p q : positive) (a : Z) :
  Zpos p * 100 = a * Zpos q -> 0 < a < 100 * 2 ^ 46 ->
  exists n d, round_pos p q = n # d /\
    0 < n /\ 128 <= Zpos d /\ -50 <= 100 * n - a * Zpos d <= 50.
Proof.
  intros Hpq Ha. unfold round_pos.
  pose proof (ilog2_lower p q) as Hlow. set (e := ilog2 p q) in *.
  assert (e <= 45) as He.
  { destruct (Z.le_gt_cases e 45) as [|Hbig]; [done|]. exfalso.
    rewrite (Z.max_r 0 e), (Z.max_l 0 (- e)), Z.pow_0_r, Z.mul_1_r in Hlow by lia.
    assert (2 ^ 46 <= 2 ^ e) by (apply Z.pow_le_mono_r; lia).
    nia. }
  set (s := 52 - e). assert (7 <= s) as Hs by (subst s; lia).
  replace (0 <=? s) with true by (symmetry; apply Z.leb_le; lia).
  rewrite (Z.max_r 0 s), (Z.max_l 0 (- s)), Z.pow_0_r, Z.mul_1_r by lia.
  set (D := 2 ^ s). assert (128 <= D) as HD.
  { subst D. change 128 with (2 ^ 7). apply Z.pow_le_mono_r; lia. }
  pose proof (rne_error (Zpos p * D) (Zpos q) ltac:(lia)) as Herr.
  set (n := rne (Zpos p * D) (Zpos q)) in *.
  assert (-50 <= 100 * n - a * D <= 50) as Hn by nia.
  exists n, (Z.to_pos D). rewrite Z2Pos.id by lia.
  repeat split; try lia.
Qed.

(** An integer below [2^53] is a double. *)
Lemma round_pos_int (p : positive) :
  Zpos p < 2 ^ 53 ->
  exists d, round_pos p 1 = (Zpos p * Zpos d) # d.
Proof.
  intros Hp. unfold round_pos.
  pose proof (ilog2_lower p 1) as Hlow. set (e := ilog2 p 1) in *.
  assert (e <= 52) as He.
  { destruct (Z.le_gt_cases e 52) as [|Hbig]; [done|]. exfalso.
    rewrite (Z.max_r 0 e), (Z.max_l 0 (- e)), Z.pow_0_r, Z.mul_1_r in Hlow by lia.
    assert (2 ^ 53 <= 2 ^ e) by (apply Z.pow_le_mono_r; lia).
    lia. }
  set (s := 52 - e). assert (0 <= s) as Hs by (subst s; lia).
  replace (0 <=? s) with true by (symmetry; apply Z.leb_le; lia).
  rewrite (Z.max_r 0 s), (Z.max_l 0 (- s)), Z.pow_0_r, Z.mul_1_r by lia.
  assert (0 < 2 ^ s) as HD by (apply Z.pow_pos_nonneg; lia).
  exists (Z.to_pos (2 ^ s)). rewrite Z2Pos.id by lia. f_equal.
  unfold rne. rewrite Z.mod_1_r, Z.div_1_r. done.
Qed.

End Rounding.

Section Digits.

Local Open Scope N_scope.

Ltac string_step :=
  cbv [String.append String.length String.substring];
  fold String.append String.length String.substring.

Lemma append_assoc (a b c : string) : (a +:+ b) +:+ c = a +:+ (b +:+ c).
Proof. induction a as [|ch a IH]; string_step; [done | by rewrite IH]. Qed.

Lemma length_append (a b : string) :
  String.length (a +:+ b) = (String.length a + String.length b)%nat.
Proof. induction a as [|ch a IH]; string_step; [done | by rewrite IH]. Qed.

Lemma pretty_N_go_app (x : N) (s : string) :
  pretty_N_go x s = pretty_N_go x "" +:+ s.
Proof.
  revert s. induction (N.lt_wf_0 x) as [x _ IH]. intros s.
  destruct (decide (x = 0)) as [->|Hx]; [done|].
  rewrite (pretty_N_go_step x s), (pretty_N_go_step x "") by lia.
  assert (x `div` 10 < x) as Hlt by (apply N.div_lt; lia).
  rewrite (IH _ Hlt (String _ s)), (IH _ Hlt (String _ "")).
  by rewrite append_assoc.
Qed.

Lemma pretty_N_digit (x : N) :
  0 < x < 10 -> pretty x = String (pretty_N_char x) "".
Proof.
  intros Hx. unfold pretty, pretty_N. rewrite decide_False by lia.
  rewrite pretty_N_go_step by lia.
  rewrite N.div_small, N.mod_small by lia. done.
Qed.

Lemma pretty_N_snoc (x : N) :
  10 <= x ->
  pretty x = pretty (x `div` 10) +:+ String (pretty_N_char (x `mod` 10)) "".
Proof.
  intros Hx. unfold pretty, pretty_N. rewrite decide_False by lia.
  assert (0 < x `div` 10) by (apply N.div_str_pos; lia).
  rewrite decide_False by lia.
  by rewrite pretty_N_go_step, pretty_N_go_app by lia.
Qed.

Lemma pretty_N_nonempty (x : N) : (1 <= String.length (pretty x))%nat.
Proof.
  destruct (decide (x < 10)) as [Hx|Hx].
  - destruct (decide (x = 0)) as [->|]; [done|]. rewrite pretty_N_digit by lia.
    done.
  - rewrite pretty_N_snoc by lia. rewrite length_append. string_step. lia.
Qed.

Lemma substring_prefix (a b : string) :
  String.substring 0 (String.length a) (a +:+ b) = a.
Proof.
  induction a as [|ch a IH]; string_step; [by destruct b | by rewrite IH].
Qed.

Lemma substring_suffix (a b : string) :
  String.substring (String.length a) (String.length b) (a +:+ b) = b.
Proof.
  induction a as [|ch a IH]; string_step; [|done].
  induction b as [|ch b IHb]; string_step; [done | by rewrite IHb].
Qed.

Lemma point2_pretty (x : N) :
  point2 (pretty x) =
  pretty (x `div` 100) +:+ "." +:+
  String (pretty_N_char ((x `div` 10) `mod` 10))
    (String (pretty_N_char (x `mod` 10)) "").
Proof.
  destruct (decide (x < 10)) as [H10|H10].
  { rewrite (N.div_small x 100), (N.div_small x 10) by lia.
    destruct (decide (x = 0)) as [->|]; [done|].
    rewrite pretty_N_digit, (N.mod_small x 10) by lia. reflexivity. }
  rewrite (pretty_N_snoc x) by lia.
  destruct (decide (x < 100)) as [H100|H100].
  { rewrite (N.div_small x 100) by lia.
    assert (0 < x `div` 10 < 10).
    { split; [apply N.div_str_pos; lia | apply N.Div0.div_lt_upper_bound; lia]. }
    rewrite (N.mod_small (x `div` 10)) by lia.
    rewrite pretty_N_digit by lia. reflexivity. }
  assert (10 <= x `div` 10) by (apply N.div_le_lower_bound; lia).
  rewrite (pretty_N_snoc (x `div` 10)) by lia.
  rewrite N.Div0.div_div. change (10 * 10) with 100.
  rewrite append_assoc. string_step.
  set (hi := pretty (x `div` 100)).
  set (lo := String (pretty_N_char ((x `div` 10) `mod` 10))
               (String (pretty_N_char (x `mod` 10)) "")).
  unfold point2. rewrite length_append.
  pose proof (pretty_N_nonempty (x `div` 100)) as Hhi. fold hi in Hhi.
  change (String.length lo) with 2%nat.
  replace (String.length hi + 2 <=? 2)%nat with false
    by (symmetry; apply Nat.leb_gt; lia).
  replace (String.length hi + 2 - 2)%nat with (String.length hi) by lia.
  rewrite substring_prefix.
  change 2%nat with (String.length lo) at 1.
  by rewrite substring_suffix.
Qed.

End Digits.

Section Formatting.

Import Binary64 NumberFormat.

Lemma pretty_Z_of_N (x : N) : pretty (Z.of_N x) = pretty x.
Proof. by destruct x. Qed.

(** [toFixed(2)] of a double that is within 1/200 of [p / 100]. *)
Lemma toFixed_cents (n : Z) (d p : positive) (negative : bool) :
  0 < n -> 128 <= Zpos d -> -50 <= 100 * n - Zpos p * Zpos d <= 50 ->
  Zpos p < 100 * 2 ^ 46 ->
  toFixed (if negative then Qopp (n # d) else n # d) 2 =
  (if negative then "-" else "") +:+ point2 (pretty (Npos p)).
Proof.
  intros Hn Hd Herr Hp.
  change (2 ^ 46) with 70368744177664 in Hp.
  set (x := if negative then Qopp (n # d) else n # d).
  assert (Qlt_bool x 0 = negative) as Hsign.
  { unfold Qlt_bool, Qle_bool, x. destruct negative; cbn [Qopp Qnum Qden];
      [apply negb_true_iff, Z.leb_gt | apply negb_false_iff, Z.leb_le]; lia. }
  assert (Qabs x = n # d) as Habs.
  { unfold x. destruct negative; cbv [Qabs Qopp Qnum Qden]; f_equal; lia. }
  assert (Qle_bool (inject_Z (pow10 21)) (n # d) = false) as Hfix.
  { unfold Qle_bool. cbn [Qnum Qden inject_Z].
    change (pow10 21) with 1000000000000000000000.
    apply Z.leb_gt. nia. }
  assert (Qfloor ((n # d) * inject_Z (pow10 2) + (1 # 2)) = Zpos p) as Hfloor.
  { unfold Qfloor, Qplus, Qmult. cbn [Qnum Qden inject_Z].
    change (pow10 2) with 100.
    symmetry. apply (Z.div_unique _ _ _
      (n * 100 * 2 + 1 * Zpos (d * 1) - Zpos (d * 1 * 2) * Zpos p)); nia. }
  unfold toFixed. fold x. rewrite Hsign, Habs, Hfix, Hfloor.
  reflexivity.
Qed.

(** The double [amount / 100] for a positive integer below 100 * 2^46. *)
Lemma fdiv_cents (p : positive) :
  Zpos p < 100 * 2 ^ 46 ->
  exists n d,
    fdiv (of_int (Zpos p)) (inject_Z 100) = n # d /\
    fdiv (of_int (Zneg p)) (inject_Z 100) = Qopp (n # d) /\
    0 < n /\ 128 <= Zpos d /\ -50 <= 100 * n - Zpos p * Zpos d <= 50.
Proof.
  intros Hp.
  assert (Zpos p < 2 ^ 53) as Hp53.
  { change (2 ^ 46) with 70368744177664 in Hp.
    change (2 ^ 53) with 9007199254740992. lia. }
  destruct (round_pos_int p Hp53) as [d0 Hint].
  destruct (round_pos_small (p * d0 * 1) (d0 * 100) (Zpos p)) as (n & d & Hr & Hn).
  { lia. }
  { lia. }
  exists n, d. unfold fdiv, of_int, round64.
  cbn [inject_Z Qnum Qden]. rewrite Hint.
  unfold Qdiv, Qinv, Qmult, Qopp. cbn [Qnum Qden inject_Z].
  change (Z.pos p * Z.pos d0 * 1) with (Z.pos (p * d0 * 1)).
  change (- (Z.pos p * Z.pos d0) * 1) with (Z.neg (p * d0 * 1)).
  cbv iota. by rewrite Hr.
Qed.

Lemma decimal2_point2 (amount : Z) :
  Spec.decimal2 amount =
  (if amount <? 0 then "-" else "") +:+ point2 (pretty (Z.to_N (Z.abs amount))).
Proof.
  unfold Spec.decimal2. f_equal. rewrite point2_pretty.
  set (A := Z.to_N (Z.abs amount)).
  assert (Z.abs amount = Z.of_N A) as -> by (subst A; lia).
  change 100 with (Z.of_N 100). change 10 with (Z.of_N 10).
  rewrite <- !N2Z.inj_div, <- !N2Z.inj_mod, !N2Z.id.
  by rewrite pretty_Z_of_N.
Qed.

End Formatting.

(** C7 (amended). For every integer amount of magnitude below 100 * 2^46
    (about 7.04e15 minor units) and every currency code,
    [formatCurrency] returns the code unchanged and the decimal string
    of amount/100 with exactly two digits after the point; 2500 USD
    gives 25.00 and 0 GBP gives 0.00. *)
Theorem formatCurrency_spec :
  (forall amount code,
     Z.abs amount < 100 * 2 ^ 46 ->
     formatCurrency amount (Some code) =
       {| currency_code := code; value := Spec.decimal2 amount |}) /\
  formatCurrency 2500 (Some "USD") = {| currency_code := "USD"; value := "25.00" |} /\
  formatCurrency 0 (Some "GBP") = {| currency_code := "GBP"; value := "0.00" |}.
Proof.
  split; [|split; vm_compute; reflexivity].
  intros amount code Ha. unfold formatCurrency. cbn [default]. f_equal.
  rewrite decimal2_point2. destruct amount as [|p|p].
  - vm_compute. reflexivity.
  - destruct (fdiv_cents p) as (n & d & -> & _ & Hn & Hd & Herr); [lia|].
    by rewrite (toFixed_cents n d p false).
  - destruct (fdiv_cents p) as (n & d & _ & -> & Hn & Hd & Herr); [lia|].
    by rewrite (toFixed_cents n d p true).
Qed.

Lemma formatCurrency_spec_witness :
  formatCurrency 1599 (Some "GBP") =
    {| currency_code := "GBP"; value := Spec.decimal2 1599 |}.
Proof.
  apply (proj1 formatCurrency_spec 1599 "GBP"). vm_compute. reflexivity.
Defined.

(** C7 as stated fails for large integers: 9001752341211585 is an
    integer that is a double, amount/100 is not, and the nearest double
    lies below 90017523412115.845, so toFixed(2) prints ...84 where the
    decimal string of amount/100 ends in ...85. *)
Lemma formatCurrency_large_counterexample :
  value (formatCurrency 9001752341211585 (Some "USD")) = "90017523412115.84" /\
  Spec.decimal2 9001752341211585 = "90017523412115.85" /\
  Binary64.of_int 9001752341211585 == inject_Z 9001752341211585.
Proof. vm_compute. repeat split. Qed.

Lemma parseError_spec_witness :
  exists pe c' w',
    parseError {| err_message := "Request failed with status code 401";
                  err_response := Some {| Axios.status := 401; Axios.data := VNull |} |}
      warm_client quiet_world = (Return pe, c', w') /\
    pe_type pe = AUTHENTICATION_FAILURE /\
    pe_status pe = Some 401 /\
    accessToken c' = None.
Proof.
  destruct (parseError_spec
              {| err_message := "Request failed with status code 401";
                 err_response := Some {| Axios.status := 401; Axios.data := VNull |} |}
              warm_client quiet_world)
    as (pe & c' & w' & Hrun & _ & _ & Hrows).
  cbn in Hrows. destruct Hrows as (Hst & _ & _ & H401 & _).
  destruct (H401 eq_refl) as [Hty Hc].
  exists pe, c', w'. repeat split; assumption.
Defined.

Lemma verifyWebhook_spec_witness :
  exists b : bool,
    (verifyWebhook (VObj []) VNull (VStr "WH-1") warm_client verified_world).1.1
      = Return b /\
    b = true.
Proof.
  destruct (verifyWebhook_spec (VObj []) VNull (VStr "WH-1") warm_client
              verified_world)
    as (b & Hrun & Htrue & _).
  exists b. split; [by rewrite Hrun|].
  apply Htrue. eexists. split; vm_compute; reflexivity.
Defined.

(** * Further properties of the request pipeline *)

(** ** Settings, dispatch shape and retry bound *)

Lemma same_settings_refl c : same_settings c c.
Proof. by repeat split. Qed.

Lemma same_settings_trans c1 c2 c3 :
  same_settings c1 c2 -> same_settings c2 c3 -> same_settings c1 c3.
Proof.
  unfold same_settings. intros (?&?&?&?&?&?&?) (?&?&?&?&?&?&?).
  repeat split; congruence.
Qed.

Lemma checkRateLimit_effect c w :
  let r := checkRateLimit c w in
  same_settings c r.1.2 /\ requestCounter r.1.2 = requestCounter c /\
  accessToken r.1.2 = accessToken c /\ tokenExpiry r.1.2 = tokenExpiry c /\
  quiet w r.2.
Proof.
  cbn zeta. rewrite checkRateLimit_run. cbn zeta.
  destruct (60 * 1000 <? _), (reached _ _); by repeat split.
Qed.

Lemma getAccessToken_effect c w :
  let r := getAccessToken c w in
  same_settings c r.1.2 /\ requestCounter r.1.2 = requestCounter c /\
  rateLimitCount r.1.2 = rateLimitCount c /\
  rateLimitWindow r.1.2 = rateLimitWindow c /\
  (trace r.2 = trace w \/ trace r.2 = trace w ++ [exchange_event c]).
Proof.
  cbn zeta. rewrite getAccessToken_run.
  destruct (fresh_token _ _); [by repeat split; try left|].
  cbn zeta. destruct (next_token_reply w).2; repeat split; by right.
Qed.

Lemma parseError_effect error c w :
  let r := parseError error c w in
  same_settings c r.1.2 /\ requestCounter r.1.2 = requestCounter c /\
  rateLimitCount r.1.2 = rateLimitCount c /\ quiet w r.2.
Proof.
  cbn zeta.
  destruct (parseError_run error c w) as (pe & c' & w' & -> & _ & _ & _ & -> & Hq).
  cbn. by destruct (bool_decide _).
Qed.

(** One attempt: stopped by the throttle, failed at the token exchange,
    or dispatched once, after at most one exchange. *)
Lemma attempt_cases method endpoint data c w :
  let r := attempt method endpoint data c w in
  same_settings c r.1.2 /\
  ((exists e, r.1.1 = Throw e /\ requestCounter r.1.2 = requestCounter c /\
      (trace r.2 = trace w \/ trace r.2 = trace w ++ [exchange_event c])) \/
   (exists token now reply pre,
      r.1.1 = Return (request_id (S (requestCounter c)) now, reply) /\
      requestCounter r.1.2 = S (requestCounter c) /\
      (pre = [] \/ pre = [exchange_event c]) /\
      trace r.2 = trace w ++ pre ++
        [Dispatch (request_config method (baseURL c +:+ endpoint) token
                     (request_id (S (requestCounter c)) now) data)])).
Proof.
  cbn zeta. unfold attempt. rewrite bind_run.
  pose proof (checkRateLimit_effect c w) as Hrate. cbn zeta in Hrate.
  destruct (checkRateLimit c w) as [[[[]|e0] c0] w0]; cbn [fst snd] in *;
    destruct Hrate as (Hs0 & Hn0 & _ & _ & _ & _ & _ & Ht0).
  2: { split; [done|]. left. exists e0. repeat split; try done. by left. }
  rewrite bind_run.
  pose proof (getAccessToken_effect c0 w0) as Htok. cbn zeta in Htok.
  assert (exchange_event c0 = exchange_event c) as Hex.
  { destruct Hs0 as (Hid & Hsec & _ & _ & Hurl & _).
    unfold exchange_event, token_url, token_headers. by rewrite Hid, Hsec, Hurl. }
  rewrite Hex in Htok.
  destruct (getAccessToken c0 w0) as [[[token|e1] c1] w1]; cbn [fst snd] in *;
    destruct Htok as (Hs1 & Hn1 & _ & _ & Ht1).
  2: { split; [by eapply same_settings_trans|]. left. exists e1.
       rewrite Hn1, Hn0. split; [done|]. split; [done|].
       rewrite <- Ht0. destruct Ht1 as [->| ->]; [by left | by right]. }
  unfold_monad. unfold axios. cbn.
  destruct (default _ _) as [latency reply]. cbn.
  split.
  { eapply same_settings_trans; [exact Hs0|].
    eapply same_settings_trans; [exact Hs1|]. by repeat split. }
  right. exists token, (Z.of_N (clock w1)), reply.
  destruct Hs0 as (_ & _ & _ & _ & Hurl0 & _), Hs1 as (_ & _ & _ & _ & Hurl1 & _).
  destruct Ht1 as [Heq|Heq]; [exists [] | exists [exchange_event c]];
    rewrite Hn1, Hn0, Hurl1, Hurl0, Heq, Ht0;
    (split; [done|]); (split; [done|]); (split; [by (left + right)|]).
  - done.
  - by rewrite <- app_assoc.
Qed.

Lemma dispatches_app tr1 tr2 : dispatches (tr1 ++ tr2) = dispatches tr1 ++ dispatches tr2.
Proof. apply omap_app. Qed.

Lemma sleeps_app tr1 tr2 : sleeps (tr1 ++ tr2) = sleeps tr1 ++ sleeps tr2.
Proof. apply omap_app. Qed.

Lemma exchange_event_settings c c' :
  same_settings c c' -> exchange_event c' = exchange_event c.
Proof.
  intros (Hid & Hsec & _ & _ & Hurl & _).
  unfold exchange_event, token_url, token_headers. by rewrite Hid, Hsec, Hurl.
Qed.

Lemma call_trace_none method url data n retryCount c c' w w' :
  requestCounter c' = requestCounter c ->
  trace w' = trace w \/ trace w' = trace w ++ [exchange_event c] ->
  call_trace method url data n retryCount c c' w w'.
Proof.
  intros Hn [Htr|Htr]; [exists [] | exists [exchange_event c]]; exists [];
    rewrite ?app_nil_r; cbn; repeat split; try done; try lia;
    try apply prefix_nil; by repeat constructor.
Qed.

Lemma call_trace_one method url data n retryCount c c' w w' pre token now :
  requestCounter c' = S (requestCounter c) ->
  pre = [] \/ pre = [exchange_event c] ->
  trace w' = trace w ++ pre ++
    [Dispatch (request_config method url token
                 (request_id (S (requestCounter c)) now) data)] ->
  call_trace method url data n retryCount c c' w w'.
Proof.
  intros Hn Hpre Htr.
  exists (pre ++ [Dispatch (request_config method url token
                             (request_id (S (requestCounter c)) now) data)]),
    [(token, now)].
  rewrite dispatches_app, sleeps_app.
  assert (dispatches pre = [] /\ sleeps pre = [] /\ Forall (exchange_of c) pre)
    as (-> & -> & Hep)
    by (destruct Hpre as [-> | ->]; repeat split; by repeat constructor).
  cbn. rewrite Nat.add_0_r. repeat split; try done; try lia.
  - apply prefix_nil.
  - apply Forall_app. split; [done | by repeat constructor].
Qed.

(** The trace of one call of [makeRequest], by induction on the retries
    that are left. *)
Lemma makeRequest_trace method endpoint data (n : nat) :
  forall retryCount c w, (3 - retryCount)%nat = n ->
  let r := makeRequest method endpoint data retryCount c w in
  same_settings c r.1.2 /\
  call_trace method (baseURL c +:+ endpoint) data n retryCount c r.1.2 w r.2.
Proof.
  induction n as [|n IH]; intros retryCount c w Hn; cbn zeta;
    rewrite makeRequest_unfold, makeRequest_body_run;
    pose proof (attempt_cases method endpoint data c w) as Hatt; cbn zeta in Hatt;
    destruct (attempt method endpoint data c w) as [[[[rid reply]|e] c1] w1];
    cbn [fst snd] in Hatt;
    destruct Hatt as [Hs1 [(e' & Hret & Hn1 & Htr)
                          | (token & now & reply' & pre & Hret & Hn1 & Hpre & Htr)]];
    try discriminate; cbn [fst snd];
    try (split; [done|]; by apply call_trace_none).
  all: injection Hret as -> ->.
  all: destruct reply' as [response|error]; cbn [fst snd];
       [split; [done|]; by eapply call_trace_one|].
  all: pose proof (parseError_effect error c1 w1) as Hpe; cbn zeta in Hpe;
       destruct (parseError error c1 w1) as [[[pe|e2] c2] w2]; cbn [fst snd] in Hpe;
       destruct Hpe as (Hs2 & Hn2 & _ & _ & _ & _ & Htr2);
       assert (same_settings c c2) as Hs by (by eapply same_settings_trans);
       [|cbn [fst snd]; split; [done|];
         eapply call_trace_one; [lia | done | by rewrite Htr2]].
  - replace (retryCount <? 3)%nat with false by (symmetry; apply Nat.ltb_ge; lia).
    cbn [andb fst snd]. split; [done|].
    eapply call_trace_one; [lia | done | by rewrite Htr2].
  - destruct (_ && _); cbn [fst snd].
    2: { split; [done|]. eapply call_trace_one; [lia | done | by rewrite Htr2]. }
    replace (retryCount + 1)%nat with (S retryCount) by lia.
    specialize (IH (S retryCount) c2
                  (with_trace (Sleep (2 ^ Z.of_nat retryCount * 1000))
                     (Z.to_N (2 ^ Z.of_nat retryCount * 1000)) w2) ltac:(lia)).
    cbn zeta in IH.
    destruct (makeRequest method endpoint data (S retryCount) c2 _) as [[r' c'] w'].
    cbn [fst snd] in *.
    destruct IH as (Hs' & rest & stamps & Hrest & Hdis & Hcnt & Hlen & Hlen' & Hsl & Hex).
    split; [by eapply same_settings_trans|].
    set (cfg := request_config _ _ _ _ _) in Htr.
    exists (pre ++ [Dispatch cfg] ++ [Sleep (backoff retryCount)] ++ rest),
      ((token, now) :: stamps).
    assert (dispatches pre = [] /\ sleeps pre = [] /\ Forall (exchange_of c) pre)
      as (Hdp & Hsp & Hep)
      by (destruct Hpre as [-> | ->]; repeat split; by repeat constructor).
    rewrite !dispatches_app, !sleeps_app, Hdp, Hsp. cbn.
    repeat split; try lia.
    + rewrite Hrest. cbn [trace with_trace]. rewrite Htr2, Htr.
      by rewrite <- !app_assoc.
    + rewrite Nat.add_0_r. fold cfg. f_equal. rewrite Hdis.
      destruct Hs as (_ & _ & _ & _ & -> & _). unfold stamped.
      apply imap_ext. intros i p _. cbn. rewrite Hn2, Hn1.
      by replace (requestCounter c + S i)%nat with (S (requestCounter c) + i)%nat by lia.
    + by apply prefix_cons.
    + apply Forall_app. split; [done|].
      do 2 (apply Forall_cons; split; [done|]).
      eapply Forall_impl; [exact Hex|]. intros ev Hev Hie.
      rewrite <- (exchange_event_settings c c2 Hs). by apply Hev.
Qed.

(** ** Request ids *)

Lemma no_dash_app (a b : string) :
  no_dash (a +:+ b) = no_dash a && no_dash b.
Proof.
  induction a as [|ch a IH]; cbv [String.append no_dash]; fold String.append no_dash;
    [done|]. by rewrite IH, andb_assoc.
Qed.

Lemma pretty_N_char_no_dash (x : N) : Ascii.eqb (pretty_N_char x) "-" = false.
Proof.
  destruct x as [|p]; [done|]. by do 4 (destruct p as [p|p|]; try done).
Qed.

Lemma pretty_N_no_dash (x : N) : no_dash (pretty x) = true.
Proof.
  induction (N.lt_wf_0 x) as [x _ IH].
  destruct (decide (x < 10)%N) as [Hx|Hx].
  - destruct (decide (x = 0%N)) as [->|]; [done|].
    rewrite pretty_N_digit by lia. cbn. by rewrite pretty_N_char_no_dash.
  - rewrite pretty_N_snoc by lia. rewrite no_dash_app, IH by (apply N.div_lt; lia).
    cbn. by rewrite pretty_N_char_no_dash.
Qed.

Lemma dash_splits (a a' b b' : string) :
  no_dash a = true -> no_dash a' = true ->
  a +:+ "-" +:+ b = a' +:+ "-" +:+ b' -> a = a'.
Proof.
  revert a'. induction a as [|ch a IH]; intros [|ch' a'];
    cbv [String.append no_dash]; fold String.append no_dash;
    intros Ha Ha' Heq; [done|..].
  - injection Heq as <- _. done.
  - injection Heq as -> _. done.
  - injection Heq as -> Heq. f_equal.
    apply andb_prop in Ha as [_ Ha]. apply andb_prop in Ha' as [_ Ha'].
    by apply IH.
Qed.

(** The request id determines the request counter it was built from. *)
Lemma request_id_counter (k k' : nat) (t t' : Z) :
  request_id k t = request_id k' t' -> k = k'.
Proof.
  unfold request_id. intros Heq.
  apply dash_splits in Heq; [|apply pretty_N_no_dash..].
  by apply (inj pretty) in Heq.
Qed.

Lemma numbered_NoDup base stamps : NoDup (numbered base stamps).
Proof.
  apply NoDup_alt. intros i j x. unfold numbered.
  rewrite !list_lookup_imap.
  destruct (stamps !! i) as [p|], (stamps !! j) as [q|]; cbn; try done.
  intros [= <-] [= Heq]. apply request_id_counter in Heq. lia.
Qed.

Lemma numbered_app base s1 s2 :
  numbered base (s1 ++ s2) = numbered base s1 ++ numbered (base + length s1) s2.
Proof.
  unfold numbered. rewrite imap_app. f_equal. apply imap_ext.
  intros i p _. cbn. by rewrite Nat.add_assoc.
Qed.

Lemma omap_imap_Some {A B C} (f : nat -> A -> B) (g : B -> option C)
    (h : nat -> A -> C) (l : list A) :
  (forall i x, g (f i x) = Some (h i x)) -> omap g (imap f l) = imap h l.
Proof.
  revert f h. induction l as [|x l IH]; intros f h Hg; [done|].
  cbn. rewrite Hg. f_equal. apply IH. intros i y. apply Hg.
Qed.

Lemma request_config_id method url token requestId data :
  Axios.headers (request_config method url token requestId data)
    !! "PayPal-Request-Id" = Some requestId.
Proof.
  cbn. rewrite !lookup_insert_ne by done. by rewrite lookup_insert.
Qed.

Lemma request_ids_app tr1 tr2 :
  request_ids (tr1 ++ tr2) = request_ids tr1 ++ request_ids tr2.
Proof. unfold request_ids. by rewrite dispatches_app, omap_app. Qed.

(** ** Runs *)

Lemma run_trace_none c c' w w' :
  requestCounter c' = requestCounter c ->
  trace w' = trace w \/ trace w' = trace w ++ [exchange_event c] ->
  run_trace c c' w w'.
Proof.
  intros Hn [Htr|Htr]; [exists [] | exists [exchange_event c]]; exists [];
    rewrite ?app_nil_r; cbn; repeat split; try done; try lia;
    by repeat constructor.
Qed.

Lemma run_trace_trans c1 c2 c3 w1 w2 w3 :
  same_settings c1 c2 -> run_trace c1 c2 w1 w2 -> run_trace c2 c3 w2 w3 ->
  run_trace c1 c3 w1 w3.
Proof.
  intros Hs (rest & stamps & Htr & Hids & Hlen & Hcnt & Hex)
    (rest' & stamps' & Htr' & Hids' & Hlen' & Hcnt' & Hex').
  exists (rest ++ rest'), (stamps ++ stamps').
  rewrite request_ids_app, numbered_app, dispatches_app, !length_app.
  repeat split.
  - by rewrite Htr', Htr, app_assoc.
  - by rewrite Hids, Hids', Hcnt.
  - by rewrite Hlen, Hlen'.
  - lia.
  - apply Forall_app. split; [done|].
    eapply Forall_impl; [exact Hex'|]. intros ev Hev Hie.
    rewrite <- (exchange_event_settings c1 c2 Hs). by apply Hev.
Qed.

Lemma call_trace_run method url data n retryCount c c' w w' :
  call_trace method url data n retryCount c c' w w' -> run_trace c c' w w'.
Proof.
  intros (rest & stamps & Htr & Hdis & Hcnt & _ & _ & _ & Hex).
  exists rest, stamps. repeat split; try done.
  - unfold request_ids, numbered. rewrite Hdis. apply omap_imap_Some.
    intros i p. apply request_config_id.
  - rewrite Hdis. apply length_imap.
Qed.

(** [verifyWebhook] leaves client and world alone when the headers
    cannot be read, and otherwise as its request left them: the handler
    changes neither. *)
Lemma verifyWebhook_state headers body webhookId c w :
  state_of (verifyWebhook headers body webhookId c w) =
  match headers with
  | VUndefined | VNull => (c, w)
  | _ => state_of (makeRequest "POST" verify_path
                     (verificationData headers body webhookId) 0 c w)
  end.
Proof.
  rewrite verifyWebhook_run.
  destruct headers; try done;
    unfold try_catch; rewrite bind_run;
    (destruct (makeRequest _ _ _ _ c w) as [[[result|e] c1] w1]; [|done]);
    by destruct (get_prop result "verification_status").
Qed.

Lemma call_effect k c w :
  same_settings c (call k c w).1 /\ run_trace c (call k c w).1 w (call k c w).2.
Proof.
  destruct k as [| |error|method endpoint data retryCount|headers body webhookId|ms];
    cbn [call]; rewrite ?verifyWebhook_state; unfold state_of; cbn [fst snd].
  - pose proof (getAccessToken_effect c w) as H. cbn zeta in H.
    destruct H as (Hs & Hn & _ & _ & Htr). split; [done|]. by apply run_trace_none.
  - pose proof (checkRateLimit_effect c w) as H. cbn zeta in H.
    destruct H as (Hs & Hn & _ & _ & _ & _ & _ & Htr). split; [done|].
    apply run_trace_none; [done | by left].
  - pose proof (parseError_effect error c w) as H. cbn zeta in H.
    destruct H as (Hs & Hn & _ & _ & _ & _ & Htr). split; [done|].
    apply run_trace_none; [done | by left].
  - destruct (makeRequest_trace method endpoint data _ retryCount c w eq_refl)
      as [Hs Htr]. split; [done|]. by eapply call_trace_run.
  - destruct (makeRequest_trace "POST" verify_path
                (verificationData headers body webhookId) _ 0 c w eq_refl)
      as [Hs Htr].
    destruct headers; cbn [fst snd];
      try (split; [done|]; by eapply call_trace_run);
      (split; [apply same_settings_refl|]); apply run_trace_none; by (done + left).
  - split; [apply same_settings_refl|]. apply run_trace_none; [done | by left].
Qed.

Lemma run_effect calls :
  forall c w,
    same_settings c (run calls c w).1 /\
    run_trace c (run calls c w).1 w (run calls c w).2.
Proof.
  induction calls as [|k calls IH]; intros c w; cbn [run].
  - split; [apply same_settings_refl|]. apply run_trace_none; [done | by left].
  - destruct (call_effect k c w) as [Hs Htr].
    destruct (call k c w) as [c1 w1]. cbn [fst snd] in *.
    destruct (IH c1 w1) as [Hs' Htr']. split.
    + by eapply same_settings_trans.
    + by eapply run_trace_trans.
Qed.

Lemma paces_app tr1 tr2 : paces (tr1 ++ tr2) = paces tr1 ++ paces tr2.
Proof. apply omap_app. Qed.

(** The dispatches and waits of one call follow the schedule. *)
Lemma makeRequest_paces method endpoint data (n : nat) :
  forall retryCount c w, (3 - retryCount)%nat = n ->
  exists rest,
    trace (makeRequest method endpoint data retryCount c w).2 = trace w ++ rest /\
    paces rest `prefix_of` schedule retryCount n.
Proof.
  induction n as [|n IH]; intros retryCount c w Hn;
    rewrite makeRequest_unfold, makeRequest_body_run;
    pose proof (attempt_cases method endpoint data c w) as Hatt; cbn zeta in Hatt;
    destruct (attempt method endpoint data c w) as [[[[rid reply]|e] c1] w1];
    cbn [fst snd] in Hatt;
    destruct Hatt as [_ [(e' & Hret & _ & Htr)
                        | (token & now & reply' & pre & Hret & _ & Hpre & Htr)]];
    try discriminate; cbn [fst snd].
  1,3: injection Hret as -> ->.
  3,4: (destruct Htr as [Htr|Htr];
        [exists []; rewrite app_nil_r | exists [exchange_event c]];
        (split; [done|]); apply prefix_nil).
  all: set (cfg := request_config _ _ _ _ _) in Htr; clearbody cfg;
       assert (paces (pre ++ [Dispatch cfg]) = [None]) as Hone
         by (rewrite paces_app; by destruct Hpre as [-> | ->]);
       assert (forall k, [@None Z] `prefix_of` schedule retryCount k) as Hfirst
         by (intros k; apply prefix_cons, prefix_nil);
       destruct reply' as [response|error]; cbn [fst snd];
       [exists (pre ++ [Dispatch cfg]); split; [done|]; by rewrite Hone|].
  all: destruct (parseError_run error c1 w1)
         as (pe & c2 & w2 & -> & _ & _ & _ & _ & _ & _ & _ & Htr2).
  - replace (retryCount <? 3)%nat with false by (symmetry; apply Nat.ltb_ge; lia).
    cbn [andb fst snd]. exists (pre ++ [Dispatch cfg]).
    split; [by rewrite Htr2|]. by rewrite Hone.
  - destruct (_ && _); cbn [fst snd].
    2: { exists (pre ++ [Dispatch cfg]). split; [by rewrite Htr2|]. by rewrite Hone. }
    replace (retryCount + 1)%nat with (S retryCount) by lia.
    destruct (IH (S retryCount) c2
                (with_trace (Sleep (2 ^ Z.of_nat retryCount * 1000))
                   (Z.to_N (2 ^ Z.of_nat retryCount * 1000)) w2) ltac:(lia))
      as (rest & Hrest & Hpaces).
    exists ((pre ++ [Dispatch cfg]) ++ [Sleep (backoff retryCount)] ++ rest).
    split.
    { rewrite Hrest. cbn [trace with_trace]. rewrite Htr2, Htr.
      by rewrite <- !app_assoc. }
    rewrite paces_app, Hone, paces_app. cbn.
    by do 2 apply prefix_cons.
Qed.

(** X1.  Whatever the server answers, one call of [makeRequest] that
    starts at a retry counter that is a natural number (the default 0, or
    a counter passed by the method's own recursion) follows the schedule
    dispatch, wait [2^retryCount] s, dispatch, wait [2^(retryCount+1)] s,
    ..., dispatch, with a last wait of 4 s: its dispatches and waits, in
    the order they happen, are an initial part of that schedule.  So two
    dispatches are always separated by exactly one backoff wait, the call
    dispatches at most [3 - retryCount + 1] requests (4 for a call that
    starts at 0), its waits add up to at most 7 s, and the request
    counter grows by exactly the number of dispatches. *)
Theorem makeRequest_bounded method endpoint data (retryCount : nat) c w :
  let r := makeRequest method endpoint data retryCount c w in
  exists rest,
    trace r.2 = trace w ++ rest /\
    paces rest `prefix_of`
      None :: flat_map (fun k => [Some (2 ^ Z.of_nat k * 1000); None])
                (seq retryCount (3 - retryCount)) /\
    (length (dispatches rest) <= S (3 - retryCount))%nat /\
    (length (dispatches rest) <= S (length (sleeps rest)))%nat /\
    sleeps rest `prefix_of` (backoff <$> seq retryCount (3 - retryCount)) /\
    foldr Z.add 0 (sleeps rest) <= 7000 /\
    requestCounter r.1.2 = (requestCounter c + length (dispatches rest))%nat.
Proof.
  cbn zeta.
  destruct (makeRequest_trace method endpoint data _ retryCount c w eq_refl)
    as [_ (rest & stamps & Htr & Hdis & Hcnt & Hlen & Hlen' & Hsl & _)].
  destruct (makeRequest_paces method endpoint data _ retryCount c w eq_refl)
    as (rest' & Htr' & Hpaces).
  assert (rest' = rest) as ->
    by (rewrite Htr in Htr'; by apply app_inv_head in Htr').
  assert (length (dispatches rest) = length stamps) as Hl
    by (rewrite Hdis; apply length_imap).
  exists rest. rewrite Hl. repeat split; try done.
  destruct Hsl as [k Hk]. revert Hk. generalize (sleeps rest). intros sl Hk.
  destruct retryCount as [|[|[|retryCount]]].
  - change (backoff <$> seq 0 (3 - 0)) with [1000; 2000; 4000] in Hk.
    destruct sl as [|a [|b [|d [|]]]]; simplify_eq/=; lia.
  - change (backoff <$> seq 1 (3 - 1)) with [2000; 4000] in Hk.
    destruct sl as [|a [|b [|]]]; simplify_eq/=; lia.
  - change (backoff <$> seq 2 (3 - 2)) with [4000] in Hk.
    destruct sl as [|a [|]]; simplify_eq/=; lia.
  - change (backoff <$> seq (S (S (S retryCount))) (3 - S (S (S retryCount))))
      with (@nil Z) in Hk.
    destruct sl; simplify_eq/=; lia.
Qed.

(** X2.  Every request that one call of [makeRequest] dispatches, first
    attempt or retry, has the method given, the URL [baseURL + endpoint],
    the fixed timeout of 30000 ms, the body [data] when [data] is truthy
    and no body otherwise, a JSON content type, the [Prefer] header and
    a bearer token; every token exchange it makes goes to the token
    endpoint of the client with its Basic credentials. *)
Theorem makeRequest_dispatch_shape method endpoint data retryCount c w :
  let r := makeRequest method endpoint data retryCount c w in
  exists rest,
    trace r.2 = trace w ++ rest /\
    Forall (fun cfg =>
              Axios.method cfg = method /\
              Axios.url cfg = baseURL c +:+ endpoint /\
              Axios.timeout cfg = 30000 /\
              Axios.data_of cfg = (if truthy data then Some data else None) /\
              Axios.headers cfg !! "Content-Type" = Some "application/json" /\
              Axios.headers cfg !! "Prefer" = Some "return=representation" /\
              exists token,
                Axios.headers cfg !! "Authorization" = Some ("Bearer " +:+ token))
      (dispatches rest) /\
    Forall (fun ev =>
              is_exchange ev = true ->
              ev = TokenExchange (baseURL c +:+ "/v1/oauth2/token")
                     "grant_type=client_credentials" (token_headers c))
      rest.
Proof.
  cbn zeta.
  destruct (makeRequest_trace method endpoint data _ retryCount c w eq_refl)
    as [_ (rest & stamps & Htr & Hdis & _ & _ & _ & _ & Hex)].
  exists rest. split; [done|]. split; [|exact Hex].
  rewrite Hdis. apply Forall_lookup. intros i cfg. unfold stamped.
  rewrite list_lookup_imap. destruct (stamps !! i) as [[token now]|]; [|done].
  intros [= <-]. cbn. repeat split. exists token. by rewrite lookup_insert.
Qed.

(** X3.  No sequence of calls on a client (token acquisition, throttle
    checks, error classification, requests with their retries, webhook
    verifications, with time passing in between) changes its credentials,
    mode, debug flag, base URL, configuration or request ceiling; the
    trace only grows, and every token exchange of the run is the same
    exchange, to the token endpoint with the Basic credentials the client
    was constructed with. *)
Theorem run_settings_constant calls c w :
  let r := run calls c w in
  clientId r.1 = clientId c /\ clientSecret r.1 = clientSecret c /\
  mode r.1 = mode c /\ debug r.1 = debug c /\ baseURL r.1 = baseURL c /\
  config r.1 = config c /\ maxRequestsPerMinute r.1 = maxRequestsPerMinute c /\
  exists rest,
    trace r.2 = trace w ++ rest /\
    Forall (fun ev => is_exchange ev = true -> ev = exchange_event c) rest.
Proof.
  cbn zeta.
  destruct (run_effect calls c w)
    as [(?&?&?&?&?&?&?) (rest & stamps & Htr & _ & _ & _ & Hex)].
  repeat split; try done. by exists rest.
Qed.

(** X4.  Over any sequence of calls on a client, the request counter
    grows by exactly the number of requests dispatched, the dispatch of
    index [i] carries the request id built from the counter value
    [requestCounter + i + 1] and the clock, and so the PayPal-Request-Id
    headers of the run are pairwise distinct: a retry never reuses the
    id of the attempt that failed.  (The counter is a natural number.) *)
Theorem run_request_ids_distinct calls c w :
  let r := run calls c w in
  exists (rest : list Event) (stamps : list (string * Z)),
    trace r.2 = trace w ++ rest /\
    request_ids rest =
      imap (fun i p => request_id (S (requestCounter c + i)) p.2) stamps /\
    length (request_ids rest) = length (dispatches rest) /\
    requestCounter r.1 = (requestCounter c + length (dispatches rest))%nat /\
    NoDup (request_ids rest).
Proof.
  cbn zeta.
  destruct (run_effect calls c w)
    as [_ (rest & stamps & Htr & Hids & Hlen & Hcnt & _)].
  exists rest, stamps. rewrite Hids, Hlen. repeat split; try done.
  - unfold numbered. by rewrite length_imap.
  - apply numbered_NoDup.
Qed.

(** ** The constructed client *)

(** An attempt by a client below its ceiling and without a cached token
    starts with the token exchange. *)
Lemma attempt_exchanges_first method endpoint data c w :
  accessToken c = None ->
  reached (rateLimitCount c) (maxRequestsPerMinute c) = false ->
  let r := attempt method endpoint data c w in
  r.1.1 <> Throw rate_limit_error /\
  exists rest, trace r.2 = trace w ++ exchange_event c :: rest.
Proof.
  intros Hnone Hlt. cbn zeta. unfold attempt.
  rewrite bind_run, checkRateLimit_run. cbn zeta.
  set (c0 := if 60 * 1000 <? _ then _ else c).
  set (w0 := if 60 * 1000 <? _ then _ else w).
  assert (accessToken c0 = None /\ exchange_event c0 = exchange_event c /\
          trace w0 = trace w /\
          reached (rateLimitCount c0) (maxRequestsPerMinute c0) = false)
    as (Hn0 & He0 & Ht0 & Hlt0).
  { subst c0 w0. destruct (60 * 1000 <? _); repeat split; try done. cbn.
    eapply reached_below; [|exact Hlt]. lia. }
  clearbody c0 w0. rewrite Hlt0.
  rewrite bind_run, getAccessToken_run.
  rewrite fresh_token_None by (by left). cbn zeta.
  destruct (next_token_reply _).2 as [response|error]; cbn [fst snd].
  - unfold_monad. unfold axios. cbn.
    destruct (default _ _) as [latency reply]. cbn. split; [done|].
    rewrite Ht0, <- He0. eexists. rewrite <- app_assoc. reflexivity.
  - split; [done|]. exists []. cbn. rewrite Ht0, <- He0. reflexivity.
Qed.

Lemma makeRequest_exchanges method endpoint data retryCount c w :
  accessToken c = None ->
  reached (rateLimitCount c) (maxRequestsPerMinute c) = false ->
  exists rest,
    trace (makeRequest method endpoint data retryCount c w).2 =
    trace w ++ exchange_event c :: rest.
Proof.
  intros Hnone Hlt.
  rewrite makeRequest_unfold, makeRequest_body_run.
  destruct (attempt_exchanges_first method endpoint data c w Hnone Hlt)
    as [_ [rest Hrest]].
  destruct (attempt method endpoint data c w) as [[[[rid [resp|error]]|e] c1] w1];
    cbn [fst snd] in *; try by exists rest.
  pose proof (parseError_effect error c1 w1) as Hpe. cbn zeta in Hpe.
  destruct (parseError error c1 w1) as [[[pe|e2] c2] w2]; cbn [fst snd] in Hpe;
    destruct Hpe as (_ & _ & _ & _ & _ & _ & Htr2).
  2: { exists rest. cbn. by rewrite Htr2. }
  destruct (_ && _); cbn [fst snd].
  2: { exists rest. by rewrite Htr2. }
  destruct (grows_makeRequest_rec (3 - (retryCount + 1)) method endpoint data
              (retryCount + 1)
              c2 (with_trace (Sleep (2 ^ Z.of_nat retryCount * 1000))
                    (Z.to_N (2 ^ Z.of_nat retryCount * 1000)) w2)) as [rest' Hrest'].
  unfold makeRequest. rewrite Hrest'. cbn [trace with_trace].
  rewrite Htr2, Hrest. eexists. by rewrite <- !app_assoc.
Qed.


(** X6.  The ceiling decides the first request of a newly constructed
    client.  When the ceiling is at most 0 (a negative option), the first
    [makeRequest] is refused by the throttle at once, with no network
    event.  Otherwise its first attempt passes the throttle and the
    first network event of the call is the token exchange: a POST of the
    client-credentials grant to [baseURL + /v1/oauth2/token] with the
    Basic credentials built from the client id and secret the constructor
    stored.  (A retry later in the same call can still be refused, as
    with a ceiling of 1 and a 500 reply.) *)
Theorem first_request_authenticates options env now c method endpoint data
    retryCount w :
  constructor options env now = inr c ->
  let r := makeRequest method endpoint data retryCount c w in
  if reached 0 (maxRequestsPerMinute c)
  then r.1.1 = Throw rate_limit_error /\ trace r.2 = trace w
  else
    exists rest,
      trace r.2 = trace w ++
        TokenExchange (baseURL c +:+ "/v1/oauth2/token")
          "grant_type=client_credentials"
          {[ "Authorization" :=
               "Basic " +:+ Base64.encode (clientId c +:+ ":" +:+ clientSecret c);
             "Content-Type" := "application/x-www-form-urlencoded" ]} :: rest.
Proof.
  intros Hc. cbn zeta.
  assert (rateLimitCount c = O /\ accessToken c = None) as [Hzero Hnone].
  { unfold constructor in Hc. case_match; [done|]. by injection Hc as <-. }
  destruct (reached 0 (maxRequestsPerMinute c)) eqn:Hfull.
  - pose proof (checkRateLimit_run c w) as Hrun. cbn zeta in Hrun.
    assert (exists c0 w0, checkRateLimit c w = (Throw rate_limit_error, c0, w0) /\
                          trace w0 = trace w) as (c0 & w0 & Hcheck & Htr).
    { rewrite Hrun. destruct (60 * 1000 <? _); cbn; rewrite ?Hzero, Hfull;
        by eexists _, _. }
    unfold makeRequest.
    by rewrite (makeRequest_rec_throttled _ _ _ _ _ _ _ _ _ _ Hcheck).
  - apply makeRequest_exchanges; [done | by rewrite Hzero].
Qed.

Lemma first_request_authenticates_witness :
  exists rest,
    trace (makeRequest "GET" "/v2/checkout/orders/0" VNull 0
             (client_of sample_options) unauthorized_world).2 =
    trace unauthorized_world ++
      TokenExchange (baseURL (client_of sample_options) +:+ "/v1/oauth2/token")
        "grant_type=client_credentials"
        {[ "Authorization" :=
             "Basic " +:+ Base64.encode (clientId (client_of sample_options) +:+ ":"
                                         +:+ clientSecret (client_of sample_options));
           "Content-Type" := "application/x-www-form-urlencoded" ]} :: rest.
Proof.
  apply (first_request_authenticates sample_options no_env 1000000%N
           (client_of sample_options) "GET" "/v2/checkout/orders/0" VNull 0%nat
           unauthorized_world).
  vm_compute. reflexivity.
Defined.

(** ** Health check *)

(** X7.  [getApiStatus] never throws.  It does exactly what one call of
    [getAccessToken] does to the client and the world, so it dispatches no
    API request, counts nothing against the throttle and leaves the
    request counter alone; it reports healthy exactly when that call
    returned a token and unhealthy, with the error caught, when it threw;
    the mode and base URL reported are those of the client and the
    timestamp is the clock reading after the call. *)
Theorem getApiStatus_spec c w :
  let t := getAccessToken c w in
  exists st,
    getApiStatus c w = (Return st, t.1.2, t.2) /\
    match t.1.1 with
    | Return _ => api_status st = "healthy" /\ api_error st = None
    | Throw e => api_status st = "unhealthy" /\ api_error st = Some e
    end /\
    api_mode st = mode c /\ api_baseUrl st = baseURL c /\
    api_timestamp st = Z.of_N (clock t.2) /\
    dispatches (trace t.2) = dispatches (trace w) /\
    rateLimitCount t.1.2 = rateLimitCount c /\
    requestCounter t.1.2 = requestCounter c.
Proof.
  cbn zeta. unfold getApiStatus, try_catch. rewrite bind_run.
  pose proof (getAccessToken_effect c w) as Heff. cbn zeta in Heff.
  destruct (getAccessToken c w) as [[[token|e] c1] w1]; cbn [fst snd] in *;
    destruct Heff as ((_ & _ & Hmode & _ & Hurl & _) & Hn & Hrate & _ & Htr);
    unfold_monad; cbn; eexists; (split; [reflexivity|]); cbn;
    rewrite Hmode, Hurl; repeat split; try done;
    destruct Htr as [-> | ->]; by rewrite ?dispatches_app, ?app_nil_r.
Qed.

(** ** Return URLs and the merging of defaults *)

Lemma str_or_lit_nonempty (a : option string) (lit : string) :
  lit <> "" -> str_or_lit a lit <> "".
Proof.
  intros Hlit. unfold str_or_lit. destruct a as [s|]; [|done].
  by destruct (String.eqb_spec s "").
Qed.

Lemma url_nonempty (base type suffix : string) :
  base +:+ "/" +:+ type +:+ suffix <> "".
Proof. by destruct base. Qed.

Lemma or_else_truthy (a b : val) : truthy b = true -> truthy (or_else a b) = true.
Proof. intros Hb. unfold or_else. by destruct (truthy a) eqn:Ha. Qed.

Lemma truthy_VStr (s : string) : s <> "" -> truthy (VStr s) = true.
Proof. intros Hs. cbn. by destruct (String.eqb_spec s ""). Qed.

Lemma assoc_set_prop (k k' : string) (v : val) (props : list (string * val)) :
  assoc k (set_prop k' v props) = if String.eqb k k' then v else assoc k props.
Proof.
  induction props as [|[k0 v0] props IH]; cbn; [done|].
  destruct (String.eqb_spec k' k0) as [->|Hne]; cbn.
  - by destruct (String.eqb_spec k k0).
  - rewrite IH. destruct (String.eqb_spec k k0) as [->|]; [|done].
    by destruct (String.eqb_spec k0 k').
Qed.

Lemma keys_set_prop (k k' : string) (v : val) (props : list (string * val)) :
  k ∈ (set_prop k' v props).*1 <-> k = k' \/ k ∈ props.*1.
Proof.
  induction props as [|[k0 v0] props IH]; cbn.
  - rewrite list_elem_of_singleton, elem_of_nil. tauto.
  - destruct (String.eqb_spec k' k0) as [->|Hne]; cbn;
      rewrite !elem_of_cons; [tauto|]. rewrite IH. tauto.
Qed.

Lemma NoDup_set_prop (k : string) (v : val) (props : list (string * val)) :
  NoDup props.*1 -> NoDup (set_prop k v props).*1.
Proof.
  induction props as [|[k0 v0] props IH]; cbn; intros Hnd.
  - apply NoDup_singleton.
  - apply NoDup_cons in Hnd as [Hk0 Hnd].
    destruct (String.eqb_spec k k0) as [->|Hne]; cbn.
    + by apply NoDup_cons.
    + apply NoDup_cons. split; [|by apply IH].
      rewrite keys_set_prop. intros [->|]; done.
Qed.

Lemma assoc_absent (k : string) (props : list (string * val)) :
  k ∉ props.*1 -> assoc k props = VUndefined.
Proof.
  induction props as [|[k0 v0] props IH]; cbn; [done|].
  intros Hk. apply not_elem_of_cons in Hk as [Hne Hk].
  destruct (String.eqb_spec k k0); [done | by apply IH].
Qed.

(** Copying the properties [props] of an object onto [target]. *)
Lemma foldl_set_prop (props : list (string * val)) :
  forall target : list (string * val),
    let merged := foldl (fun acc kv => set_prop kv.1 kv.2 acc) target props in
    (NoDup target.*1 -> NoDup merged.*1) /\
    (forall k, k ∈ merged.*1 <-> k ∈ target.*1 \/ k ∈ props.*1) /\
    (NoDup props.*1 ->
     forall k, assoc k merged = if decide (k ∈ props.*1) then assoc k props
                                else assoc k target).
Proof.
  induction props as [|[k0 v0] props IH]; intros target; cbn zeta.
  - cbn. split; [done|]. split.
    + intros k. rewrite elem_of_nil. tauto.
    + intros _ k. rewrite decide_False; [done|]. apply not_elem_of_nil.
  - cbn [foldl fst snd].
    destruct (IH (set_prop k0 v0 target)) as (Hnd & Hkeys & Hassoc).
    split; [|split].
    + intros Ht. by apply Hnd, NoDup_set_prop.
    + intros k'. rewrite Hkeys, keys_set_prop. cbn. rewrite elem_of_cons. tauto.
    + intros Hprops k'. cbn in Hprops. apply NoDup_cons in Hprops as [Hk0 Hprops].
      rewrite (Hassoc Hprops k'), assoc_set_prop. cbn.
      destruct (String.eqb_spec k' k0) as [->|Hne].
      * rewrite decide_False by done.
        rewrite decide_True; [done|]. apply elem_of_cons. by left.
      * destruct (decide (k' ∈ props.*1)).
        -- rewrite decide_True; [done|]. apply elem_of_cons. by right.
        -- rewrite decide_False; [done|]. apply not_elem_of_cons. done.
Qed.

Lemma spread_NoDup (target : list (string * val)) (source : val) :
  NoDup target.*1 -> NoDup (spread target source).*1.
Proof. apply foldl_set_prop. Qed.

Lemma spread_object (props : list (string * val)) :
  NoDup props.*1 -> forall k, assoc k (spread [] (VObj props)) = assoc k props.
Proof.
  intros Hnd k. unfold spread. cbn [own_props].
  destruct (foldl_set_prop props []) as (_ & _ & Hassoc). cbn zeta in Hassoc.
  rewrite (Hassoc Hnd). destruct (decide _); [done|].
  by rewrite (assoc_absent k props).
Qed.

Lemma or_else_picked camel snake configured fallback :
  fallback <> "" ->
  picked camel snake configured fallback
    (or_else camel (or_else snake (VStr (str_or_lit configured fallback)))).
Proof.
  intros Hf. unfold picked.
  assert (truthy (VStr (str_or_lit configured fallback)) = true) as Hbase
    by (by apply truthy_VStr, str_or_lit_nonempty).
  split; [by do 2 apply or_else_truthy|].
  unfold or_else. destruct (truthy camel) eqn:Hc; [done|].
  destruct (truthy snake) eqn:Hs; [done|].
  do 2 (split; [done|]). intros _ _. split.
  - intros s -> Hne. unfold str_or_lit. by destruct (String.eqb_spec s "").
  - by intros [-> | ->].
Qed.

(** X8.  [getReturnUrls] throws a TypeError when the overrides are
    [null] (the default [{}] replaces [undefined] only).  Otherwise it
    returns both URLs, each of them truthy, chosen in this order: the
    camelCase override, the snake_case override, the configured URL, and
    last [baseUrl/type/success] (or [/cancel]) with [type] defaulting to
    payment; a falsy override (absent, empty, [null], 0) is skipped. *)
Theorem getReturnUrls_spec d type overrides :
  match overrides with
  | VNull => getReturnUrls d type overrides = inl TypeError
  | _ =>
      exists ret cancel,
        getReturnUrls d type overrides =
          inr (VObj [("return_url", ret); ("cancel_url", cancel)]) /\
        picked (opt_prop overrides "returnUrl") (opt_prop overrides "return_url")
          (returnUrl d) (baseUrl d +:+ "/" +:+ default "payment" type +:+ "/success")
          ret /\
        picked (opt_prop overrides "cancelUrl") (opt_prop overrides "cancel_url")
          (cancelUrl d) (baseUrl d +:+ "/" +:+ default "payment" type +:+ "/cancel")
          cancel
  end.
Proof.
  destruct overrides; [|done|..]; unfold getReturnUrls; cbn;
    eexists _, _; (split; [reflexivity|]);
    split; apply or_else_picked, url_nonempty.
Qed.

Lemma getReturnUrls_defined d type overrides :
  overrides <> VNull -> exists urls, getReturnUrls d type overrides = inr urls.
Proof. unfold getReturnUrls. destruct overrides; try done; cbn; by eexists. Qed.

Lemma defaultOrder_NoDup d urls : NoDup (defaultOrder d urls).*1.
Proof. cbn. apply (bool_decide_unpack _). by vm_compute. Qed.

(** The body that [createOrder] sends, property by property. *)
Lemma order_body d urls orderData :
  NoDup (own_props orderData).*1 ->
  let body := spread (spread [] (VObj (defaultOrder d urls))) orderData in
  NoDup body.*1 /\
  forall k, assoc k body =
            if decide (k ∈ (own_props orderData).*1)
            then assoc k (own_props orderData)
            else assoc k (defaultOrder d urls).
Proof.
  intros Hnd. cbn zeta. split.
  - do 2 apply spread_NoDup. apply NoDup_nil_2.
  - intros k. unfold spread at 1.
    destruct (foldl_set_prop (own_props orderData)
                (spread [] (VObj (defaultOrder d urls)))) as (_ & _ & Hassoc).
    cbn zeta in Hassoc. rewrite (Hassoc Hnd).
    destruct (decide _); [done|]. apply spread_object, defaultOrder_NoDup.
Qed.

(** X9.  [createOrder(null)] throws a TypeError before the throttle is
    consulted and without any network traffic.  For every other order
    data, [createOrder] makes the one request POST /v2/checkout/orders
    whose body is the shallow merge of the defaults and the order data:
    a property the caller gives (even with a falsy value, and even a
    whole nested object such as payment_source) replaces the default of
    that name, every other property has its default value, with the
    return URLs of [getReturnUrls]. *)
Theorem createOrder_merge d orderData c w :
  NoDup (own_props orderData).*1 ->
  match orderData with
  | VNull => createOrder d orderData c w = (Throw TypeError, c, w)
  | _ =>
      exists urls body,
        getReturnUrls d (Some "payment") orderData = inr urls /\
        createOrder d orderData c w =
          makeRequest "POST" "/v2/checkout/orders" (VObj body) 0 c w /\
        NoDup body.*1 /\
        forall k, assoc k body =
                  if decide (k ∈ (own_props orderData).*1)
                  then assoc k (own_props orderData)
                  else assoc k (defaultOrder d urls)
  end.
Proof.
  intros Hnd.
  assert (orderData <> VNull ->
          exists urls body,
            getReturnUrls d (Some "payment") orderData = inr urls /\
            createOrder d orderData c w =
              makeRequest "POST" "/v2/checkout/orders" (VObj body) 0 c w /\
            NoDup body.*1 /\
            forall k, assoc k body =
                      if decide (k ∈ (own_props orderData).*1)
                      then assoc k (own_props orderData)
                      else assoc k (defaultOrder d urls)) as Hmerge.
  { intros Hnull.
    destruct (getReturnUrls_defined d (Some "payment") orderData Hnull)
      as [urls Hurls].
    eexists _, _. split; [exact Hurls|].
    split; [unfold createOrder; rewrite bind_run, Hurls; reflexivity|].
    by apply order_body. }
  destruct orderData; try (by apply Hmerge). done.
Qed.

Lemma createOrder_merge_witness :
  NoDup (own_props sample_order).*1 /\
  exists urls body,
    getReturnUrls sample_display (Some "payment") sample_order = inr urls /\
    createOrder sample_display sample_order (client_of sample_options) token_world =
      makeRequest "POST" "/v2/checkout/orders" (VObj body) 0
        (client_of sample_options) token_world /\
    NoDup body.*1 /\
    forall k, assoc k body =
              if decide (k ∈ (own_props sample_order).*1)
              then assoc k (own_props sample_order)
              else assoc k (defaultOrder sample_display urls).
Proof.
  split; [apply (bool_decide_unpack _); by vm_compute|].
  apply (createOrder_merge sample_display sample_order (client_of sample_options)
           token_world).
  apply (bool_decide_unpack _). by vm_compute.
Defined.

(** X10.  [createSimplePayment] sends exactly its own order literal as
    the body of POST /v2/checkout/orders: every default of [createOrder]
    is replaced, so the brand name sent is always Your Store, the locale
    en-US, and the return and cancel URLs are the arguments given or the
    example.com placeholders; the configured brand name, locale, base URL
    and return URLs have no effect on the request. *)
Theorem createSimplePayment_body d amount currency description returnUrl cancelUrl
    c w :
  createSimplePayment d amount currency description returnUrl cancelUrl c w =
  makeRequest "POST" "/v2/checkout/orders"
    (simple_order amount (default "USD" currency) (default "Payment" description)
       returnUrl cancelUrl) 0 c w /\
  forall d',
    createSimplePayment d' amount currency description returnUrl cancelUrl c w =
    createSimplePayment d amount currency description returnUrl cancelUrl c w.
Proof.
  assert (forall d0,
            createSimplePayment d0 amount currency description returnUrl
              cancelUrl c w =
            makeRequest "POST" "/v2/checkout/orders"
              (simple_order amount (default "USD" currency)
                 (default "Payment" description) returnUrl cancelUrl) 0 c w)
    as Hbody.
  { intros d0. unfold createSimplePayment, createOrder. rewrite bind_run.
    reflexivity. }
  split; [apply Hbody|]. intros d'. by rewrite !Hbody.
Qed.

Lemma spread_own (source : val) :
  let copy := spread [] source in
  NoDup copy.*1 /\
  (forall k, k ∈ copy.*1 <-> k ∈ (own_props source).*1) /\
  (NoDup (own_props source).*1 ->
   forall k, assoc k copy = assoc k (own_props source)).
Proof.
  cbn zeta. unfold spread.
  destruct (foldl_set_prop (own_props source) []) as (Hnd & Hkeys & Hassoc).
  cbn zeta in *. split; [apply Hnd, NoDup_nil_2|]. split.
  - intros k. rewrite Hkeys, elem_of_nil. tauto.
  - intros Hprops k. rewrite (Hassoc Hprops). destruct (decide _); [done|].
    by rewrite (assoc_absent k (own_props source)).
Qed.

(** X11.  [authorizePayment] never throws a TypeError, not even for
    [null] order data, and the one request it makes is POST
    /v2/checkout/orders with a body whose intent is AUTHORIZE whatever
    intent the caller gave; the other properties of the caller are sent
    unchanged and the remaining ones have the defaults of [createOrder]. *)
Theorem authorizePayment_intent d orderData c w :
  let authOrderData := set_prop "intent" (VStr "AUTHORIZE") (spread [] orderData) in
  exists urls body,
    getReturnUrls d (Some "payment") (VObj authOrderData) = inr urls /\
    authorizePayment d orderData c w =
      makeRequest "POST" "/v2/checkout/orders" (VObj body) 0 c w /\
    NoDup body.*1 /\
    assoc "intent" body = VStr "AUTHORIZE" /\
    (forall k, k <> "intent" -> k ∉ (own_props orderData).*1 ->
               assoc k body = assoc k (defaultOrder d urls)) /\
    (forall k, k <> "intent" -> k ∈ (own_props orderData).*1 ->
               NoDup (own_props orderData).*1 ->
               assoc k body = assoc k (own_props orderData)).
Proof.
  cbn zeta. set (auth := set_prop _ _ _).
  destruct (spread_own orderData) as (Hnd & Hkeys & Hassoc). cbn zeta in *.
  assert (NoDup auth.*1) as Hauth by (by apply NoDup_set_prop).
  destruct (getReturnUrls_defined d (Some "payment") (VObj auth)) as [urls Hurls];
    [done|].
  destruct (order_body d urls (VObj auth) Hauth) as [Hbody Hread].
  cbn zeta in Hread. cbn [own_props] in Hread.
  eexists urls, _. split; [exact Hurls|].
  split; [unfold authorizePayment, createOrder; fold auth;
          rewrite bind_run, Hurls; reflexivity|].
  split; [exact Hbody|]. split; [|split].
  - rewrite Hread, decide_True by (apply keys_set_prop; by left).
    unfold auth. by rewrite assoc_set_prop.
  - intros k Hk Hout. rewrite Hread, decide_False; [done|].
    unfold auth. rewrite keys_set_prop, Hkeys. tauto.
  - intros k Hk Hin Hprops. rewrite Hread, decide_True.
    + unfold auth. rewrite assoc_set_prop.
      destruct (String.eqb_spec k "intent"); [done|]. by apply Hassoc.
    + unfold auth. rewrite keys_set_prop, Hkeys. tauto.
Qed.

(** X12.  [verifyWebhook] forwards what it is given: every request it
    dispatches is a POST to [baseURL +
    /v1/notifications/verify-webhook-signature] whose body holds the five
    PayPal transmission headers as received ([undefined] for a header
    that is absent), the webhook id and the event; it dispatches at most
    4 requests (the retries of [makeRequest] apply) and waits at most
    7 s in backoff.  With [null] or [undefined] headers nothing is
    dispatched. *)
Theorem verifyWebhook_forwards headers body webhookId c w :
  let r := verifyWebhook headers body webhookId c w in
  let header (name : string) : val := opt_prop headers name in
  exists rest,
    trace r.2 = trace w ++ rest /\
    (headers = VNull \/ headers = VUndefined -> rest = []) /\
    (length (dispatches rest) <= 4)%nat /\
    sleeps rest `prefix_of` [1000; 2000; 4000] /\
    Forall (fun cfg =>
              Axios.method cfg = "POST" /\
              Axios.url cfg =
                baseURL c +:+ "/v1/notifications/verify-webhook-signature" /\
              Axios.data_of cfg =
                Some (VObj [ ("auth_algo", header "paypal-auth-algo");
                             ("cert_id", header "paypal-cert-id");
                             ("transmission_id", header "paypal-transmission-id");
                             ("transmission_sig", header "paypal-transmission-sig");
                             ("transmission_time", header "paypal-transmission-time");
                             ("webhook_id", webhookId);
                             ("webhook_event", body) ]))
      (dispatches rest).
Proof.
  cbn zeta.
  pose proof (verifyWebhook_state headers body webhookId c w) as Hstate.
  unfold state_of in Hstate.
  assert (headers = VNull \/ headers = VUndefined \/
          (verifyWebhook headers body webhookId c w).2 =
          (makeRequest "POST" verify_path
             (verificationData headers body webhookId) 0 c w).2 /\
          headers <> VNull /\ headers <> VUndefined) as [->|[->|(-> & Hn & Hu)]].
  { destruct headers; try (by left); try (right; by left);
      right; right; by injection Hstate as _ ->. }
  1,2: exists []; rewrite app_nil_r; (split; [done|]); (split; [done|]); cbn;
       (split; [lia|]); (split; [apply prefix_nil | done]).
  destruct (makeRequest_trace "POST" verify_path
              (verificationData headers body webhookId) _ 0 c w eq_refl)
    as [_ (rest & stamps & Htr & Hdis & _ & Hlen & _ & Hsl & _)].
  exists rest. split; [done|].
  split; [by intros [?|?]|].
  split; [rewrite Hdis; unfold stamped; by rewrite length_imap|].
  split; [exact Hsl|].
  rewrite Hdis. apply Forall_lookup. intros i cfg. unfold stamped.
  rewrite list_lookup_imap. destruct (stamps !! i) as [[token now]|]; [|done].
  by intros [= <-].
Qed.

(** ** The outcome of a request and the last event of its trace *)

Lemma attempt_throws method endpoint data c w e c1 w1 :
  attempt method endpoint data c w = (Throw e, c1, w1) ->
  (exists message, e = Error message) \/ (exists detail, e = TokenError detail).
Proof.
  unfold attempt. rewrite bind_run, checkRateLimit_run. cbn zeta.
  destruct (reached _ _); [intros [= <- _ _]; left; by eexists|].
  rewrite bind_run, getAccessToken_run.
  destruct (fresh_token _ _).
  { unfold_monad. unfold axios. cbn. by destruct (default _ _). }
  cbn zeta. destruct (next_token_reply _).2.
  - unfold_monad. unfold axios. cbn. by destruct (default _ _).
  - intros [= <- _ _]. right. by eexists.
Qed.

Lemma last_dispatch_snoc tr cfg : last_dispatch (tr ++ [Dispatch cfg]) = Some cfg.
Proof. unfold last_dispatch. by rewrite last_snoc. Qed.

Lemma last_dispatch_after_sleep tr ms rest :
  last_dispatch (tr ++ [Sleep ms] ++ rest) = last_dispatch rest.
Proof.
  unfold last_dispatch. rewrite app_assoc, last_app.
  destruct (last rest) eqn:Hl; [done|]. by rewrite last_snoc.
Qed.

Lemma last_dispatch_quiet c tr :
  tr = [] \/ tr = [exchange_event c] -> last_dispatch tr = None.
Proof. by intros [-> | ->]. Qed.

Lemma makeRequest_outcome method endpoint data (n : nat) :
  forall retryCount c w, (3 - retryCount)%nat = n ->
  let r := makeRequest method endpoint data retryCount c w in
  exists rest, trace r.2 = trace w ++ rest /\ settled_by retryCount r.1.1 rest.
Proof.
  induction n as [|n IH]; intros retryCount c w Hn; cbn zeta;
    rewrite makeRequest_unfold, makeRequest_body_run;
    pose proof (attempt_cases method endpoint data c w) as Hatt; cbn zeta in Hatt;
    pose proof (attempt_throws method endpoint data c w) as Hthrow;
    destruct (attempt method endpoint data c w) as [[[[rid reply]|e] c1] w1];
    cbn [fst snd] in Hatt;
    destruct Hatt as [_ [(e' & Hret & _ & Htr)
                        | (token & now & reply' & pre & Hret & _ & Hpre & Htr)]];
    try discriminate; cbn [fst snd].
  1,3: injection Hret as -> ->.
  3,4: (destruct (Hthrow e c1 w1 eq_refl) as [[? ->]|[? ->]];
        destruct Htr as [Htr|Htr];
        [exists []; rewrite app_nil_r | exists [exchange_event c]
        |exists []; rewrite app_nil_r | exists [exchange_event c]]; by split).
  all: set (cfg := request_config _ _ _ _ _) in Htr;
       assert (Axios.headers cfg !! "PayPal-Request-Id"
               = Some (request_id (S (requestCounter c)) now)) as Hid
         by apply request_config_id;
       assert (dispatches (pre ++ [Dispatch cfg]) = [cfg]) as Hone
         by (rewrite dispatches_app; by destruct Hpre as [-> | ->]);
       clearbody cfg;
       destruct reply' as [response|error]; cbn [fst snd];
       [exists (pre ++ [Dispatch cfg]); split; [done|]; cbn;
        by rewrite last_dispatch_snoc|].
  all: destruct (parseError_run error c1 w1)
         as (pe & c2 & w2 & -> & _ & _ & _ & _ & _ & _ & _ & Htr2).
  - replace (retryCount <? 3)%nat with false by (symmetry; apply Nat.ltb_ge; lia).
    cbn [andb fst snd]. exists (pre ++ [Dispatch cfg]).
    split; [by rewrite Htr2|]. cbn. exists cfg.
    rewrite last_dispatch_snoc, Hone, Hn. split; [done|]. split; [done|]. by left.
  - destruct (retryCount <? 3)%nat eqn:Hlt; cbn [andb].
    2: { apply Nat.ltb_ge in Hlt. lia. }
    destruct (bool_decide (pe_type pe = AUTHENTICATION_FAILURE)) eqn:Hauth;
      [|destruct (bool_decide (pe_status pe = Some 500)) eqn:H500]; cbn [orb].
    3: { cbn [fst snd]. exists (pre ++ [Dispatch cfg]).
         split; [by rewrite Htr2|]. cbn. exists cfg.
         rewrite last_dispatch_snoc. split; [done|]. split; [done|]. right.
         apply bool_decide_eq_false in Hauth, H500. done. }
    all: replace (retryCount + 1)%nat with (S retryCount) by lia;
         specialize (IH (S retryCount) c2
                       (with_trace (Sleep (2 ^ Z.of_nat retryCount * 1000))
                          (Z.to_N (2 ^ Z.of_nat retryCount * 1000)) w2)
                       ltac:(lia));
         cbn zeta in IH;
         destruct (makeRequest method endpoint data (S retryCount) c2 _)
           as [[o c'] w'];
         cbn [fst snd] in *;
         destruct IH as (rest & Hrest & Hset);
         exists ((pre ++ [Dispatch cfg]) ++ [Sleep (backoff retryCount)] ++ rest);
         (split; [rewrite Hrest; cbn [trace with_trace]; rewrite Htr2, Htr;
                  by rewrite <- !app_assoc|]);
         unfold settled_by in *;
         rewrite last_dispatch_after_sleep;
         destruct o as [v|[]]; try done;
         destruct Hset as (cfg' & Hlast & Hid' & Hcount);
         exists cfg'; (split; [done|]); (split; [done|]);
         destruct Hcount as [Hcount|Hcount]; [left | by right];
         rewrite (dispatches_app (pre ++ [Dispatch cfg])), Hone;
         rewrite (dispatches_app [Sleep (backoff retryCount)]);
         cbn; rewrite Hcount; lia.
Qed.

Lemma last_dispatch_Some tr cfg :
  last_dispatch tr = Some cfg <-> last tr = Some (Dispatch cfg).
Proof.
  unfold last_dispatch. destruct (last tr) as [[]|]; split; congruence.
Qed.

Lemma last_dispatch_None tr :
  last_dispatch tr = None <-> forall cfg, last tr <> Some (Dispatch cfg).
Proof.
  unfold last_dispatch. destruct (last tr) as [[| cfg' |]|]; split; try done.
  intros H. by destruct (H cfg').
Qed.

(** X13.  The outcome of a call of [makeRequest] and the last event it
    added to the trace agree.  When the call returns, its last event is a
    dispatch (the one that was answered).  When it throws the typed API
    error, its last event is a dispatch whose PayPal-Request-Id header is
    the request id carried by the error, and either the retries are used
    up (the call made all [3 - retryCount + 1] dispatches) or the error
    is not retriable (neither an authentication failure nor status 500).
    When it throws anything else (throttle or token error), the last
    event is not a dispatch. *)
Theorem makeRequest_outcome_trace method endpoint data retryCount c w :
  let r := makeRequest method endpoint data retryCount c w in
  exists rest,
    trace r.2 = trace w ++ rest /\
    match r.1.1 with
    | Return _ => exists cfg, last rest = Some (Dispatch cfg)
    | Throw (ApiError type _ status _ requestId) =>
        exists cfg,
          last rest = Some (Dispatch cfg) /\
          Axios.headers cfg !! "PayPal-Request-Id" = Some requestId /\
          (length (dispatches rest) = S (3 - retryCount) \/
           (type <> AUTHENTICATION_FAILURE /\ status <> Some 500))
    | Throw _ => forall cfg, last rest <> Some (Dispatch cfg)
    end.
Proof.
  cbn zeta.
  destruct (makeRequest_outcome method endpoint data _ retryCount c w eq_refl)
    as (rest & Htr & Hset).
  exists rest. split; [done|]. unfold settled_by in Hset.
  destruct (makeRequest method endpoint data retryCount c w).1.1 as [v|[]].
  - destruct Hset as [cfg Hcfg]. exists cfg. by apply last_dispatch_Some.
  - by apply last_dispatch_None.
  - by apply last_dispatch_None.
  - destruct Hset as (cfg & Hlast & Hid & Hcount). exists cfg.
    split; [by apply last_dispatch_Some | done].
  - by apply last_dispatch_None.
Qed.

(** ** The helpers that merge defaults *)

Lemma merge_body defaults data :
  NoDup defaults.*1 -> NoDup (own_props data).*1 ->
  merges defaults data (spread (spread [] (VObj defaults)) data).
Proof.
  intros Hdef Hnd. split.
  - do 2 apply spread_NoDup. apply NoDup_nil_2.
  - intros k. unfold spread at 1.
    destruct (foldl_set_prop (own_props data) (spread [] (VObj defaults)))
      as (_ & _ & Hassoc).
    cbn zeta in Hassoc. rewrite (Hassoc Hnd).
    destruct (decide _); [done|]. by apply spread_object.
Qed.

(** X14.  [createProduct], [sendInvoice] and [cancelInvoice] each make
    one request, a POST to their endpoint (with the invoice id spliced
    into the path), whose body is the shallow merge of their defaults
    and the data given: the caller's properties win, the other defaults
    are sent as they are.  None of them throws a TypeError on [null] or
    [undefined] data; the defaults are sent then. *)
Theorem default_merging data c w :
  NoDup (own_props data).*1 ->
  (exists body,
     createProduct data c w =
       makeRequest "POST" "/v1/catalogs/products" (VObj body) 0 c w /\
     merges defaultProduct data body) /\
  (forall invoiceId, exists body,
     sendInvoice invoiceId data c w =
       makeRequest "POST" ("/v2/invoicing/invoices/" +:+ invoiceId +:+ "/send")
         (VObj body) 0 c w /\
     merges defaultSendData data body) /\
  (forall invoiceId, exists body,
     cancelInvoice invoiceId data c w =
       makeRequest "POST" ("/v2/invoicing/invoices/" +:+ invoiceId +:+ "/cancel")
         (VObj body) 0 c w /\
     merges defaultCancelData data body).
Proof.
  intros Hnd.
  assert (NoDup defaultProduct.*1 /\ NoDup defaultSendData.*1 /\
          NoDup defaultCancelData.*1) as (Hp & Hs & Hc)
    by (repeat split; apply (bool_decide_unpack _); by vm_compute).
  assert (forall defaults,
            spread (spread [] (VObj defaults))
              match data with VUndefined => VObj [] | v => v end =
            spread (spread [] (VObj defaults)) data) as Hundef
    by (intros defaults; by destruct data).
  split; [|split].
  - exists (spread (spread [] (VObj defaultProduct)) data).
    split; [reflexivity|]. by apply merge_body.
  - intros invoiceId. exists (spread (spread [] (VObj defaultSendData)) data).
    unfold sendInvoice. rewrite Hundef.
    split; [reflexivity|]. by apply merge_body.
  - intros invoiceId. exists (spread (spread [] (VObj defaultCancelData)) data).
    unfold cancelInvoice. rewrite Hundef.
    split; [reflexivity|]. by apply merge_body.
Qed.

Lemma default_merging_witness :
  NoDup (own_props sample_send_data).*1 /\
  exists body,
    sendInvoice "INV2-Z56S-5LLA-Q52L-CPZ5" sample_send_data
      (client_of sample_options) token_world =
      makeRequest "POST"
        ("/v2/invoicing/invoices/" +:+ "INV2-Z56S-5LLA-Q52L-CPZ5" +:+ "/send")
        (VObj body) 0 (client_of sample_options) token_world /\
    merges defaultSendData sample_send_data body.
Proof.
  assert (NoDup (own_props sample_send_data).*1) as Hnd
    by (apply (bool_decide_unpack _); by vm_compute).
  split; [exact Hnd|].
  destruct (default_merging sample_send_data (client_of sample_options)
              token_world Hnd) as (_ & Hsend & _).
  apply Hsend.
Defined.

(** ** Requests per window *)

Lemma paced_refl c w : paced c c w w.
Proof.
  split; [lia|]. split; [done|]. intros _. split; [done|].
  exists []. rewrite app_nil_r. split; [done|]. cbn. lia.
Qed.

Lemma paced_trans c1 c2 c3 w1 w2 w3 :
  paced c1 c2 w1 w2 -> paced c2 c3 w2 w3 -> paced c1 c3 w1 w3.
Proof.
  intros (Hc1 & Hl1 & Hw1) (Hc2 & Hl2 & Hw2).
  split; [lia|]. split; [intros ceiling H; by apply Hl2, Hl1|]. intros Hin.
  destruct Hw1 as (Hwin1 & rest1 & Htr1 & Hn1); [lia|].
  destruct Hw2 as (Hwin2 & rest2 & Htr2 & Hn2); [rewrite Hwin1; lia|].
  split; [congruence|]. exists (rest1 ++ rest2).
  split; [by rewrite Htr2, Htr1, app_assoc|].
  rewrite dispatches_app, length_app. lia.
Qed.

(** A step that leaves the throttle fields alone and dispatches nothing. *)
Lemma paced_idle c c' w w' :
  (clock w <= clock w')%N ->
  rateLimitCount c' = rateLimitCount c ->
  rateLimitWindow c' = rateLimitWindow c ->
  maxRequestsPerMinute c' = maxRequestsPerMinute c ->
  (exists rest, trace w' = trace w ++ rest /\ dispatches rest = []) ->
  paced c c' w w'.
Proof.
  intros Hc Hn Hwin Hmax (rest & Htr & Hd).
  split; [done|]. split.
  { intros ceiling [Hm Ha]. split; [congruence|].
    unfold allowed in *. by rewrite Hn, Hmax. }
  intros _. split; [done|]. exists rest. split; [done|]. rewrite Hd. cbn. lia.
Qed.

Lemma checkRateLimit_paced c w :
  let r := checkRateLimit c w in
  clock r.2 = clock w /\ trace r.2 = trace w /\
  maxRequestsPerMinute r.1.2 = maxRequestsPerMinute c /\
  (forall ceiling, allowed_at ceiling c -> allowed_at ceiling r.1.2) /\
  (Z.of_N (clock w) - rateLimitWindow c <= 60 * 1000 ->
   rateLimitWindow r.1.2 = rateLimitWindow c /\
   (rateLimitCount c <= rateLimitCount r.1.2)%nat /\
   (r.1.1 = Return tt -> rateLimitCount r.1.2 = S (rateLimitCount c))).
Proof.
  cbn zeta. rewrite checkRateLimit_run. cbn zeta.
  destruct (60 * 1000 <? _) eqn:Hel;
    [apply Z.ltb_lt in Hel | apply Z.ltb_ge in Hel].
  - destruct (reached _ _) eqn:Hfull; cbn [fst snd];
      (do 3 (split; [done|])); (split; [|intros; lia]);
      intros ceiling [Hm Ha]; (split; [done|]); by (left + right).
  - destruct (reached _ _) eqn:Hfull; cbn [fst snd];
      (do 3 (split; [done|])); split; try done;
      try (intros _; repeat split; try done; cbn; lia).
    intros ceiling [Hm Ha]. split; [done|]. by right.
Qed.

Lemma getAccessToken_clock c w : (clock w <= clock (getAccessToken c w).2)%N.
Proof.
  rewrite getAccessToken_run. destruct (fresh_token _ _); [done|].
  cbn zeta. destruct (next_token_reply w).2; cbn; lia.
Qed.

Lemma attempt_paced method endpoint data c w :
  paced c (attempt method endpoint data c w).1.2 w (attempt method endpoint data c w).2.
Proof.
  unfold attempt. rewrite bind_run.
  pose proof (checkRateLimit_paced c w) as Hrate. cbn zeta in Hrate.
  destruct (checkRateLimit c w) as [[[[]|e0] c0] w0]; cbn [fst snd] in *;
    destruct Hrate as (Hc0 & Ht0 & Hm0 & Hl0 & Hw0).
  2: { split; [lia|]. split; [done|]. rewrite Hc0. intros Hin.
       destruct (Hw0 Hin) as (Hwin & Hn & _). split; [done|].
       exists []. rewrite app_nil_r. split; [done|]. cbn. lia. }
  rewrite bind_run.
  pose proof (getAccessToken_effect c0 w0) as Htok. cbn zeta in Htok.
  pose proof (getAccessToken_clock c0 w0) as Hclk.
  destruct (getAccessToken c0 w0) as [[[token|e1] c1] w1]; cbn [fst snd] in *;
    destruct Htok as ((_ & _ & _ & _ & _ & _ & Hm1) & _ & Hn1 & Hwin1 & Ht1).
  2: { split; [lia|]. split.
       { intros ceiling H. destruct (Hl0 ceiling H) as [Hm Ha].
         split; [congruence|]. unfold allowed in *. by rewrite Hn1, Hm1. }
       intros Hin.
       destruct Hw0 as (Hwin & Hn & _); [lia|]. split; [congruence|].
       destruct Ht1 as [Ht1|Ht1];
         [exists [] | exists [exchange_event c0]];
         rewrite Ht1, Ht0, ?app_nil_r; (split; [done|]); cbn; lia. }
  unfold_monad. unfold axios. cbn.
  destruct (default _ _) as [latency reply]. unfold paced. cbn.
  split; [lia|]. split.
  { intros ceiling H. destruct (Hl0 ceiling H) as [Hm Ha].
    split; [cbn; congruence|]. unfold allowed in *. cbn. by rewrite Hn1, Hm1. }
  intros Hin.
  destruct Hw0 as (Hwin & _ & Hn); [lia|]. specialize (Hn eq_refl).
  split; [congruence|].
  destruct Ht1 as [Ht1|Ht1];
    [eexists [_] | eexists [exchange_event c0; _]];
    rewrite Ht1, Ht0, <- ?app_assoc; (split; [reflexivity|]); cbn; lia.
Qed.

Lemma makeRequest_paced method endpoint data (n : nat) :
  forall retryCount c w, (3 - retryCount)%nat = n ->
  paced c (makeRequest method endpoint data retryCount c w).1.2
        w (makeRequest method endpoint data retryCount c w).2.
Proof.
  induction n as [|n IH]; intros retryCount c w Hn;
    rewrite makeRequest_unfold, makeRequest_body_run;
    pose proof (attempt_paced method endpoint data c w) as Hatt;
    destruct (attempt method endpoint data c w) as [[[[rid [response|error]]|e] c1] w1];
    cbn [fst snd] in *; try done.
  all: destruct (parseError_run error c1 w1)
         as (pe & c2 & w2 & -> & _ & _ & _ & Hc2 & Hclk & _ & _ & Htr2).
  all: assert (paced c c2 w w2) as Hpe
         by (eapply paced_trans; [exact Hatt|];
             apply paced_idle;
             [lia | rewrite Hc2; by destruct (bool_decide _)..
             |exists []; by rewrite app_nil_r]).
  - replace (retryCount <? 3)%nat with false by (symmetry; apply Nat.ltb_ge; lia).
    done.
  - destruct (_ && _); [|done].
    replace (retryCount + 1)%nat with (S retryCount) by lia.
    eapply paced_trans; [exact Hpe|].
    eapply paced_trans; [|apply IH; lia].
    apply paced_idle; try done; [cbn; lia|]. by eexists [_].
Qed.

Lemma call_paced k c w : paced c (call k c w).1 w (call k c w).2.
Proof.
  destruct k as [| |error|method endpoint data retryCount|headers body webhookId|ms];
    cbn [call]; rewrite ?verifyWebhook_state; unfold state_of; cbn [fst snd].
  - pose proof (getAccessToken_effect c w) as H. cbn zeta in H.
    destruct H as ((_ & _ & _ & _ & _ & _ & Hm) & _ & Hn & Hwin & Htr).
    apply paced_idle; try done; [apply getAccessToken_clock|].
    destruct Htr as [Htr|Htr]; [exists [] | exists [exchange_event c]];
      by rewrite Htr, ?app_nil_r.
  - pose proof (checkRateLimit_paced c w) as H. cbn zeta in H.
    destruct H as (Hc & Ht & Hm & Hl & Hw).
    split; [lia|]. split; [done|]. rewrite Hc. intros Hin.
    destruct (Hw Hin) as (Hwin & Hn & _). split; [done|].
    exists []. rewrite app_nil_r. split; [done|]. cbn. lia.
  - destruct (parseError_run error c w)
      as (pe & c2 & w2 & -> & _ & _ & _ & Hc2 & Hclk & _ & _ & Htr2).
    apply paced_idle;
      [cbn; lia | rewrite Hc2; by destruct (bool_decide _)..
      |exists []; by rewrite app_nil_r].
  - by eapply makeRequest_paced.
  - destruct headers; cbn [fst snd];
      try (by eapply makeRequest_paced); apply paced_refl.
  - apply paced_idle; try done; [cbn; lia|]. exists []. by rewrite app_nil_r.
Qed.

Lemma run_paced calls :
  forall c w, paced c (run calls c w).1 w (run calls c w).2.
Proof.
  induction calls as [|k calls IH]; intros c w; cbn [run]; [apply paced_refl|].
  pose proof (call_paced k c w) as Hk.
  destruct (call k c w) as [c1 w1]. cbn [fst snd] in *.
  eapply paced_trans; [exact Hk | apply IH].
Qed.

(** X15.  While the rate window that was open when a run began has not
    elapsed (the clock at the end of the run is within 60 s of the window
    start), every request the client dispatched during the run, retries
    included, was counted against the throttle.  So, for a client that
    satisfies the rate-limit invariant (as every constructed client
    does), either nothing was dispatched or the counter at the start
    plus the number of requests dispatched, minus one, is below the
    ceiling.  When the ceiling is a whole number N, at most
    [N - rateLimitCount] requests were dispatched, so a new client
    dispatches at most N requests in its first window; with a ceiling
    of 2.5 it can dispatch 3. *)
Theorem window_dispatch_bound calls c w :
  let r := run calls c w in
  allowed c ->
  Z.of_N (clock r.2) - rateLimitWindow c <= 60 * 1000 ->
  exists rest,
    trace r.2 = trace w ++ rest /\
    (dispatches rest = [] \/
     reached (pred (rateLimitCount c + length (dispatches rest)))
       (maxRequestsPerMinute c) = false) /\
    (forall n : nat, whole (maxRequestsPerMinute c) n ->
       (rateLimitCount c + length (dispatches rest) <= n)%nat).
Proof.
  cbn zeta. intros Hlim Hin.
  destruct (run_paced calls c w) as (_ & Hl & Hw).
  destruct (Hw Hin) as (_ & rest & Htr & Hn).
  destruct (Hl _ (conj eq_refl Hlim)) as [Hmax Hend].
  exists rest. split; [done|].
  assert (dispatches rest = [] \/
          reached (pred (rateLimitCount c + length (dispatches rest)))
            (maxRequestsPerMinute c) = false) as Hbound.
  { destruct (dispatches rest) as [|cfg cfgs] eqn:Hd; [by left|]. right.
    cbn [length] in *. destruct Hend as [Hend|Hend]; [lia|].
    rewrite Hmax in Hend. eapply reached_below; [|exact Hend]. lia. }
  split; [done|]. intros n Hwhole.
  destruct Hbound as [->|Hbound].
  - cbn. destruct Hlim as [->|Hlim]; [lia|].
    rewrite (reached_whole _ n) in Hlim by done. apply Nat.leb_gt in Hlim. lia.
  - rewrite (reached_whole _ n) in Hbound by done. apply Nat.leb_gt in Hbound.
    destruct Hlim as [Hzero|Hlim].
    + destruct (dispatches rest); cbn in *; lia.
    + rewrite (reached_whole _ n) in Hlim by done. apply Nat.leb_gt in Hlim. lia.
Qed.

Lemma window_dispatch_bound_witness :
  exists rest,
    trace (run burst_calls (client_of tiny_options) overloaded_world).2 =
      trace overloaded_world ++ rest /\
    (dispatches rest = [] \/
     reached (pred (rateLimitCount (client_of tiny_options)
                    + length (dispatches rest)))
       (maxRequestsPerMinute (client_of tiny_options)) = false) /\
    (forall n : nat, whole (maxRequestsPerMinute (client_of tiny_options)) n ->
       (rateLimitCount (client_of tiny_options) + length (dispatches rest)
        <= n)%nat).
Proof.
  apply (window_dispatch_bound burst_calls (client_of tiny_options) overloaded_world).
  - by left.
  - vm_compute. discriminate.
Defined.

(** ** A failed token exchange *)

(** X16.  When a call of [makeRequest] passes the throttle, has no usable
    cached token and the token exchange fails (rejected by the server, or
    no answer), the call throws the token error at once: one exchange, no
    dispatch, no backoff wait and no retry, whatever the retry counter;
    the cached token, its expiry and the request counter are left as they
    were.  The detail of the error is the [error_description] of the
    response when that is truthy and the message of the failure when
    there is no response. *)
Theorem token_failure_not_retried method endpoint data retryCount c w error :
  (checkRateLimit c w).1.1 = Return tt ->
  fresh_token c (Z.of_N (clock w)) = None ->
  (next_token_reply w).2 = Reject error ->
  let r := makeRequest method endpoint data retryCount c w in
  r.1.1 = Throw (TokenError (token_error_detail error)) /\
  trace r.2 = trace w ++ [exchange_event c] /\
  clock r.2 = (clock w + (next_token_reply w).1)%N /\
  accessToken r.1.2 = accessToken c /\ tokenExpiry r.1.2 = tokenExpiry c /\
  requestCounter r.1.2 = requestCounter c /\
  (forall response,
     err_response error = Some response ->
     truthy (opt_prop (Axios.data response) "error_description") = true ->
     token_error_detail error = opt_prop (Axios.data response) "error_description") /\
  (err_response error = None -> token_error_detail error = VStr (err_message error)).
Proof.
  intros Hpass Hstale Hreply. cbn zeta.
  rewrite makeRequest_unfold, makeRequest_body_run. unfold attempt.
  rewrite bind_run.
  pose proof (checkRateLimit_effect c w) as Hrate. cbn zeta in Hrate.
  destruct (checkRateLimit c w) as [[[[]|e0] c0] w0]; cbn [fst snd] in *;
    [|done].
  destruct Hrate as (Hs0 & Hn0 & Htok0 & Hexp0 & Hclk0 & Htr0 & _ & Ht0).
  rewrite bind_run, getAccessToken_run.
  assert (fresh_token c0 (Z.of_N (clock w0)) = None) as ->
    by (unfold fresh_token in *; by rewrite Htok0, Hexp0, Hclk0).
  cbn zeta.
  assert (next_token_reply w0 = next_token_reply w) as Hnext
    by (unfold next_token_reply; by rewrite Htr0).
  rewrite Hnext, Hreply. cbn [fst snd].
  split; [done|]. split.
  { cbn. rewrite Ht0. f_equal. f_equal.
    by apply (exchange_event_settings c c0). }
  split; [cbn; by rewrite Hnext, Hclk0|].
  do 3 (split; [done|]). unfold token_error_detail, or_else. split.
  - intros response -> Htruthy. by rewrite Htruthy.
  - by intros ->.
Qed.

Lemma token_failure_not_retried_witness :
  let error :=
    {| err_message := "Request failed with status code 401";
       err_response :=
         Some {| Axios.status := 401;
                 Axios.data :=
                   VObj [ ("error", VStr "invalid_client");
                          ("error_description",
                           VStr "Client Authentication failed") ] |} |} in
  let r := makeRequest "GET" "/v2/checkout/orders/0" VNull 0
             (client_of sample_options) denied_world in
  r.1.1 = Throw (TokenError (token_error_detail error)) /\
  trace r.2 = trace denied_world ++ [exchange_event (client_of sample_options)] /\
  clock r.2 = (clock denied_world + (next_token_reply denied_world).1)%N /\
  accessToken r.1.2 = accessToken (client_of sample_options) /\
  tokenExpiry r.1.2 = tokenExpiry (client_of sample_options) /\
  requestCounter r.1.2 = requestCounter (client_of sample_options) /\
  (forall response,
     err_response error = Some response ->
     truthy (opt_prop (Axios.data response) "error_description") = true ->
     token_error_detail error = opt_prop (Axios.data response) "error_description") /\
  (err_response error = None -> token_error_detail error = VStr (err_message error)).
Proof.
  cbn zeta.
  apply (token_failure_not_retried "GET" "/v2/checkout/orders/0" VNull 0%nat
           (client_of sample_options) denied_world); reflexivity.
Defined.
